(** * The es_loader log pipeline of siem/__init__.py

    A shallow embedding of the helper functions and of the [LogS3],
    [LogKinesis] and [LogParser] methods of
    [source/lambda/es_loader/siem/__init__.py], the properties of the
    pipeline that its specification states, and further properties that
    the code itself shows.

    Conventions of the embedding.
    - A Python value is a [pyval]: [None], booleans, integers, strings,
      lists and string-keyed dictionaries.  A dictionary is an association
      list in insertion order; a Python dict never holds a key twice, which
      is the invariant [wf_dict].  Floating point values are kept out of
      [pyval]; where the source converts to [float] (the epoch branch of
      [get_timestamp]) the kernel's binary64 numbers are used, and the
      conversion reads integers, booleans and texts.
    - A Python [str] is a [string] whose characters are the code points
      0..255.  On this alphabet the decimal digits are ['0'..'9'] and the
      white space of [str.split], [str.isspace] and of [\s] is [py_isspace].
    - A call that can raise returns a [res]: [Ok], [Raise] with the exception
      class, or [Unmodelled] where the outcome lies outside this fragment.
      For [json.loads], and so for [put_value_into_dict], [Unmodelled] is
      always a value that Python returns and [pyval] does not have, a float
      or a string with a code point above 255, and never an exception
      ([json_loads_fuel]).
    - [json_loads] is the grammar of the decoder.  The limits that the
      interpreter sets to a decoder at work are not part of it: the
      recursion limit, with a [RecursionError] for a text that is nested
      deeper than the stack in use allows, and the limit on the digits of an
      integer literal of the later versions of Python, with a [ValueError].
      Where a text is built from a value of a log entry, the statements
      below that say that a call returns keep the value free of double
      quotes and backslashes, take a dictionary of the model, or have the
      decoder reject the text at the first double quote of the value, so
      that the text read is nested as the destination path and the
      dictionary are.
    - The platform is the one the function runs on: Linux with glibc and a
      64-bit [time_t], which decides the form of [%Y] and the exceptions of
      [fromtimestamp].
    - In-place updates of a dictionary become functions that return the
      updated dictionary; all the functions here are run on arguments that
      do not share structure. *)

From Stdlib Require Import ZArith List String Ascii Bool Lia.
From Stdlib Require Import DecimalString.
From Stdlib Require DecimalFacts DecimalPos.
From Stdlib Require Import PrimFloat FloatOps SpecFloat Uint63.
From Stdlib Require FloatAxioms.
Import ListNotations.
Open Scope string_scope.
Open Scope list_scope.
Open Scope Z_scope.

(** ** Python values *)

#[warnings="-register-all"]
Inductive pyval : Type :=
| PNone
| PBool (b : bool)
| PInt (z : Z)
| PStr (s : string)
| PList (l : list pyval)
| PDict (d : list (string * pyval)).

#[warnings="-notation-for-abbreviation"]
Notation dict := (list (string * pyval)).

Inductive exn : Type :=
| ValueError | KeyError | TypeError | IndexError | AttributeError
| OverflowError | OSError | JSONDecodeError | RecursionError
| Exception (msg : string).

Inductive res (A : Type) : Type :=
| Ok (a : A)
| Raise (e : exn)
| Unmodelled.
Arguments Ok {A} a.
Arguments Raise {A} e.
Arguments Unmodelled {A}.

Definition bind {A B : Type} (m : res A) (f : A -> res B) : res B :=
  match m with
  | Ok a => f a
  | Raise e => Raise e
  | Unmodelled => Unmodelled
  end.

Notation "x <- m ;; k" := (bind m (fun x => k))
  (at level 61, m at next level, right associativity).

(** [d[k]] on a dictionary, [k in d], [d[k] = v] and [del d[k]]. *)
Fixpoint dict_get (k : string) (d : dict) : option pyval :=
  match d with
  | [] => None
  | (k', v) :: rest => if String.eqb k k' then Some v else dict_get k rest
  end.

Definition dict_mem (k : string) (d : dict) : bool :=
  match dict_get k d with Some _ => true | None => false end.

(** Assignment keeps the place of a key that is present and appends a new
    key at the end. *)
Fixpoint dict_set (k : string) (v : pyval) (d : dict) : dict :=
  match d with
  | [] => [(k, v)]
  | (k', v') :: rest =>
      if String.eqb k k' then (k', v) :: rest else (k', v') :: dict_set k v rest
  end.

Fixpoint nodup_keys (ks : list string) : bool :=
  match ks with
  | [] => true
  | k :: rest => negb (existsb (String.eqb k) rest) && nodup_keys rest
  end.

(** No dictionary anywhere in the value holds a key twice. *)
Fixpoint wf_val (v : pyval) : bool :=
  match v with
  | PList l => forallb wf_val l
  | PDict d => nodup_keys (map fst d) && forallb (fun kv => wf_val (snd kv)) d
  | _ => true
  end.

Definition wf_dict (d : dict) : bool := wf_val (PDict d).

(** Truth value of an object, as [if v:] tests it. *)
Definition py_truthy (v : pyval) : bool :=
  match v with
  | PNone => false
  | PBool b => b
  | PInt z => negb (z =? 0)
  | PStr s => negb (String.eqb s "")
  | PList l => match l with [] => false | _ => true end
  | PDict d => match d with [] => false | _ => true end
  end.

(** [a == b].  A boolean compares as the integer 0 or 1; two dictionaries
    are equal when they have the same keys with equal values, in any
    order. *)
Fixpoint py_eq (a b : pyval) {struct a} : bool :=
  match a, b with
  | PNone, PNone => true
  | PBool x, PBool y => Bool.eqb x y
  | PBool x, PInt y => (if x then 1 else 0) =? y
  | PInt x, PBool y => x =? (if y then 1 else 0)
  | PInt x, PInt y => x =? y
  | PStr x, PStr y => String.eqb x y
  | PList x, PList y =>
      (fix all2 (x : list pyval) (y : list pyval) {struct x} : bool :=
         match x, y with
         | [], [] => true
         | u :: x', v :: y' => py_eq u v && all2 x' y'
         | _, _ => false
         end) x y
  | PDict x, PDict y =>
      Nat.eqb (List.length x) (List.length y)
      && forallb (fun kv => match dict_get (fst kv) y with
                            | Some v' => py_eq (snd kv) v'
                            | None => false
                            end) x
  | _, _ => false
  end.

(** ** Cleanup: [LogParser.del_none] and the [json] property *)

Definition is_sentinel (s : string) : bool :=
  String.eqb s "" || String.eqb s "-" || String.eqb s "null".

(** [del_none_val (PDict d)] is [self.del_none(d)]: the loop over
    [list(d.items())] drops an entry whose value is an empty dictionary or
    one of the strings [''], ['-'], ['null'], and calls itself on every other
    dictionary value; such a value stays in place, whatever is left of it. *)
Fixpoint del_none_val (value : pyval) : pyval :=
  match value with
  | PDict d =>
      PDict ((fix items (d : dict) : dict :=
                match d with
                | [] => []
                | (key, value) :: rest =>
                    match value with
                    | PDict [] => items rest
                    | PStr s =>
                        if is_sentinel s then items rest
                        else (key, value) :: items rest
                    | PDict _ => (key, del_none_val value) :: items rest
                    | _ => (key, value) :: items rest
                    end
                end) d)
  | _ => value
  end.

Definition del_none (d : dict) : dict :=
  match del_none_val (PDict d) with
  | PDict d' => d'
  | _ => []
  end.

(** The dictionary that the [json] property serialises:
    [self.del_none(self.del_none(self.__logdata_dict))]. *)
Definition json_cleanup (logdata_dict : dict) : dict :=
  del_none (del_none logdata_dict).

(** A dictionary value, at any depth below [v] along dictionary values,
    that is empty. *)
Fixpoint has_empty_map (v : pyval) : bool :=
  match v with
  | PDict d =>
      existsb (fun kv => match snd kv with
                         | PDict [] => true
                         | _ => has_empty_map (snd kv)
                         end) d
  | _ => false
  end.

(** A string value, at any depth below [v] along dictionary values, that is
    one of the three sentinels. *)
Fixpoint has_sentinel_leaf (v : pyval) : bool :=
  match v with
  | PDict d =>
      existsb (fun kv => match snd kv with
                         | PStr s => is_sentinel s
                         | _ => has_sentinel_leaf (snd kv)
                         end) d
  | _ => false
  end.

(** ** DeepMerge: [merge] *)

(** [merge_into (PDict b) a] is [merge(a, b)]: for every key of [b], in
    order, two dictionaries are merged recursively, an equal value is kept,
    and any other value of [a] is overwritten by that of [b] (the [str]
    containment test of the source selects between two branches that make
    the same assignment); a key that [a] lacks is added. *)
Fixpoint merge_into (b : pyval) (a : dict) {struct b} : dict :=
  match b with
  | PDict bd =>
      (fix loop (bd : dict) (a : dict) {struct bd} : dict :=
         match bd with
         | [] => a
         | (key, bv) :: rest =>
             loop rest
               match dict_get key a with
               | Some av =>
                   match av, bv with
                   | PDict ad, PDict _ =>
                       dict_set key (PDict (merge_into bv ad)) a
                   | _, _ => if py_eq av bv then a else dict_set key bv a
                   end
               | None => dict_set key bv a
               end
         end) bd a
  | _ => a
  end.

Definition merge (a b : dict) : dict := merge_into (PDict b) a.

(** One round of the loop of [merge]: the body run for [key] and [b[key]]. *)
Definition merge_step (key : string) (bv : pyval) (a : dict) : dict :=
  match dict_get key a with
  | Some av =>
      match av, bv with
      | PDict ad, PDict bd => dict_set key (PDict (merge ad bd)) a
      | _, _ => if py_eq av bv then a else dict_set key bv a
      end
  | None => dict_set key bv a
  end.

(** [absorbs w bv]: the value [w] is what one round of [merge] leaves under a
    key whose value in [b] is [bv]: [bv] itself, a value that compares equal
    to it, or the recursive merge of two dictionaries. *)
Definition absorbs (w bv : pyval) : Prop :=
  w = bv
  \/ (py_eq w bv = true /\ forall wd bd, w = PDict wd -> bv <> PDict bd)
  \/ exists ad bd, w = PDict (merge ad bd) /\ bv = PDict bd.

(** The two facts proved together about a dictionary [bd] that is merged
    in. *)
Definition merge_ok (bv : pyval) : Prop :=
  forall bd, bv = PDict bd ->
    (forall a, merge (merge a bd) bd = merge a bd) /\ merge bd bd = bd.

(** Sample documents for the merge: [a] holds a leaf and a nested map, [b]
    overrides the leaf, extends the nested map and adds a key. *)
Definition merge_sample_a : dict :=
  [("user", PStr "alice");
   ("cloud", PDict [("provider", PStr "aws")]);
   ("port", PInt 1)].

Definition merge_sample_b : dict :=
  [("cloud", PDict [("region", PStr "us-east-1"); ("provider", PStr "aws")]);
   ("port", PBool true);
   ("user", PDict [("name", PStr "alice")]);
   ("tags", PList [PStr "x"])].

(** ** Strings *)

(** White space of [str.split()], [str.strip()] and of the pattern [\s], on
    the code points 0..255: TAB..CR, FS..US, space, NEL and NBSP. *)
Definition py_isspace (c : ascii) : bool :=
  let n := N_of_ascii c in
  ((9 <=? n) && (n <=? 13) || (28 <=? n) && (n <=? 32)
   || (n =? 133) || (n =? 160))%N.

(** Decimal digits (the class [\d] and the digits that [int] reads) on the
    code points 0..255. *)
Definition is_digit (c : ascii) : bool :=
  let n := N_of_ascii c in ((48 <=? n) && (n <=? 57))%N.

Definition digit_val (c : ascii) : Z := Z.of_N (N_of_ascii c) - 48.

Definition snoc (s : string) (c : ascii) : string := (s ++ String c "")%string.

(** [s.split()]: the maximal runs of characters that are not white space. *)
Fixpoint py_split_go (s : string) (word : string) : list string :=
  match s with
  | EmptyString => if String.eqb word "" then [] else [word]
  | String c rest =>
      if py_isspace c
      then if String.eqb word "" then py_split_go rest ""
           else word :: py_split_go rest ""
      else py_split_go rest (snoc word c)
  end.

Definition py_split (s : string) : list string := py_split_go s "".

(** [s.split(sep)] for a one-character separator: empty pieces are kept. *)
Fixpoint split_on_go (sep : ascii) (s : string) (word : string) : list string :=
  match s with
  | EmptyString => [word]
  | String c rest =>
      if Ascii.eqb c sep then word :: split_on_go sep rest ""
      else split_on_go sep rest (snoc word c)
  end.

Definition split_on (sep : ascii) (s : string) : list string :=
  split_on_go sep s "".

(** [needle in s] for two strings. *)
Fixpoint str_contains (needle s : string) : bool :=
  String.prefix needle s
  || match s with
     | EmptyString => false
     | String _ rest => str_contains needle rest
     end.

Fixpoint py_lstrip (s : string) : string :=
  match s with
  | String c rest => if py_isspace c then py_lstrip rest else s
  | EmptyString => EmptyString
  end.

Fixpoint py_rstrip (s : string) : string :=
  match s with
  | String c rest =>
      match py_rstrip rest with
      | EmptyString => if py_isspace c then EmptyString else String c EmptyString
      | r => String c r
      end
  | EmptyString => EmptyString
  end.

Definition py_strip (s : string) : string := py_rstrip (py_lstrip s).

(** The digits of an integer literal: single underscores may stand between
    two digits. *)
Fixpoint int_digits (s : string) (acc : Z) (after_digit : bool) : option Z :=
  match s with
  | EmptyString => if after_digit then Some acc else None
  | String c rest =>
      if is_digit c then int_digits rest (10 * acc + digit_val c) true
      else if Ascii.eqb c "_" && after_digit then int_digits rest acc false
      else None
  end.

(** White space that [int] and [float] skip at both ends of a text: TAB..CR
    and the space, and NEL and NBSP, which the two read as spaces.  Unlike
    [str.strip] they do not skip FS..US. *)
Definition int_isspace (c : ascii) : bool :=
  let n := N_of_ascii c in
  ((9 <=? n) && (n <=? 13) || (n =? 32) || (n =? 133) || (n =? 160))%N.

Fixpoint int_lstrip (s : string) : string :=
  match s with
  | String c rest => if int_isspace c then int_lstrip rest else s
  | EmptyString => EmptyString
  end.

Fixpoint int_rstrip (s : string) : string :=
  match s with
  | String c rest =>
      match int_rstrip rest with
      | EmptyString => if int_isspace c then EmptyString else String c EmptyString
      | r => String c r
      end
  | EmptyString => EmptyString
  end.

Definition int_strip (s : string) : string := int_rstrip (int_lstrip s).

(** [int(s)] in base ten; [None] stands for [ValueError]. *)
Definition py_int (s : string) : option Z :=
  match int_strip s with
  | String "-" rest => option_map Z.opp (int_digits rest 0 false)
  | String "+" rest => int_digits rest 0 false
  | t => int_digits t 0 false
  end.

(** [c.lower()] on the code points 0..255: the letters [A-Z] and the
    capital letters of Latin-1, [0xC0..0xDE] less the multiplication sign. *)
Definition lower_char (c : ascii) : ascii :=
  let n := N_of_ascii c in
  if ((65 <=? n) && (n <=? 90)
      || (192 <=? n) && (n <=? 222) && negb (n =? 215))%N
  then ascii_of_N (n + 32) else c.

Fixpoint lower (s : string) : string :=
  match s with
  | EmptyString => EmptyString
  | String c rest => String (lower_char c) (lower rest)
  end.

(** ** PathCodec: [get_value_from_dict] *)

(** A path segment after [k = int(k)] was tried. *)
Inductive segment : Type :=
| KInt (z : Z)
| KStr (s : string).

Definition to_segment (k : string) : segment :=
  match py_int k with
  | Some z => KInt z
  | None => KStr k
  end.

(** [l[i]] on a sequence: a negative index counts from the end. *)
Definition py_index {A : Type} (l : list A) (i : Z) : option A :=
  let n := Z.of_nat (List.length l) in
  let j := if i <? 0 then i + n else i in
  if (0 <=? j) && (j <? n) then nth_error l (Z.to_nat j) else None.

(** [v[k]]: a dictionary is looked up by key (its keys are strings, so an
    integer is never one of them), a list and a string are indexed by an
    integer, and nothing else can be subscripted. *)
Definition py_getitem (v : pyval) (k : segment) : res pyval :=
  match v, k with
  | PDict d, KStr s =>
      match dict_get s d with Some x => Ok x | None => Raise KeyError end
  | PDict d, KInt _ => Raise KeyError
  | PList l, KInt i =>
      match py_index l i with Some x => Ok x | None => Raise IndexError end
  | PList _, KStr _ => Raise TypeError
  | PStr s, KInt i =>
      match py_index (list_ascii_of_string s) i with
      | Some c => Ok (PStr (String c ""))
      | None => Raise IndexError
      end
  | PStr _, KStr _ => Raise TypeError
  | _, _ => Raise TypeError
  end.

(** The inner loop [for k in xkeys.split('.')]: the three exceptions of the
    [except] clause set [v = ''] and leave the loop. *)
Fixpoint walk (v : pyval) (ks : list string) : res pyval :=
  match ks with
  | [] => Ok v
  | k :: rest =>
      match py_getitem v (to_segment k) with
      | Ok v' => walk v' rest
      | Raise TypeError | Raise KeyError | Raise IndexError => Ok (PStr "")
      | Raise e => Raise e
      | Unmodelled => Unmodelled
      end
  end.

(** The outer loop over the candidates; falling off its end returns
    [None]. *)
Fixpoint get_candidates (dct : pyval) (cands : list string) : res pyval :=
  match cands with
  | [] => Ok PNone
  | xkeys :: rest =>
      v <- walk dct (split_on "." xkeys) ;;
      if py_truthy v then Ok v else get_candidates dct rest
  end.

Definition get_value_from_dict (dct : pyval) (xkeys_list : string) : res pyval :=
  get_candidates dct (py_split xkeys_list).

(** The value a dotted path resolves to, following the specification: each
    segment indexes a sequence or looks up a key, and a missing key or index
    or a mismatch of types resolves to nothing. *)
Fixpoint resolve_segments (v : pyval) (ks : list string) : option pyval :=
  match ks with
  | [] => Some v
  | k :: rest =>
      match py_getitem v (to_segment k) with
      | Ok v' => resolve_segments v' rest
      | _ => None
      end
  end.

Definition resolve_path (dct : pyval) (xkeys : string) : option pyval :=
  resolve_segments dct (split_on "." xkeys).

(** A candidate counts when it resolves to a value that is true. *)
Definition resolves_truthy (o : option pyval) : bool :=
  match o with
  | Some v => py_truthy v
  | None => false
  end.

(** The lookup as the specification words it: the value of the first
    candidate that counts, and [None] when there is none. *)
Definition first_truthy (dct : pyval) (cands : list string) : pyval :=
  match find resolves_truthy (map (resolve_path dct) cands) with
  | Some (Some v) => v
  | _ => PNone
  end.

Definition get_sample_doc : pyval :=
  PDict [("a", PInt 0); ("b", PBool false); ("c", PList []); ("d", PDict []);
         ("e", PDict [("f", PList [PDict [("g", PStr "found")]])])].

(** ** [json.loads(s, strict=False)] and [json.dumps(v)] *)

Definition dquote : ascii := "034"%char.
Definition backslash : ascii := "092"%char.

(** The white space of the JSON grammar. *)
Definition json_ws (c : ascii) : bool :=
  Ascii.eqb c " " || Ascii.eqb c "009" || Ascii.eqb c "010" || Ascii.eqb c "013".

Fixpoint skip_ws (s : string) : string :=
  match s with
  | String c rest => if json_ws c then skip_ws rest else s
  | EmptyString => EmptyString
  end.

(** The character a backslash escape stands for. *)
Definition unescape (c : ascii) : option ascii :=
  if Ascii.eqb c dquote then Some dquote
  else if Ascii.eqb c backslash then Some backslash
  else if Ascii.eqb c "/" then Some "/"%char
  else if Ascii.eqb c "b" then Some "008"%char
  else if Ascii.eqb c "f" then Some "012"%char
  else if Ascii.eqb c "n" then Some "010"%char
  else if Ascii.eqb c "r" then Some "013"%char
  else if Ascii.eqb c "t" then Some "009"%char
  else None.

Definition hex_val (c : ascii) : option N :=
  let n := N_of_ascii c in
  if ((48 <=? n) && (n <=? 57))%N then Some (n - 48)%N
  else if ((65 <=? n) && (n <=? 70))%N then Some (n - 55)%N
  else if ((97 <=? n) && (n <=? 102))%N then Some (n - 87)%N
  else None.

Definition hex4 (a b c d : ascii) : option N :=
  match hex_val a, hex_val b, hex_val c, hex_val d with
  | Some x, Some y, Some z, Some w => Some (((x * 16 + y) * 16 + z) * 16 + w)%N
  | _, _, _, _ => None
  end.

(** [s[n:]]. *)
Fixpoint drop (n : nat) (s : string) : string :=
  match n, s with
  | S n', String _ rest => drop n' rest
  | _, _ => s
  end.

(** The outcome of a scanner: the value read, whether it is the value
    Python reads ([exact]) or stands in for one that lies outside [pyval]
    (a float, a string with a code point above 255), and the text that
    follows; [JSONDecodeError]; or the end of the fuel. *)
Inductive scan (A : Type) : Type :=
| Scan (a : A) (exact : bool) (rest : string)
| DecodeError
| NoFuel.
Arguments Scan {A} a exact rest.
Arguments DecodeError {A}.
Arguments NoFuel {A}.

(** [scanstring] after the opening quote, with [strict=False]: control
    characters are taken literally; a backslash must start one of the
    escapes; the text ends at the first bare quote.  An escape [\uXXXX] for
    a code point above 255 is read as ['?'] and makes the string inexact. *)
Fixpoint scanstring (s : string) (acc : string) (exact : bool) : scan string :=
  match s with
  | EmptyString => DecodeError
  | String c rest =>
      if Ascii.eqb c dquote then Scan acc exact rest
      else if Ascii.eqb c backslash then
        match rest with
        | EmptyString => DecodeError
        | String e rest' =>
            if Ascii.eqb e "u" then
              match rest' with
              | String h1 (String h2 (String h3 (String h4 rest''))) =>
                  match hex4 h1 h2 h3 h4 with
                  | Some n =>
                      if (n <? 256)%N
                      then scanstring rest'' (snoc acc (ascii_of_N n)) exact
                      else scanstring rest'' (snoc acc "?") false
                  | None => DecodeError
                  end
              | _ => DecodeError
              end
            else
              match unescape e with
              | Some ch => scanstring rest' (snoc acc ch) exact
              | None => DecodeError
              end
        end
      else scanstring rest (snoc acc c) exact
  end.

(** The digits at the head of [s], as a number, and what follows them. *)
Fixpoint scan_digits (s : string) (acc : Z) : Z * string :=
  match s with
  | String c rest =>
      if is_digit c then scan_digits rest (10 * acc + digit_val c) else (acc, s)
  | EmptyString => (acc, s)
  end.

Fixpoint skip_digits (s : string) : string :=
  match s with
  | String c rest => if is_digit c then skip_digits rest else s
  | EmptyString => s
  end.

Definition starts_with_digit (s : string) : bool :=
  match s with
  | String c _ => is_digit c
  | EmptyString => false
  end.

(** After the integer part: a fraction, a dot and digits, and then an
    exponent, [e] or [E] with an optional sign and digits; either makes the
    literal a float.  The result is what follows the literal. *)
Definition skip_fraction (s : string) : string :=
  match s with
  | String c rest =>
      if Ascii.eqb c "." && starts_with_digit rest then skip_digits rest else s
  | EmptyString => s
  end.

Definition skip_exponent (s : string) : string :=
  match s with
  | String c rest =>
      if Ascii.eqb c "e" || Ascii.eqb c "E" then
        match rest with
        | String sg rest' =>
            if (Ascii.eqb sg "+" || Ascii.eqb sg "-") && starts_with_digit rest'
            then skip_digits rest'
            else if is_digit sg then skip_digits rest
            else s
        | EmptyString => s
        end
      else s
  | EmptyString => s
  end.

(** A number: an optional minus sign, then [0] or a digit [1-9] and any
    digits; an integer unless a fraction or an exponent follows. *)
Definition scan_unsigned (neg : bool) (body : string) : scan pyval :=
  match body with
  | String c rest =>
      if is_digit c then
        let (n, after) :=
          if Ascii.eqb c "0" then (0, rest) else scan_digits body 0 in
        let after' := skip_exponent (skip_fraction after) in
        if String.eqb after' after
        then Scan (PInt (if neg then - n else n)) true after
        else Scan PNone false after'
      else DecodeError
  | EmptyString => DecodeError
  end.

Definition scan_number (s : string) : scan pyval :=
  match s with
  | String c rest =>
      if Ascii.eqb c "-" then scan_unsigned true rest else scan_unsigned false s
  | EmptyString => DecodeError
  end.

(** [scan_once]: one JSON value at the head of [s].  [members] reads the
    pairs of an object from just after the opening quote of a key, [elements]
    the items of an array; a key that comes again overwrites the value
    stored under it.  [NaN], [Infinity] and [-Infinity] are floats.  The
    fuel bounds the number of nested calls. *)
Fixpoint scan_once (fuel : nat) (s : string) {struct fuel} : scan pyval :=
  match fuel with
  | O => NoFuel
  | S fuel' =>
      match s with
      | EmptyString => DecodeError
      | String c rest =>
          if Ascii.eqb c dquote then
            match scanstring rest "" true with
            | Scan str exact rest' => Scan (PStr str) exact rest'
            | DecodeError => DecodeError
            | NoFuel => NoFuel
            end
          else if Ascii.eqb c "{" then
            match skip_ws rest with
            | String c1 rest1 =>
                if Ascii.eqb c1 "}" then Scan (PDict []) true rest1
                else if Ascii.eqb c1 dquote then members fuel' rest1 [] true
                else DecodeError
            | EmptyString => DecodeError
            end
          else if Ascii.eqb c "[" then
            match skip_ws rest with
            | String c1 rest1 =>
                if Ascii.eqb c1 "]" then Scan (PList []) true rest1
                else elements fuel' (String c1 rest1) [] true
            | EmptyString => DecodeError
            end
          else if String.prefix "null" s then Scan PNone true (drop 4 s)
          else if String.prefix "true" s then Scan (PBool true) true (drop 4 s)
          else if String.prefix "false" s then Scan (PBool false) true (drop 5 s)
          else if String.prefix "NaN" s then Scan PNone false (drop 3 s)
          else if String.prefix "Infinity" s then Scan PNone false (drop 8 s)
          else if String.prefix "-Infinity" s then Scan PNone false (drop 9 s)
          else scan_number s
      end
  end
with members (fuel : nat) (s : string) (pairs : dict) (exact : bool)
  {struct fuel} : scan pyval :=
  match fuel with
  | O => NoFuel
  | S fuel' =>
      match scanstring s "" exact with
      | Scan key exact1 s1 =>
          match skip_ws s1 with
          | String c2 s2 =>
              if Ascii.eqb c2 ":" then
                match scan_once fuel' (skip_ws s2) with
                | Scan value exact2 s3 =>
                    let pairs' := dict_set key value pairs in
                    let exact' := exact1 && exact2 in
                    match skip_ws s3 with
                    | String c4 s4 =>
                        if Ascii.eqb c4 "}" then Scan (PDict pairs') exact' s4
                        else if Ascii.eqb c4 "," then
                          match skip_ws s4 with
                          | String c5 s5 =>
                              if Ascii.eqb c5 dquote
                              then members fuel' s5 pairs' exact'
                              else DecodeError
                          | EmptyString => DecodeError
                          end
                        else DecodeError
                    | EmptyString => DecodeError
                    end
                | DecodeError => DecodeError
                | NoFuel => NoFuel
                end
              else DecodeError
          | EmptyString => DecodeError
          end
      | DecodeError => DecodeError
      | NoFuel => NoFuel
      end
  end
with elements (fuel : nat) (s : string) (items : list pyval) (exact : bool)
  {struct fuel} : scan pyval :=
  match fuel with
  | O => NoFuel
  | S fuel' =>
      match scan_once fuel' s with
      | Scan value exact1 s1 =>
          let items' := items ++ [value] in
          let exact' := exact && exact1 in
          match skip_ws s1 with
          | String c2 s2 =>
              if Ascii.eqb c2 "]" then Scan (PList items') exact' s2
              else if Ascii.eqb c2 ","
                   then elements fuel' (skip_ws s2) items' exact'
              else DecodeError
          | EmptyString => DecodeError
          end
      | DecodeError => DecodeError
      | NoFuel => NoFuel
      end
  end.

(** [json.loads(s, strict=False)]: one value between optional white space,
    and nothing after it, or [JSONDecodeError].  A value that is not exact
    is [Unmodelled]; the fuel given here is never used up
    ([json_loads_fuel]).  This is the grammar alone: the decoder of Python
    also raises [RecursionError] for a text nested deeper than the
    recursion limit of the interpreter leaves room for, and in the later
    versions [ValueError] for an integer literal of more than 4300 digits;
    neither limit is described here. *)
Definition json_loads (s : string) : res pyval :=
  match scan_once (2 * String.length s + 2) (skip_ws s) with
  | Scan v exact rest =>
      match skip_ws rest with
      | EmptyString => if exact then Ok v else Unmodelled
      | _ => Raise JSONDecodeError
      end
  | DecodeError => Raise JSONDecodeError
  | NoFuel => Unmodelled
  end.

(** Decimal text of an integer: [str(n)] and the JSON form of [n]. *)
Definition dec (z : Z) : string := NilZero.string_of_int (Z.to_int z).

Definition hex_digit (n : N) : ascii :=
  if (n <? 10)%N then ascii_of_N (48 + n) else ascii_of_N (87 + n).

Definition hex2 (c : ascii) : string :=
  let n := N_of_ascii c in
  String (hex_digit (n / 16)) (String (hex_digit (n mod 16)) "").

(** [json.dumps] of a string, with [ensure_ascii]: the quote and the
    backslash are escaped, the usual control characters have their short
    escapes, and whatever else lies outside [' '..'~'] is written [\u00xx]. *)
Definition json_escape_char (c : ascii) : string :=
  if Ascii.eqb c dquote then String backslash (String dquote "")
  else if Ascii.eqb c backslash then String backslash (String backslash "")
  else if Ascii.eqb c "010" then String backslash "n"
  else if Ascii.eqb c "013" then String backslash "r"
  else if Ascii.eqb c "009" then String backslash "t"
  else if Ascii.eqb c "008" then String backslash "b"
  else if Ascii.eqb c "012" then String backslash "f"
  else if ((32 <=? N_of_ascii c) && (N_of_ascii c <=? 126))%N then String c ""
  else (String backslash "u00" ++ hex2 c)%string.

Fixpoint json_escape (s : string) : string :=
  match s with
  | EmptyString => EmptyString
  | String c rest => (json_escape_char c ++ json_escape rest)%string
  end.

Definition json_quote (s : string) : string :=
  (String dquote (json_escape s) ++ String dquote "")%string.

(** [json.dumps(v)] with the default separators. *)
Fixpoint json_dumps (v : pyval) : string :=
  match v with
  | PNone => "null"
  | PBool true => "true"
  | PBool false => "false"
  | PInt z => dec z
  | PStr s => json_quote s
  | PList l => ("[" ++ String.concat ", " (map json_dumps l) ++ "]")%string
  | PDict d =>
      ("{" ++ String.concat ", "
                (map (fun kv => json_quote (fst kv) ++ ": " ++ json_dumps (snd kv)) d)
           ++ "}")%string
  end.

(** [repr] of a string: single quotes unless the text holds a single and no
    double quote; the quote in use and the backslash are escaped, TAB, LF
    and CR have their short escapes, and the other code points that are not
    printable (below 32, 127..160 and 173) are written [\xhh]. *)
Definition repr_char (q : ascii) (c : ascii) : string :=
  let n := N_of_ascii c in
  if Ascii.eqb c q || Ascii.eqb c backslash then String backslash (String c "")
  else if Ascii.eqb c "009" then String backslash "t"
  else if Ascii.eqb c "010" then String backslash "n"
  else if Ascii.eqb c "013" then String backslash "r"
  else if ((n <? 32) || ((127 <=? n) && (n <=? 160)) || (n =? 173))%N
       then (String backslash "x" ++ hex2 c)%string
  else String c "".

Fixpoint repr_chars (q : ascii) (s : string) : string :=
  match s with
  | EmptyString => EmptyString
  | String c rest => (repr_char q c ++ repr_chars q rest)%string
  end.

Definition repr_str (s : string) : string :=
  let q := if str_contains "'" s && negb (str_contains (String dquote "") s)
           then dquote else "'"%char in
  (String q (repr_chars q s) ++ String q "")%string.

Fixpoint py_repr (v : pyval) : string :=
  match v with
  | PNone => "None"
  | PBool true => "True"
  | PBool false => "False"
  | PInt z => dec z
  | PStr s => repr_str s
  | PList l => ("[" ++ String.concat ", " (map py_repr l) ++ "]")%string
  | PDict d =>
      ("{" ++ String.concat ", "
                (map (fun kv => repr_str (fst kv) ++ ": " ++ py_repr (snd kv)) d)
           ++ "}")%string
  end.

(** [str(v)], which is also what [format] puts in place of a bare field. *)
Definition py_str (v : pyval) : string :=
  match v with
  | PStr s => s
  | _ => py_repr v
  end.

(** ** PathCodec: [put_value_into_dict] *)

(** The two templates, [{{"{0}": {1} }}] and [{{"{0}": "{1}" }}], filled
    in. *)
Definition fmt_raw (k body : string) : string :=
  ("{" ++ String dquote k ++ String dquote ": " ++ body ++ " }")%string.

Definition fmt_quoted (k text : string) : string :=
  ("{" ++ String dquote k ++ String dquote ": " ++ String dquote text
       ++ String dquote " }")%string.

(** The text handed to [json.loads]: the last segment with the value (a
    dictionary as JSON, anything else as its [str] between quotes), wrapped
    in the other segments from the innermost outwards. *)
Definition put_json_data (key_str : string) (v : pyval) : string :=
  let xkeys := split_on "." key_str in
  let json_data :=
    match v with
    | PDict _ => fmt_raw (last xkeys "") (json_dumps v)
    | _ => fmt_quoted (last xkeys "") (py_str v)
    end in
  if (2 <=? List.length xkeys)%nat
  then fold_left (fun data xkey => fmt_raw xkey data) (rev (removelast xkeys)) json_data
  else json_data.

(** [put_value_into_dict]: when the text does not decode, the function calls
    itself with the value ['DROPPED']; when that text does not decode either
    the call repeats itself unchanged, which ends in [RecursionError]. *)
Definition put_value_into_dict (key_str : string) (v : pyval) : res pyval :=
  match json_loads (put_json_data key_str v) with
  | Raise JSONDecodeError =>
      match json_loads (put_json_data key_str (PStr "DROPPED")) with
      | Raise JSONDecodeError => Raise RecursionError
      | r => r
      end
  | r => r
  end.

(** [put_value_into_dict] followed by [get_value_from_dict] at the same
    path. *)
Definition put_then_get (key_str : string) (v : pyval) : res pyval :=
  d <- put_value_into_dict key_str v ;; get_value_from_dict d key_str.

(** The value goes through [json.loads] without the fallback to
    ['DROPPED']. *)
Definition fallback_free (key_str : string) (v : pyval) : bool :=
  match json_loads (put_json_data key_str v) with
  | Raise JSONDecodeError => false
  | _ => true
  end.

(** A text without a double quote and without a backslash: between two
    quotes it is a JSON string that stands for itself. *)
Fixpoint plain_text (s : string) : bool :=
  match s with
  | EmptyString => true
  | String c rest =>
      negb (Ascii.eqb c dquote) && negb (Ascii.eqb c backslash) && plain_text rest
  end.

(** A dotted path that [get_value_from_dict] reads as one candidate, with
    segments that are plain and are not integer literals. *)
Definition plain_path (key_str : string) : bool :=
  match py_split key_str with
  | [k] => String.eqb k key_str
  | _ => false
  end
  && forallb (fun k => plain_text k && match py_int k with None => true | Some _ => false end)
             (split_on "." key_str).

(** The nested text and the nested dictionary for a list of segments. *)
Fixpoint nest_text (ks : list string) (inner : string) : string :=
  match ks with
  | [] => inner
  | k :: rest => fmt_raw k (nest_text rest inner)
  end.

Fixpoint nest_val (ks : list string) (inner : pyval) : pyval :=
  match ks with
  | [] => inner
  | k :: rest => PDict [(k, nest_val rest inner)]
  end.

(** A scanner makes progress: it does not run out of fuel, and what it
    leaves is shorter than what it was given. *)
Definition progress {A : Type} (s : string) (r : scan A) : Prop :=
  match r with
  | Scan _ _ rest => (String.length rest < String.length s)%nat
  | DecodeError => True
  | NoFuel => False
  end.

(** ** Schema mapping: [LogParser.transform_to_ecs] *)

(** [needle in v] for a string [needle]: key of a dictionary, substring of a
    string, element of a list; nothing else is a container. *)
Definition py_in (needle : string) (v : pyval) : res bool :=
  match v with
  | PDict d => Ok (dict_mem needle d)
  | PStr s => Ok (str_contains needle s)
  | PList l => Ok (existsb (py_eq (PStr needle)) l)
  | _ => Raise TypeError
  end.

(** [v[k] = x] for a string [k]: only a dictionary takes it. *)
Definition py_setitem (v : pyval) (k : string) (x : pyval) : res pyval :=
  match v with
  | PDict d => Ok (PDict (dict_set k x d))
  | _ => Raise TypeError
  end.

(** [s.endswith(suffix)]. *)
Fixpoint ends_with (suffix s : string) : bool :=
  String.eqb s suffix
  || match s with
     | String _ rest => ends_with suffix rest
     | EmptyString => false
     end.

(** The per-logtype section of the configuration: [logconfig[k]] is a
    string, and a key that is not there raises [KeyError]. *)
Definition config : Type := string -> option string.

Definition config_item (logconfig : config) (k : string) : res string :=
  match logconfig k with
  | Some v => Ok v
  | None => Raise KeyError
  end.

Section SchemaMapping.

(** [ipaddress.ip_address(v)] returns ([true]) or raises [ValueError]
    ([false]); the address grammar belongs to the Python library. *)
Variable ip_address : pyval -> bool.

Variable logconfig : config.
Variable accountid region : pyval.
Variable logdata_dict : dict.

(** One round of the loop over [ecs_keys].  [continue] leaves [ecs_dict]
    as it is.  The fragment is built before the address is checked, so
    an exception of [put_value_into_dict] ends the entry either way; a
    fragment that was built but lies outside [pyval] is dropped by
    [continue] like any other. *)
Definition ecs_step (ecs_dict : dict) (ecs_key : string) : res dict :=
  original_keys <- config_item logconfig ecs_key ;;
  v <- get_value_from_dict (PDict logdata_dict) original_keys ;;
  if py_truthy v then
    match put_value_into_dict ecs_key v with
    | Raise e => Raise e
    | new_ecs_dict =>
        if str_contains ".ip" ecs_key && negb (ip_address v)
        then Ok ecs_dict
        else match new_ecs_dict with
             | Ok (PDict nd) => Ok (merge ecs_dict nd)
             | _ => Unmodelled
             end
    end
  else Ok ecs_dict.

Fixpoint ecs_mapping (ecs_dict : dict) (ecs_keys : list string) : res dict :=
  match ecs_keys with
  | [] => Ok ecs_dict
  | ecs_key :: rest =>
      ecs_dict' <- ecs_step ecs_dict ecs_key ;;
      ecs_mapping ecs_dict' rest
  end.

(** The defaults of [cloud.account.id] and [cloud.region]. *)
Definition cloud_defaults (ecs_dict : dict) : res dict :=
  match dict_get "cloud" ecs_dict with
  | None => Ok ecs_dict
  | Some cloud =>
      has_account <- py_in "account" cloud ;;
      has_id <- (if has_account
                 then account <- py_getitem cloud (KStr "account") ;;
                      py_in "id" account
                 else Ok false) ;;
      cloud1 <- (if has_account && has_id then Ok cloud
                 else if py_truthy accountid
                      then py_setitem cloud "account" (PDict [("id", accountid)])
                      else Ok cloud) ;;
      has_region <- py_in "region" cloud1 ;;
      cloud2 <- (if has_region then Ok cloud1
                 else if py_truthy region
                      then py_setitem cloud1 "region" region
                      else py_setitem cloud1 "region" (PStr "unknown")) ;;
      Ok (dict_set "cloud" cloud2 ecs_dict)
  end.

Fixpoint static_mapping (ecs_dict : dict) (static_ecs_keys : list string)
  : res dict :=
  match static_ecs_keys with
  | [] => Ok ecs_dict
  | static_ecs_key :: rest =>
      value <- config_item logconfig static_ecs_key ;;
      new_ecs_dict <- put_value_into_dict static_ecs_key (PStr value) ;;
      match new_ecs_dict with
      | PDict nd => static_mapping (merge ecs_dict nd) rest
      | _ => Unmodelled
      end
  end.

(** [transform_to_ecs]: the new [self.__logdata_dict]. *)
Definition transform_to_ecs : res dict :=
  ecs_version <- config_item logconfig "ecs_version" ;;
  cloud_provider <- config_item logconfig "cloud_provider" ;;
  let ecs_dict0 := [("ecs", PDict [("version", PStr ecs_version)])] in
  let ecs_dict1 :=
    if py_truthy (PStr cloud_provider)
    then dict_set "cloud" (PDict [("provider", PStr cloud_provider)]) ecs_dict0
    else ecs_dict0 in
  ecs <- config_item logconfig "ecs" ;;
  ecs_dict2 <- ecs_mapping ecs_dict1 (py_split ecs) ;;
  ecs_dict3 <- cloud_defaults ecs_dict2 ;;
  ecs_dict4 <- match logconfig "static_ecs" with
               | Some static_ecs_keys =>
                   if py_truthy (PStr static_ecs_keys)
                   then static_mapping ecs_dict3 (py_split static_ecs_keys)
                   else Ok ecs_dict3
               | None => Ok ecs_dict3
               end ;;
  Ok (merge logdata_dict ecs_dict4).

End SchemaMapping.

(** A sample configuration and entry: [source.ip] is mapped from [src]. *)
Definition ecs_sample_config : config :=
  fun k =>
    if String.eqb k "ecs_version" then Some "1.5.0"
    else if String.eqb k "cloud_provider" then Some "aws"
    else if String.eqb k "ecs" then Some "source.ip user.name"
    else if String.eqb k "source.ip" then Some "src"
    else if String.eqb k "user.name" then Some "user"
    else None.

Definition ecs_sample_entry : dict :=
  [("src", PStr "not-an-ip"); ("user", PStr "alice")].

(** A destination path that ends in [.ip] and has a double quote in its
    first segment, and a configuration that maps it from [src]. *)
Definition ecs_quoted_key : string := ("source" ++ String dquote ".ip")%string.

Definition ecs_quoted_config : config :=
  fun k =>
    if String.eqb k "ecs_version" then Some "1.5.0"
    else if String.eqb k "cloud_provider" then Some "aws"
    else if String.eqb k "ecs" then Some ecs_quoted_key
    else if String.eqb k ecs_quoted_key then Some "src"
    else None.

(** Four decimal octets: a stand-in for the address check in the sample. *)
Definition dotted_quad (v : pyval) : bool :=
  match v with
  | PStr s =>
      match split_on "." s with
      | [a; b; c; d] =>
          forallb (fun o => match int_digits o 0 false with
                            | Some n => (n <=? 255) && (String.length o <=? 3)%nat
                            | None => false
                            end) [a; b; c; d]
      | _ => false
      end
  | _ => false
  end.

(** ** SourceAdapter: [get_mime] and [LogS3.rawdata] *)

Definition bytes : Type := list Byte.byte.

Fixpoint bytes_startswith (prefix data : bytes) : bool :=
  match prefix, data with
  | [], _ => true
  | p :: prefix', d :: data' => Byte.eqb p d && bytes_startswith prefix' data'
  | _ :: _, [] => false
  end.

(** [textchars]: the set [{7, 8, 9, 10, 12, 13, 27}] joined with
    [0x20..0xff] less [0x7f] (the difference binds tighter than the
    union). *)
Definition is_textchar (b : Byte.byte) : bool :=
  let n := Byte.to_N b in
  ((n =? 7) || (n =? 8) || (n =? 9) || (n =? 10) || (n =? 12) || (n =? 13)
   || (n =? 27) || ((32 <=? n) && (n <? 256) && negb (n =? 127)))%N.

(** [data.translate(None, textchars)]: [data] without its text bytes. *)
Definition delete_textchars (data : bytes) : bytes :=
  filter (fun b => negb (is_textchar b)) data.

Definition get_mime (data : bytes) : string :=
  if bytes_startswith [Byte.x1f; Byte.x8b] data then "gzip"
  else if bytes_startswith [Byte.x50; Byte.x4b] data then "zip"
  else if bytes_startswith [Byte.x42; Byte.x5a] data then "bzip2"
  else match delete_textchars data with
       | _ :: _ => "binary"
       | [] => "text"
       end.

(** The text stream that [rawdata] returns: the object's bytes behind a
    decompressor and the UTF-8 decoder with [errors='ignore'], which reads
    lazily and drops what it cannot decode. *)
Inductive body : Type :=
| GzipText (raw : bytes)
| PlainText (raw : bytes)
| Bzip2Text (raw : bytes)
| LocalFile (name : string).

Section RawData.

(** The zip branch, [zipfile.ZipFile(rawbody)], [z.namelist()[0]] and
    [open] of the local file of that name: the name of the file that is
    opened, or what one of the three raises. *)
Variable zip_first_name : bytes -> res string.

(** [LogS3.rawdata] for the bytes of the object: the first 16 bytes
    decide. *)
Definition rawdata (object_bytes : bytes) : res body :=
  let mime := get_mime (firstn 16 object_bytes) in
  if String.eqb mime "gzip" then Ok (GzipText object_bytes)
  else if String.eqb mime "text" then Ok (PlainText object_bytes)
  else if String.eqb mime "zip" then
    name <- zip_first_name object_bytes ;; Ok (LocalFile name)
  else if String.eqb mime "bzip2" then Ok (Bzip2Text object_bytes)
  else Raise (Exception "unknown file format").

End RawData.

(** No magic number of gzip, zip or bzip2 at the head. *)
Definition no_magic (data : bytes) : bool :=
  negb (bytes_startswith [Byte.x1f; Byte.x8b] data)
  && negb (bytes_startswith [Byte.x50; Byte.x4b] data)
  && negb (bytes_startswith [Byte.x42; Byte.x5a] data).

(** A sample object: the line [{"a": 1}] and a line feed. *)
Definition rawdata_sample : bytes :=
  [Byte.x7b; Byte.x22; Byte.x61; Byte.x22; Byte.x3a; Byte.x20; Byte.x31;
   Byte.x7d; Byte.x0a].

(** ** Dates and times: the part of [datetime] that the parser uses *)

Definition is_leap (y : Z) : bool :=
  (y mod 4 =? 0) && (negb (y mod 100 =? 0) || (y mod 400 =? 0)).

Definition days_before_year (y : Z) : Z :=
  let p := y - 1 in p * 365 + p / 4 - p / 100 + p / 400.

Definition days_in_month (y m : Z) : Z :=
  if (m =? 2) && is_leap y then 29
  else nth (Z.to_nat m) [-1; 31; 28; 31; 30; 31; 30; 31; 31; 30; 31; 30; 31] 0.

Definition days_before_month (y m : Z) : Z :=
  nth (Z.to_nat m) [-1; 0; 31; 59; 90; 120; 151; 181; 212; 243; 273; 304; 334] 0
  + (if (2 <? m) && is_leap y then 1 else 0).

(** The ordinal of a date: 1 for 0001-01-01. *)
Definition ymd2ord (y m d : Z) : Z :=
  days_before_year y + days_before_month y m + d.

Definition MAXORDINAL : Z := 3652059.

(** The date of an ordinal, by the cycles of 400, 100, 4 and 1 years. *)
Definition ord2ymd (ordinal : Z) : Z * Z * Z :=
  let n := ordinal - 1 in
  let n400 := n / 146097 in
  let n := n mod 146097 in
  let n100 := n / 36524 in
  let n := n mod 36524 in
  let n4 := n / 1461 in
  let n := n mod 1461 in
  let n1 := n / 365 in
  let n := n mod 365 in
  let y := n400 * 400 + 1 + n100 * 100 + n4 * 4 + n1 in
  if (n1 =? 4) || (n100 =? 4) then (y - 1, 12, 31)
  else
    let leapyear := (n1 =? 3) && (negb (n4 =? 24) || (n100 =? 3)) in
    let month := Z.shiftr (n + 50) 5 in
    let preceding :=
      nth (Z.to_nat month)
          [-1; 0; 31; 59; 90; 120; 151; 181; 212; 243; 273; 304; 334] 0
      + (if (2 <? month) && leapyear then 1 else 0) in
    if n <? preceding
    then
      let month := month - 1 in
      let preceding :=
        preceding
        - (nth (Z.to_nat month) [-1; 31; 28; 31; 30; 31; 30; 31; 31; 30; 31; 30; 31] 0
           + (if (month =? 2) && leapyear then 1 else 0)) in
      (y, month, n - preceding + 1)
    else (y, month, n - preceding + 1).

(** A [datetime]; [tzinfo] is the offset of its fixed [timezone] in
    microseconds, and [None] for a naive value. *)
Record datetime : Type := mk_datetime {
  year : Z; month : Z; day : Z;
  hour : Z; minute : Z; second : Z; microsecond : Z;
  tzinfo : option Z
}.

Definition valid_fields (y m d hh mm ss us : Z) : bool :=
  (1 <=? y) && (y <=? 9999) && (1 <=? m) && (m <=? 12)
  && (1 <=? d) && (d <=? days_in_month y m)
  && (0 <=? hh) && (hh <=? 23) && (0 <=? mm) && (mm <=? 59)
  && (0 <=? ss) && (ss <=? 59) && (0 <=? us) && (us <=? 999999).

Definition valid_datetime (dt : datetime) : bool :=
  valid_fields (year dt) (month dt) (day dt) (hour dt) (minute dt) (second dt)
    (microsecond dt).

(** The constructor [datetime(year, month, ..., tzinfo)]: [ValueError] for a
    field out of range. *)
Definition datetime_new (y m d hh mm ss us : Z) (tz : option Z) : res datetime :=
  if valid_fields y m d hh mm ss us
  then Ok (mk_datetime y m d hh mm ss us tz)
  else Raise ValueError.

(** [dt.replace(year=y)]. *)
Definition replace_year (dt : datetime) (y : Z) : res datetime :=
  datetime_new y (month dt) (day dt) (hour dt) (minute dt) (second dt)
    (microsecond dt) (tzinfo dt).

Definition replace_tzinfo (dt : datetime) (tz : option Z) : datetime :=
  mk_datetime (year dt) (month dt) (day dt) (hour dt) (minute dt) (second dt)
    (microsecond dt) tz.

Definition US_PER_SECOND : Z := 1000000.
Definition US_PER_DAY : Z := 86400 * 1000000.
Definition hours (h : Z) : Z := h * 3600 * 1000000.

(** Microseconds of the wall-clock fields since the start of ordinal 0. *)
Definition local_us (dt : datetime) : Z :=
  (((ymd2ord (year dt) (month dt) (day dt) * 24 + hour dt) * 60 + minute dt) * 60
   + second dt) * US_PER_SECOND + microsecond dt.

(** The fields for a count of microseconds; [OverflowError] outside the
    years 1..9999. *)
Definition of_local_us (t : Z) (tz : option Z) : res datetime :=
  let days := t / US_PER_DAY in
  let rest := t mod US_PER_DAY in
  if (0 <? days) && (days <=? MAXORDINAL) then
    match ord2ymd days with
    | (y, m, d) =>
        let secs := rest / US_PER_SECOND in
        Ok (mk_datetime y m d (secs / 3600) (secs mod 3600 / 60) (secs mod 60)
              (rest mod US_PER_SECOND) tz)
    end
  else Raise OverflowError.

(** [dt + timedelta(microseconds=delta)]. *)
Definition add_us (dt : datetime) (delta : Z) : res datetime :=
  of_local_us (local_us dt + delta) (tzinfo dt).

(** [timezone(timedelta(microseconds=offset))]: the offset lies strictly
    between minus and plus 24 hours. *)
Definition timezone (offset : Z) : res Z :=
  if (- hours 24 <? offset) && (offset <? hours 24) then Ok offset
  else Raise ValueError.

(** The instant of an aware value: microseconds of UTC. *)
Definition instant (dt : datetime) : Z :=
  local_us dt - match tzinfo dt with Some off => off | None => 0 end.

(** [a > b]: two aware values compare by their instants, two naive ones by
    their fields, and one of each cannot be ordered. *)
Definition datetime_gt (a b : datetime) : res bool :=
  match tzinfo a, tzinfo b with
  | Some _, Some _ | None, None => Ok (instant b <? instant a)
  | _, _ => Raise TypeError
  end.

(** [dt.astimezone(tz)] for an aware value: to UTC and from there to the
    zone, each step within the years 1..9999.  A naive value would be read in
    the system's local zone. *)
Definition astimezone (dt : datetime) (tz : Z) : res datetime :=
  match tzinfo dt with
  | Some off =>
      utc <- add_us dt (- off) ;;
      add_us (replace_tzinfo utc (Some tz)) tz
  | None => Unmodelled
  end.

(** [weekday()]: Monday is 0. *)
Definition weekday (dt : datetime) : Z :=
  (ymd2ord (year dt) (month dt) (day dt) + 6) mod 7.

(** Day of the year, 1 for January 1st. *)
Definition yday (dt : datetime) : Z :=
  days_before_month (year dt) (month dt) + day dt.

(** [%W]: the week of the year with Monday as the first day of the week;
    the days before the first Monday are in week 0. *)
Definition week_monday_first (dt : datetime) : Z :=
  (yday dt - 1 - weekday dt + 7) / 7.

(** The ISO 8601 week of the year, as [isocalendar()] has it: week 1 is the
    week, Monday to Sunday, that holds the year's first Thursday. *)
Definition isoweek1monday (y : Z) : Z :=
  let firstday := ymd2ord y 1 1 in
  let firstweekday := (firstday + 6) mod 7 in
  let week1monday := firstday - firstweekday in
  if 3 <? firstweekday then week1monday + 7 else week1monday.

Definition iso_week (dt : datetime) : Z :=
  let today := ymd2ord (year dt) (month dt) (day dt) in
  let week := (today - isoweek1monday (year dt)) / 7 in
  if week <? 0 then (today - isoweek1monday (year dt - 1)) / 7 + 1
  else if (52 <=? week) && (isoweek1monday (year dt + 1) <=? today) then 1
  else week + 1.

(** The decimal fields of [strftime], which hands the format to the C
    library of the platform (glibc, on which the function runs): the month,
    the day and the week are padded with zeros to two digits, and the year
    of [%Y] is written with its digits as they are, without padding, so
    [1] for the year 1 and four digits from the year 1000 on. *)
Definition pad_left (width : nat) (s : string) : string :=
  (string_of_list_ascii (repeat "0"%char (width - String.length s)) ++ s)%string.

Definition strftime_Y (dt : datetime) : string := dec (year dt).
Definition strftime_m (dt : datetime) : string := pad_left 2 (dec (month dt)).
Definition strftime_d (dt : datetime) : string := pad_left 2 (dec (day dt)).
Definition strftime_W (dt : datetime) : string :=
  pad_left 2 (dec (week_monday_first dt)).

(** ** TimestampResolver: [LogParser.get_timestamp] *)

Definition is_upper (c : ascii) : bool :=
  let n := N_of_ascii c in ((65 <=? n) && (n <=? 90))%N.

Definition is_lower (c : ascii) : bool :=
  let n := N_of_ascii c in ((97 <=? n) && (n <=? 122))%N.

(** The groups 1, 2, 3, 4, 5 and 7 of [RE_SYSLOG_FORMAT]. *)
Record syslog_groups : Type := mk_groups {
  g_month : string; g_day : string;
  g_hour : string; g_minute : string; g_second : string;
  g_fraction : option string
}.

(** [\s+]: at least one white space, then all that follow. *)
Definition re_spaces (s : string) : option string :=
  match s with
  | String c rest => if py_isspace c then Some (py_lstrip rest) else None
  | EmptyString => None
  end.

(** [\d{2}]. *)
Definition re_digits2 (s : string) : option (string * string) :=
  match s with
  | String a (String b rest) =>
      if is_digit a && is_digit b then Some (String a (String b ""), rest) else None
  | _ => None
  end.

(** [\d{1,n}], greedy: the digits at the head, [n] of them at most. *)
Fixpoint re_digits_upto (n : nat) (s : string) : string * string :=
  match n, s with
  | S n', String c rest =>
      if is_digit c
      then let (ds, rest') := re_digits_upto n' rest in (String c ds, rest')
      else (EmptyString, s)
  | _, _ => (EmptyString, s)
  end.

Definition re_char (c : ascii) (s : string) : option string :=
  match s with
  | String c' rest => if Ascii.eqb c c' then Some rest else None
  | EmptyString => None
  end.

(** [RE_SYSLOG_FORMAT.match(timestr)]: three letters, white space, one or
    two digits, white space, [hh:mm:ss], and a fraction of one to six digits
    when there is one; whatever follows is not looked at.  Two digits of
    the day that are not followed by white space leave no other way to
    match. *)
Definition syslog_match (timestr : string) : option syslog_groups :=
  match timestr with
  | String a (String b (String c s1)) =>
      if is_upper a && is_lower b && is_lower c then
        match re_spaces s1 with
        | Some s2 =>
            match re_digits_upto 2 s2 with
            | (EmptyString, _) => None
            | (dd, s3) =>
                match re_spaces s3 with
                | Some s4 =>
                    match re_digits2 s4 with
                    | Some (hh, s5) =>
                        match re_char ":" s5 with
                        | Some s6 =>
                            match re_digits2 s6 with
                            | Some (mm, s7) =>
                                match re_char ":" s7 with
                                | Some s8 =>
                                    match re_digits2 s8 with
                                    | Some (ss, s9) =>
                                        Some (mk_groups
                                                (String a (String b (String c "")))
                                                dd hh mm ss
                                                match re_char "." s9 with
                                                | Some s10 =>
                                                    match re_digits_upto 6 s10 with
                                                    | (EmptyString, _) => None
                                                    | (frac, _) => Some frac
                                                    end
                                                | None => None
                                                end)
                                    | None => None
                                    end
                                | None => None
                                end
                            | None => None
                            end
                        | None => None
                        end
                    | None => None
                    end
                | None => None
                end
            end
        | None => None
        end
      else None
  | _ => None
  end.

Definition MONTH_TO_INT (name : string) : option Z :=
  (fun o => match o with Some (PInt n) => Some n | _ => None end)
    (dict_get name
    [("Jan", PInt 1); ("Feb", PInt 2); ("Mar", PInt 3); ("Apr", PInt 4);
     ("May", PInt 5); ("Jun", PInt 6); ("Jul", PInt 7); ("Aug", PInt 8);
     ("Sep", PInt 9); ("Oct", PInt 10); ("Nov", PInt 11); ("Dec", PInt 12)]).

(** The fields that the constructor is called with. *)
Record syslog_fields : Type := mk_fields {
  f_month : Z; f_day : Z; f_hour : Z; f_minute : Z; f_second : Z;
  f_microsecond : Z
}.

(** The digits of a group as a number: [int] of a text of digits. *)
Definition int_of_digits (s : string) : Z := fst (scan_digits s 0).

(** [s.ljust(6, '0')]. *)
Definition ljust6 (s : string) : string :=
  (s ++ string_of_list_ascii (repeat "0"%char (6 - String.length s)))%string.

(** What the body of the [syslog] branch reads from the text: without a
    match the first use of [m.group] outside the guarded one raises
    [AttributeError], and a month name that is not in the table raises
    [KeyError]. *)
Definition syslog_parse (timestr : string) : res syslog_fields :=
  match syslog_match timestr with
  | None => Raise AttributeError
  | Some g =>
      let microsec :=
        match g_fraction g with
        | Some frac => int_of_digits (ljust6 frac)
        | None => 0
        end in
      match MONTH_TO_INT (g_month g) with
      | None => Raise KeyError
      | Some m =>
          Ok (mk_fields m (int_of_digits (g_day g)) (int_of_digits (g_hour g))
                (int_of_digits (g_minute g)) (int_of_digits (g_second g)) microsec)
      end
  end.

Definition syslog_datetime (f : syslog_fields) (y : Z) (tz : Z) : res datetime :=
  datetime_new y (f_month f) (f_day f) (f_hour f) (f_minute f) (f_second f)
    (f_microsecond f) (Some tz).

(** The [syslog] branch for the reference instant [now] (the wall clock of
    UTC plus twelve hours) and the zone [tz]. *)
Definition get_timestamp_syslog (now : datetime) (tz : Z) (timestr : pyval)
  : res datetime :=
  match timestr with
  | PStr text =>
      f <- syslog_parse text ;;
      dt <- match syslog_datetime f (year now) tz with
            | Raise ValueError => syslog_datetime f (year now - 1) tz
            | r => r
            end ;;
      later <- datetime_gt dt now ;;
      if later then replace_year dt (year now - 1) else Ok dt
  | _ => Raise TypeError
  end.

(** The reference instant: [datetime.now(timezone.utc) + TD_OFFSET12]. *)
Definition syslog_reference (utcnow : datetime) : res datetime :=
  add_us utcnow (hours 12).

(** The resolver in the words of the specification: the candidate is built
    with the reference year, and with the year before when the day does not
    exist in the reference year; a candidate later than the reference
    instant is moved one year back. *)
Definition syslog_candidate (now : datetime) (tz : Z) (f : syslog_fields)
  : res datetime :=
  match syslog_datetime f (year now) tz with
  | Raise ValueError => syslog_datetime f (year now - 1) tz
  | r => r
  end.

Definition one_year_earlier (dt : datetime) : res datetime :=
  replace_year dt (year dt - 1).

(** *** The [epoch] branch, on binary64 numbers *)

(** [float(n)] for an integer below 2^63 in absolute value: the nearest
    float. *)
Definition float_of_Z (z : Z) : float :=
  if z <? 0 then PrimFloat.opp (PrimFloat.of_uint63 (Uint63.of_Z (- z)))
  else PrimFloat.of_uint63 (Uint63.of_Z z).

(** The float of the sign [neg] nearest to the fraction [n / d], for
    [0 <= n] and [0 < d], a tie going to the even one: the quotient is taken
    with more than 64 binary digits and one more digit that tells whether
    anything was left over, and is then rounded to binary64.  Beyond the
    largest float the result is an infinity. *)
Definition nearest_float (neg : bool) (n d : Z) : float :=
  if n =? 0 then (if neg then (-0)%float else 0%float)
  else
    let k := Z.max 0 (Z.log2 d + 66 - Z.log2 n) in
    let q := (n * 2 ^ k) / d in
    let sticky := if (n * 2 ^ k) mod d =? 0 then 0 else 1 in
    SF2Prim (binary_normalize prec emax
               ((if neg then -1 else 1) * (2 * q + sticky)) (- k - 1) neg).

(** [float(n)] of an integer: the nearest float, and [OverflowError] for an
    integer beyond the largest one. *)
Definition float_of_int (z : Z) : res float :=
  let f := nearest_float (z <? 0) (Z.abs z) 1 in
  if PrimFloat.is_infinity f then Raise OverflowError else Ok f.

(** The underscores of a numeric text: each one stands after a digit and
    before a digit.  The result is the text without them. *)
Fixpoint without_underscores (s : string) (prev : ascii) : option string :=
  match s with
  | EmptyString => if Ascii.eqb prev "_" then None else Some EmptyString
  | String c rest =>
      if Ascii.eqb c "_" then
        if is_digit prev then without_underscores rest c else None
      else if Ascii.eqb prev "_" && negb (is_digit c) then None
      else option_map (String c) (without_underscores rest c)
  end.

(** The digits that [s] starts with: their value after [acc], their number
    after [count], and what follows them. *)
Fixpoint float_digits (s : string) (acc count : Z) : Z * Z * string :=
  match s with
  | String c rest =>
      if is_digit c then float_digits rest (10 * acc + digit_val c) (count + 1)
      else (acc, count, s)
  | EmptyString => (acc, count, s)
  end.

(** A decimal literal without its sign: digits, a point, digits and an
    exponent [e] or [E] with an optional sign and digits, where the point and
    the exponent are optional and a digit stands before or after the point.
    The result is [(m, e)] for the value [m * 10 ^ e]. *)
Definition decimal_literal (s : string) : option (Z * Z) :=
  let '(int_part, int_count, after_int) := float_digits s 0 0 in
  let '(mantissa, frac_count, after_frac) :=
    match after_int with
    | String "." rest => float_digits rest int_part 0
    | _ => (int_part, 0, after_int)
    end in
  if int_count + frac_count =? 0 then None
  else
    match after_frac with
    | EmptyString => Some (mantissa, - frac_count)
    | String c after_e =>
        if Ascii.eqb c "e" || Ascii.eqb c "E" then
          let (negative, digits) :=
            match after_e with
            | String "-" rest => (true, rest)
            | String "+" rest => (false, rest)
            | _ => (false, after_e)
            end in
          let '(exponent, exp_count, after_exp) := float_digits digits 0 0 in
          match after_exp with
          | EmptyString =>
              if exp_count =? 0 then None
              else Some (mantissa, (if negative then - exponent else exponent)
                                   - frac_count)
          | _ => None
          end
        else None
    end.

(** [float(s)] of a text; [None] stands for [ValueError].  White space at
    both ends is skipped; what is left is, after an optional sign, one of
    the words [inf], [infinity] and [nan] in any case, or a decimal literal,
    which is read as the nearest float. *)
Definition float_of_text (s : string) : option float :=
  match without_underscores (int_strip s) "000" with
  | None => None
  | Some t =>
      let (neg, body) :=
        match t with
        | String "-" rest => (true, rest)
        | String "+" rest => (false, rest)
        | _ => (false, t)
        end in
      let word := lower body in
      if String.eqb word "inf" || String.eqb word "infinity"
      then Some (if neg then neg_infinity else infinity)
      else if String.eqb word "nan" then Some nan
      else
        match decimal_literal body with
        | Some (m, e) =>
            Some (if 0 <=? e then nearest_float neg (m * 10 ^ e) 1
                  else nearest_float neg m (10 ^ (- e)))
        | None => None
        end
  end.

(** [float(timestr)]: of an integer, a boolean or a text; [TypeError] for
    [None], a list and a dictionary. *)
Definition py_float (v : pyval) : res float :=
  match v with
  | PInt z => float_of_int z
  | PBool b => Ok (if b then 1%float else 0%float)
  | PStr s =>
      match float_of_text s with
      | Some f => Ok f
      | None => Raise ValueError
      end
  | _ => Raise TypeError
  end.

(** The integer part of a finite float, towards zero. *)
Definition float_trunc (x : float) : option Z :=
  match Prim2SF x with
  | S754_zero _ => Some 0
  | S754_finite s m e =>
      let mag := if 0 <=? e then Z.pos m * 2 ^ e else Z.pos m / 2 ^ (- e) in
      Some (if s then - mag else mag)
  | _ => None
  end.

(** The nearest integer of a finite float, a tie going to the even one. *)
Definition float_round_half_even (x : float) : option Z :=
  match Prim2SF x with
  | S754_zero _ => Some 0
  | S754_finite s m e =>
      let mag :=
        if 0 <=? e then Z.pos m * 2 ^ e
        else
          let q := Z.pos m / 2 ^ (- e) in
          let r := Z.pos m mod 2 ^ (- e) in
          let half := 2 ^ (- e - 1) in
          if (half <? r) || ((r =? half) && Z.odd q) then q + 1 else q in
      Some (if s then - mag else mag)
  | _ => None
  end.

(** Seconds and microseconds of a timestamp: [modf], the fraction times
    [1e6] rounded half to even, and the carry into the seconds. *)
Definition timestamp_parts (t : float) : res (Z * Z) :=
  match float_trunc t with
  | None => if PrimFloat.is_nan t then Raise ValueError else Raise OverflowError
  | Some intpart =>
      let floatpart :=
        if Z.abs intpart <? 2 ^ 53
        then PrimFloat.sub t (float_of_Z intpart) else 0%float in
      match float_round_half_even (PrimFloat.mul floatpart 1e6%float) with
      | None => Raise OverflowError
      | Some us =>
          let (sec, us) :=
            if 1000000 <=? us then (intpart + 1, us - 1000000)
            else if us <? 0 then (intpart - 1, us + 1000000)
            else (intpart, us) in
          if (- 2 ^ 63 <=? sec) && (sec <? 2 ^ 63) then Ok (sec, us)
          else Raise OverflowError
      end
  end.

(** The ordinal of 1970-01-01. *)
Definition EPOCH_ORDINAL : Z := 719163.

(** The year of [gmtime] for a count of seconds since 1970: the year of
    the proleptic calendar, with a year 0 and negative years before the
    year 1. *)
Definition gmtime_year (sec : Z) : Z :=
  let '(y, _, _) := ord2ymd (EPOCH_ORDINAL + sec / 86400) in y.

(** [datetime.fromtimestamp(t, tz=tz)]: the UTC fields of the timestamp,
    moved to the zone.  The seconds are a 64-bit [time_t]
    ([timestamp_parts]); [gmtime] of the C library fails, and the call
    raises [OSError], when the year less 1900 does not fit its 32-bit field;
    a year outside 1..9999 is a [ValueError]; and the move to the zone
    raises [OverflowError] when it leaves these years. *)
Definition fromtimestamp (t : float) (tz : Z) : res datetime :=
  parts <- timestamp_parts t ;;
  let (sec, us) := parts in
  let tm_year := gmtime_year sec - 1900 in
  if (- 2 ^ 31 <=? tm_year) && (tm_year <? 2 ^ 31) then
    let days := EPOCH_ORDINAL + sec / 86400 in
    if (0 <? days) && (days <=? MAXORDINAL) then
      utc <- of_local_us (((EPOCH_ORDINAL * 86400) + sec) * US_PER_SECOND + us) (Some tz) ;;
      add_us utc tz
    else Raise ValueError
  else Raise OSError.

(** The [epoch] branch: above [1000000000000] the number counts
    milliseconds. *)
Definition get_timestamp_epoch (tz : Z) (timestr : pyval) : res datetime :=
  epoch <- py_float timestr ;;
  if PrimFloat.ltb 1000000000000%float epoch
  then fromtimestamp (PrimFloat.div epoch 1000%float) tz
  else fromtimestamp epoch tz.

(** *** The resolver *)

(** [s.replace('Z', '+00:00')]. *)
Fixpoint replace_Z (s : string) : string :=
  match s with
  | EmptyString => EmptyString
  | String c rest =>
      if Ascii.eqb c "Z" then ("+00:00" ++ replace_Z rest)%string
      else String c (replace_Z rest)
  end.

Section GetTimestamp.

(** [datetime.fromisoformat(s)] and [datetime.strptime(s, format)] of the
    Python library; both raise [ValueError] for a text they cannot
    read. *)
Variable fromisoformat : string -> res datetime.
Variable strptime : string -> string -> res datetime.

(** The wall clock of UTC, [datetime.now(timezone.utc)]. *)
Variable utcnow : datetime.

Variable logconfig : config.

(** [timedelta(hours=float(self.logconfig['timestamp_tz']))] in
    microseconds. *)
Variable timestamp_tz : Z.

Variable logdata_dict : dict.

(** The key and the format in force: the deprecated entry ['timestamp'],
    when it is there and not empty, overrides the key and, with exactly
    two parts, the format. *)
Definition timestamp_settings : res (string * string) :=
  let timestamp_list :=
    match logconfig "timestamp" with
    | Some (String c s) => Some (split_on "," (String c s))
    | _ => None
    end in
  timestamp_key <- match timestamp_list with
                   | Some (k :: _) => Ok k
                   | _ => config_item logconfig "timestamp_key"
                   end ;;
  if String.eqb timestamp_key "" then Ok (timestamp_key, "")
  else
    timestamp_format <- match timestamp_list with
                        | Some [_; f] => Ok f
                        | _ => config_item logconfig "timestamp_format"
                        end ;;
    Ok (timestamp_key, timestamp_format).

Definition with_default_zone (tz : Z) (dt : datetime) : datetime :=
  match tzinfo dt with
  | Some _ => dt
  | None => replace_tzinfo dt (Some tz)
  end.

Definition as_text (v : pyval) : res string :=
  match v with
  | PStr s => Ok s
  | _ => Raise TypeError
  end.

Definition get_timestamp : res datetime :=
  settings <- timestamp_settings ;;
  let (timestamp_key, timestamp_format) := settings in
  if String.eqb timestamp_key "" then Ok utcnow
  else
    tz <- timezone timestamp_tz ;;
    timestr <- match dict_get timestamp_key logdata_dict with
               | Some (PStr s) => Ok (PStr (replace_Z s))
               | Some v => Ok v
               | None => Raise KeyError
               end ;;
    if str_contains "epoch" timestamp_format then get_timestamp_epoch tz timestr
    else if str_contains "syslog" timestamp_format then
      now <- syslog_reference utcnow ;;
      get_timestamp_syslog now tz timestr
    else if str_contains "iso8601" timestamp_format then
      text <- as_text timestr ;;
      dt <- fromisoformat text ;;
      Ok (with_default_zone tz dt)
    else if negb (String.eqb timestamp_format "") then
      text <- as_text timestr ;;
      dt <- strptime text timestamp_format ;;
      Ok (with_default_zone tz dt)
    else Raise ValueError.

End GetTimestamp.

(** ** Index naming: [LogParser.indexname] *)

Section IndexName.

Variable logconfig : config.

(** [timedelta(hours=float(self.logconfig['index_tz']))] in microseconds,
    read only when the entry is not empty. *)
Variable index_tz : Z.

(** [self.event_ingested] and [self.timestamp], both aware. *)
Variable event_ingested timestamp : datetime.

(** The timestamp that drives the rotation, in the rotation zone. *)
Definition index_datetime : res datetime :=
  index_time <- config_item logconfig "index_time" ;;
  let index_dt :=
    if str_contains "event_ingested" index_time then event_ingested
    else timestamp in
  index_tz_text <- config_item logconfig "index_tz" ;;
  if String.eqb index_tz_text "" then Ok index_dt
  else tz <- timezone index_tz ;; astimezone index_dt tz.

Definition indexname : res string :=
  indexname <- config_item logconfig "index_name" ;;
  index_rotation <- config_item logconfig "index_rotation" ;;
  if str_contains "auto" index_rotation then Ok indexname
  else
    index_dt <- index_datetime ;;
    if str_contains "daily" index_rotation then
      Ok (indexname ++ "-" ++ strftime_Y index_dt ++ "-" ++ strftime_m index_dt
                    ++ "-" ++ strftime_d index_dt)%string
    else if str_contains "weekly" index_rotation then
      Ok (indexname ++ "-" ++ strftime_Y index_dt ++ "-w" ++ strftime_W index_dt)%string
    else if str_contains "monthly" index_rotation then
      Ok (indexname ++ "-" ++ strftime_Y index_dt ++ "-" ++ strftime_m index_dt)%string
    else
      Ok (indexname ++ "-" ++ strftime_Y index_dt)%string.

End IndexName.

(** A sample configuration of the index, by rotation policy.  *)
Definition index_sample_config (rotation : string) : config :=
  fun k =>
    if String.eqb k "index_name" then Some "log-aws-cloudtrail"
    else if String.eqb k "index_rotation" then Some rotation
    else if String.eqb k "index_time" then Some "event_ingested"
    else if String.eqb k "index_tz" then Some "9"
    else None.

(** 2018-12-31T20:00:00+00:00: in the zone UTC+9 it is Tuesday, the first of
    January 2019. *)
Definition index_sample_instant : datetime :=
  mk_datetime 2018 12 31 20 0 0 0 (Some 0).

(** The reference instant 2024-01-02T00:00:00+00:00 and the wall clock
    twelve hours before it. *)
Definition syslog_sample_utcnow : datetime := mk_datetime 2024 1 1 12 0 0 0 (Some 0).
Definition syslog_sample_now : datetime := mk_datetime 2024 1 2 0 0 0 0 (Some 0).

(** What may follow a value inside a JSON text written by [json_dumps]: the
    end, a comma, a closing bracket or brace, or the blank of the
    templates. *)
Definition delimited (tail : string) : bool :=
  match tail with
  | EmptyString => true
  | String c _ =>
      Ascii.eqb c "," || Ascii.eqb c "]" || Ascii.eqb c "}" || Ascii.eqb c " "
  end.

(** The text of the pairs of an object from just after the opening quote of
    the first key, as [json_dumps] writes it. *)
Fixpoint members_text (d : dict) : string :=
  match d with
  | [] => EmptyString
  | (k, v) :: rest =>
      (json_escape k ++ String dquote (": " ++ json_dumps v
         ++ match rest with
            | [] => EmptyString
            | _ => ", " ++ String dquote (members_text rest)
            end))%string
  end.

(** A value is read back from its text, whatever delimiter follows. *)
Definition reads_back (v : pyval) : Prop :=
  forall tail, delimited tail = true ->
    exists f, scan_once f (json_dumps v ++ tail) = Scan v true tail.

(** What [put_value_into_dict] embeds at the path: a dictionary as it is,
    any other value as its string form. *)
Definition stored_form (v : pyval) : pyval :=
  match v with
  | PDict _ => v
  | _ => PStr (py_str v)
  end.

(** A value that goes through the JSON text unchanged: a dictionary (of
    values of the model, no key twice), or a value whose string form holds
    no double quote and no backslash. *)
Definition json_safe (v : pyval) : bool :=
  match v with
  | PDict _ => wf_val v
  | _ => plain_text (py_str v)
  end.

(** A text is read as a value, whatever delimiter follows, and starts with
    a character that is not white space. *)
Definition reads_as (text : string) (v : pyval) : Prop :=
  (forall tail, delimited tail = true ->
     exists f, scan_once f (text ++ tail) = Scan v true tail)
  /\ (forall tail, skip_ws (text ++ tail) = (text ++ tail)%string).

(** ** Bounds of the cleanup *)

(** The number of dictionaries that are not empty along the deepest chain
    of dictionary values: 0 for a leaf and for the empty dictionary. *)
Fixpoint nesting (v : pyval) : nat :=
  match v with
  | PDict d =>
      match d with
      | [] => O
      | _ => S (list_max (map (fun kv => nesting (snd kv)) d))
      end
  | _ => O
  end.

(** An empty dictionary at any depth, through dictionaries and through
    lists: the value is one, or a value or an item that it holds is or holds
    one. *)
Fixpoint holds_empty_map (v : pyval) : bool :=
  match v with
  | PDict d =>
      match d with
      | [] => true
      | _ => existsb (fun kv => holds_empty_map (snd kv)) d
      end
  | PList l => existsb holds_empty_map l
  | _ => false
  end.

(** An empty dictionary inside a list, for the lists that are reached along
    dictionary values; [del_none] does not enter a list. *)
Fixpoint list_holds_empty_map (v : pyval) : bool :=
  match v with
  | PDict d => existsb (fun kv => list_holds_empty_map (snd kv)) d
  | PList l => existsb holds_empty_map l
  | _ => false
  end.

(** What one pass of [del_none] leaves under a key, from the value the key
    had. *)
Definition del_none_entry (o : option pyval) : option pyval :=
  match o with
  | Some (PDict []) => None
  | Some (PStr s) => if is_sentinel s then None else Some (PStr s)
  | Some (PDict d) => Some (PDict (del_none d))
  | other => other
  end.

(** What [merge] leaves under a key of [b], from the value of [a] and the
    value of [b]. *)
Definition merge_entry (oa : option pyval) (bv : pyval) : pyval :=
  match oa with
  | Some (PDict ad) =>
      match bv with
      | PDict bd => PDict (merge ad bd)
      | _ => bv
      end
  | Some av => if py_eq av bv then av else bv
  | None => bv
  end.

(** No value of the dictionary is a dictionary. *)
Definition leafy (d : dict) : bool :=
  forallb (fun kv => match snd kv with PDict _ => false | _ => true end) d.

(** The dictionaries among the values hold no dictionary. *)
Definition leafy_below (d : dict) : bool :=
  forallb (fun kv => match snd kv with PDict d' => leafy d' | _ => true end) d.

(** ** Account and region in an object key: [RE_ACCOUNT] and [RE_REGION] *)

(** [prog.search(s)]: the match at the first position, from the left, where
    the pattern matches; [at_head] is the pattern tried at the head of a
    text. *)
Fixpoint re_search {A : Type} (at_head : string -> option A) (s : string)
  : option A :=
  match at_head s with
  | Some m => Some m
  | None =>
      match s with
      | String _ rest => re_search at_head rest
      | EmptyString => None
      end
  end.

(** [RE_ACCOUNT], the pattern [/([0-9]{12})/], at the head of [s]: group 1.
    The first twelve characters after the slash are digits and a slash
    follows them. *)
Definition re_account_at (s : string) : option string :=
  match s with
  | String c rest =>
      if Ascii.eqb c "/" then
        match re_digits_upto 12 rest with
        | (ds, String c' _) =>
            if (String.length ds =? 12)%nat && Ascii.eqb c' "/"
            then Some ds else None
        | (_, EmptyString) => None
        end
      else None
  | EmptyString => None
  end.

Definition is_alpha (c : ascii) : bool := is_upper c || is_lower c.

(** [[a-zA-Z]*], greedy: the letters at the head and what follows them. *)
Fixpoint re_letters (s : string) : string * string :=
  match s with
  | String c rest =>
      if is_alpha c
      then let (ls, rest') := re_letters rest in (String c ls, rest')
      else (EmptyString, s)
  | EmptyString => (EmptyString, s)
  end.

Definition region_prefixes : list string :=
  ["us"; "ap"; "ca"; "eu"; "me"; "sa"; "af"].

(** [RE_REGION], the pattern
    [(global|(us|ap|ca|eu|me|sa|af)-[a-zA-Z]+-[0-9])], at the head of [s]:
    group 1.  The letters are followed by a hyphen, which is no letter, so
    giving back letters never helps the match. *)
Definition re_region_at (s : string) : option string :=
  if String.prefix "global" s then Some "global"
  else
    match s with
    | String a (String b (String h rest)) =>
        if existsb (String.eqb (String a (String b ""))) region_prefixes
           && Ascii.eqb h "-"
        then
          match re_letters rest with
          | (String l ls, String h2 (String d _)) =>
              if Ascii.eqb h2 "-" && is_digit d
              then Some (String a (String b "") ++ "-" ++ String l ls
                           ++ "-" ++ String d "")%string
              else None
          | _ => None
          end
        else None
    | _ => None
    end.

(** [m.group(1)] when there is a match, and [None]. *)
Definition group1 (m : option string) : pyval :=
  match m with
  | Some g => PStr g
  | None => PNone
  end.

(** [LogS3.accountid] and [LogS3.region] for the key of the object. *)
Definition s3_accountid (s3key : string) : pyval :=
  group1 (re_search re_account_at s3key).

Definition s3_region (s3key : string) : pyval :=
  group1 (re_search re_region_at s3key).

(** A text of decimal digits. *)
Definition all_digits (s : string) : bool :=
  forallb is_digit (list_ascii_of_string s).

(** ** Field names: [conv_key] *)

(** [s.translate({ord('-'): ord('_')})]. *)
Fixpoint hyphens_to_underscores (s : string) : string :=
  match s with
  | EmptyString => EmptyString
  | String c rest =>
      String (if Ascii.eqb c "-" then "_"%char else c) (hyphens_to_underscores rest)
  end.

(** The dictionary without the key [k]. *)
Fixpoint dict_remove (k : string) (d : dict) : dict :=
  match d with
  | [] => []
  | (k', v) :: rest =>
      if String.eqb k k' then rest else (k', v) :: dict_remove k rest
  end.

(** [d.pop(k)]: the value and what is left of the dictionary. *)
Definition dict_pop (k : string) (d : dict) : res (pyval * dict) :=
  match dict_get k d with
  | Some v => Ok (v, dict_remove k d)
  | None => Raise KeyError
  end.

(** A function that can raise, run over a list from left to right. *)
Fixpoint mapM {A B : Type} (f : A -> res B) (l : list A) : res (list B) :=
  match l with
  | [] => Ok []
  | x :: rest => y <- f x ;; ys <- mapM f rest ;; Ok (y :: ys)
  end.

(** The number of containers, lists and dictionaries, along the deepest
    chain of values. *)
Fixpoint depth (v : pyval) : nat :=
  match v with
  | PList l => S (list_max (map depth l))
  | PDict d => S (list_max (map (fun kv => depth (snd kv)) d))
  | _ => O
  end.

(** One round of the loop over [list(obj.keys())]: a key with a hyphen is
    popped and its value stored under the new key, and [conv_key] runs on
    the value that the dictionary then holds under the new key; [conv] is
    that recursive call, and the value it returns stands for the value
    updated in place. *)
Definition conv_key_step (conv : pyval -> res pyval) (obj : dict)
    (org_key : string) : res dict :=
  renamed <- (if str_contains "-" org_key
              then
                let new_key := hyphens_to_underscores org_key in
                popped <- dict_pop org_key obj ;;
                Ok (new_key, dict_set new_key (fst popped) (snd popped))
              else Ok (org_key, obj)) ;;
  let (new_key, obj1) := renamed in
  match dict_get new_key obj1 with
  | Some v => v' <- conv v ;; Ok (dict_set new_key v' obj1)
  | None => Raise KeyError
  end.

Fixpoint conv_key_loop (conv : pyval -> res pyval) (keys : list string)
    (obj : dict) : res dict :=
  match keys with
  | [] => Ok obj
  | org_key :: rest =>
      obj' <- conv_key_step conv obj org_key ;;
      conv_key_loop conv rest obj'
  end.

(** [conv_key] with a bound on the depth of the recursion: the object as
    the call leaves it. *)
Fixpoint conv_key_fuel (fuel : nat) (obj : pyval) : res pyval :=
  match fuel with
  | O => Unmodelled
  | S fuel' =>
      match obj with
      | PDict d =>
          d' <- conv_key_loop (conv_key_fuel fuel') (map fst d) d ;;
          Ok (PDict d')
      | PList l => l' <- mapM (conv_key_fuel fuel') l ;; Ok (PList l')
      | _ => Ok obj
      end
  end.

(** [conv_key(obj)]: the recursion goes no deeper than the object, so the
    bound given here is never reached ([conv_key_returns]). *)
Definition conv_key (obj : pyval) : res pyval :=
  conv_key_fuel (S (depth obj)) obj.

(** No key of a dictionary, at any depth, holds a hyphen. *)
Fixpoint no_hyphen_keys (v : pyval) : bool :=
  match v with
  | PList l => forallb no_hyphen_keys l
  | PDict d =>
      forallb (fun kv => negb (str_contains "-" (fst kv))
                         && no_hyphen_keys (snd kv)) d
  | _ => true
  end.

(** The invariant of the loop of [conv_key] over the keys that are still
    to do: no key twice; every key to do is present; every value is well
    formed and no deeper than [n]; and an entry whose key is not to do any
    more has a key and a value without hyphens. *)
Definition conv_sized (n : nat) (kv : string * pyval) : Prop :=
  wf_val (snd kv) = true /\ (depth (snd kv) <= n)%nat.

Definition conv_done (kv : string * pyval) : Prop :=
  str_contains "-" (fst kv) = false /\ no_hyphen_keys (snd kv) = true.

Definition conv_inv (n : nat) (todo : list string) (obj : dict) : Prop :=
  NoDup (map fst obj)
  /\ (forall k, In k todo -> dict_get k obj <> None)
  /\ Forall (fun kv => conv_sized n kv /\ (In (fst kv) todo \/ conv_done kv)) obj.

(** The same loop seen from the fields of the dictionary [d] it started
    with: a field whose key is to do is still in its place, and a field
    whose key is done stands under its new name with the value that the
    recursive call [conv] made of it. *)
Definition lookup_inv (conv : pyval -> res pyval) (d : dict)
    (todo : list string) (obj : dict) : Prop :=
  forall k v, In (k, v) d ->
    (In k todo -> dict_get k obj = Some v)
    /\ (~ In k todo ->
        exists v', conv v = Ok v'
                   /\ dict_get (hyphens_to_underscores k) obj = Some v').

(** ** The parsed entry: [LogParser.logdata_to_dict] *)

(** [dict(pairs)]: a key that comes again takes the later value and keeps
    its place. *)
Definition dict_of_pairs (pairs : list (string * pyval)) : dict :=
  fold_left (fun d kv => dict_set (fst kv) (snd kv) d) pairs [].

(** [v in text] for a string [text]: the left operand must be a string. *)
Definition py_in_text (v : pyval) (text : string) : res bool :=
  match v with
  | PStr s => Ok (str_contains s text)
  | _ => Raise TypeError
  end.

(** [v.split()]: only a string has the method. *)
Definition py_split_method (v : pyval) : res (list string) :=
  match v with
  | PStr s => Ok (py_split s)
  | _ => Raise AttributeError
  end.

Section LogdataToDict.

Variable msgformat logdata logformat header : pyval.
Variable logtype : string.

(** [self.log_pattern_prog]: [None], or a compiled pattern with the text
    that [str] makes of it and its [match] followed by [groupdict()];
    [match] raises [TypeError] for a value that is not a string. *)
Variable log_pattern_prog : option (string * (string -> option dict)).

Definition is_extracted : res bool :=
  kinesis <- py_in "kinesis" msgformat ;;
  if kinesis then py_in "extractedFields" logdata else Ok false.

Definition logdata_to_dict : res pyval :=
  extracted <- is_extracted ;;
  if extracted then py_getitem logdata (KStr "extractedFields")
  else
    csv <- py_in_text logformat "csv" ;;
    if csv then
      names <- py_split_method header ;;
      values <- py_split_method logdata ;;
      conv_key (PDict (dict_of_pairs (combine names (map PStr values))))
    else
      json <- py_in_text logformat "json" ;;
      if json then Ok logdata
      else
        text <- py_in_text logformat "text" ;;
        if text then
          match log_pattern_prog with
          | None => Raise AttributeError
          | Some (pattern, prog_match) =>
              match logdata with
              | PStr line =>
                  match prog_match line with
                  | Some groupdict => Ok (PDict groupdict)
                  | None =>
                      Raise (Exception
                        ("Invalid regex pattern of " ++ logtype
                         ++ " in aws.ini or use.ini." ++ String "010" "regex_pattern:"
                         ++ String "010" pattern ++ String "010" "rawdata:"
                         ++ String "010" line ++ String "010" ""))
                  end
              | _ => Raise TypeError
              end
          end
        else Ok (PDict []).

End LogdataToDict.

(** ** Fields kept as text: [LogParser.clean_multi_type_field] *)

Section CleanMultiTypeField.

Variable logconfig : config.
Variable logdata_dict : dict.

(** The value that is handed to [put_value_into_dict]: an integer (or a
    boolean, which is one) as it is, a value that holds ['{'] as the string
    [repr(v)], any other value as the string [str(v)]. *)
Definition multi_type_value (v : pyval) : res pyval :=
  match v with
  | PInt _ | PBool _ => Ok v
  | _ =>
      brace <- py_in "{" v ;;
      if brace then Ok (PStr (py_repr v)) else Ok (PStr (py_str v))
  end.

(** One round of the loop over [multifield_keys]. *)
Definition clean_multi_type_step (clean_multi_type_dict : dict)
    (multifield_key : string) : res dict :=
  v <- get_value_from_dict (PDict logdata_dict) multifield_key ;;
  if py_truthy v then
    value <- multi_type_value v ;;
    new_dict <- put_value_into_dict multifield_key value ;;
    match new_dict with
    | PDict nd => Ok (merge clean_multi_type_dict nd)
    | _ => Unmodelled
    end
  else Ok clean_multi_type_dict.

Fixpoint clean_multi_type_loop (clean_multi_type_dict : dict)
    (multifield_keys : list string) : res dict :=
  match multifield_keys with
  | [] => Ok clean_multi_type_dict
  | multifield_key :: rest =>
      clean <- clean_multi_type_step clean_multi_type_dict multifield_key ;;
      clean_multi_type_loop clean rest
  end.

(** [clean_multi_type_field]: the new [self.__logdata_dict]. *)
Definition clean_multi_type_field : res dict :=
  json_to_text <- config_item logconfig "json_to_text" ;;
  clean <- clean_multi_type_loop [] (py_split json_to_text) ;;
  Ok (merge logdata_dict clean).

End CleanMultiTypeField.

(** The text that the field is turned into: [repr(v)] for a string that
    holds a brace, for a list and for a dictionary, and [str(v)], the
    string itself or the decimal digits of a number, otherwise. *)
Definition multi_type_text (v : pyval) : string :=
  match v with
  | PStr s => if str_contains "{" s then repr_str s else s
  | _ => py_str v
  end.

(** A sample configuration of the timestamp, by format, for the field
    [time]. *)
Definition timestamp_sample_config (format : string) : config :=
  fun k =>
    if String.eqb k "timestamp_key" then Some "time"
    else if String.eqb k "timestamp_format" then Some format
    else if String.eqb k "timestamp_tz" then Some "0"
    else None.

(** A stand-in for [fromisoformat] in the samples: it reads one text. *)
Definition fromisoformat_sample (s : string) : res datetime :=
  if String.eqb s "2020-01-01T00:00:00+00:00"
  then Ok (mk_datetime 2020 1 1 0 0 0 0 (Some 0))
  else Raise ValueError.

(** ** SourceAdapter: [LogS3] *)

(** [readlines()] of a text stream, whose line ends are all line feeds once
    the stream has translated them: the lines, each with its line feed;
    the last one may lack it. *)
Fixpoint readlines_go (s : string) (line : string) : list string :=
  match s with
  | EmptyString => if String.eqb line "" then [] else [line]
  | String c rest =>
      if Ascii.eqb c "010" then snoc line c :: readlines_go rest ""
      else readlines_go rest (snoc line c)
  end.

Definition readlines (text : string) : list string := readlines_go text "".

(** [l[n:]]: a negative [n] counts from the end. *)
Definition py_slice_from {A : Type} (l : list A) (n : Z) : list A :=
  let len := Z.of_nat (List.length l) in
  let start := if n <? 0 then Z.max (len + n) 0 else Z.min n len in
  skipn (Z.to_nat start) l.

(** [for x in v]: the items of a list, the keys of a dictionary, the
    characters of a string. *)
Definition py_iter (v : pyval) : res (list pyval) :=
  match v with
  | PList l => Ok l
  | PDict d => Ok (map (fun kv => PStr (fst kv)) d)
  | PStr s => Ok (map (fun c => PStr (String c "")) (list_ascii_of_string s))
  | _ => Raise TypeError
  end.

(** What a generator does: the values it yields, in order, and how it
    ends, by returning or with an exception. *)
Definition generator : Type := (list pyval * res unit)%type.

Definition yields (items : list pyval) : generator := (items, Ok tt).

Definition gen_raise (r : res (list pyval)) : generator :=
  match r with
  | Ok items => (items, Ok tt)
  | Raise e => ([], Raise e)
  | Unmodelled => ([], Unmodelled)
  end.

Section LogS3.

(** [re.search(p, key)] finds a match, or raises for a pattern that does
    not compile. *)
Variable re_search_key : string -> string -> res bool.

(** [config.sections()] with [config[section]] for each. *)
Variable sections : list (string * config).

Variable s3key : string.

(** [s3.get_object(...)['Body'].read()]: the bytes of the object. *)
Variable read_object : res bytes.

Variable zip_first_name : bytes -> res string.

(** The text of a stream as [read()] returns it: decompressed, decoded
    with [errors='ignore'], the line ends translated to line feeds. *)
Variable read_text : body -> res string.

(** [json.JSONDecoder().decode(line)]. *)
Variable json_decode : string -> res pyval.

(** [LogS3.logtype]: the first section, in the order of the file, whose
    [s3_key] pattern is found in the key. *)
Fixpoint s3_logtype_from (sections : list (string * config)) : res string :=
  match sections with
  | [] => Ok "unknown"
  | (section, c) :: rest =>
      p <- config_item c "s3_key" ;;
      found <- re_search_key p s3key ;;
      if found then Ok section else s3_logtype_from rest
  end.

Definition s3_logtype : res string := s3_logtype_from sections.

(** [self.config[section]]. *)
Definition config_section (section : string) : res config :=
  match find (fun sc => String.eqb section (fst sc)) sections with
  | Some sc => Ok (snd sc)
  | None => Raise KeyError
  end.

(** [self.config[self.logtype][k]]. *)
Definition s3_config_item (k : string) : res string :=
  logtype <- s3_logtype ;;
  c <- config_section logtype ;;
  config_item c k.

Definition s3_file_format : res string := s3_config_item "file_format".

(** [self.rawdata.readlines()]. *)
Definition s3_readlines : res (list string) :=
  object_bytes <- read_object ;;
  stream <- rawdata zip_first_name object_bytes ;;
  text <- read_text stream ;;
  Ok (readlines text).

(** [LogS3.header]. *)
Definition s3_header : res pyval :=
  file_format <- s3_file_format ;;
  if str_contains "csv" file_format then
    lines <- s3_readlines ;;
    match lines with
    | first :: _ => Ok (PStr (py_strip first))
    | [] => Raise IndexError
    end
  else Ok PNone.

(** The records of one line of a JSON object. *)
Definition s3_json_records (line : string) : res (list pyval) :=
  raw_event <- json_decode line ;;
  delimiter <- s3_config_item "json_delimiter" ;;
  if negb (String.eqb delimiter "") then
    records <- py_getitem raw_event (KStr delimiter) ;;
    py_iter records
  else Ok [raw_event].

Fixpoint s3_json_lines (lines : list string) : generator :=
  match lines with
  | [] => yields []
  | line :: rest =>
      match s3_json_records line with
      | Ok records =>
          let (items, ending) := s3_json_lines rest in (records ++ items, ending)
      | Raise e => ([], Raise e)
      | Unmodelled => ([], Unmodelled)
      end
  end.

(** [LogS3.logdata_list]. *)
Definition s3_logdata_list : generator :=
  match s3_file_format with
  | Ok file_format =>
      if str_contains "text" file_format then
        gen_raise
          (number <- s3_config_item "text_header_line_number" ;;
           header_line_number <- match py_int number with
                                 | Some n => Ok n
                                 | None => Raise ValueError
                                 end ;;
           lines <- s3_readlines ;;
           Ok (map (fun logdata => PStr (py_strip logdata))
                 (py_slice_from lines header_line_number)))
      else if str_contains "csv" file_format then
        gen_raise
          (lines <- s3_readlines ;;
           Ok (map (fun logdata => PStr (py_strip logdata)) (py_slice_from lines 1)))
      else if str_contains "json" file_format then
        match s3_readlines with
        | Ok lines => s3_json_lines lines
        | Raise e => ([], Raise e)
        | Unmodelled => ([], Unmodelled)
        end
      else yields []
  | Raise e => ([], Raise e)
  | Unmodelled => ([], Unmodelled)
  end.

End LogS3.

(** The [s3_key] pattern of a section is not found in the key. *)
Definition s3_no_match (re_search_key : string -> string -> res bool)
    (s3key : string) (sc : string * config) : Prop :=
  exists p, snd sc "s3_key" = Some p /\ re_search_key p s3key = Ok false.

(** A text without a line feed. *)
Definition one_line (s : string) : bool :=
  negb (str_contains (String "010" "") s).

(** A sample of two sections, and a search that finds a pattern when it is
    part of the key. *)
Definition s3_sample_sections : list (string * config) :=
  [("cloudtrail",
    fun k => if String.eqb k "s3_key" then Some "CloudTrail"
             else if String.eqb k "file_format" then Some "json"
             else if String.eqb k "json_delimiter" then Some "Records"
             else None);
   ("vpcflowlogs",
    fun k => if String.eqb k "s3_key" then Some "vpcflowlogs"
             else if String.eqb k "file_format" then Some "text"
             else if String.eqb k "text_header_line_number" then Some "1"
             else None)].

Definition s3_sample_search (p key : string) : res bool :=
  Ok (str_contains p key).

(** The text of a sample object: a header line, an entry, a blank line and
    a last line without a line feed. *)
Definition s3_sample_text : string :=
  ("version interface action" ++ String "010"
     (" 2 eni-1 ACCEPT " ++ String "010" (String "010" "last")))%string.

(** The text of a plain stream whose bytes are ASCII and hold no carriage
    return: UTF-8 decodes each such byte to its character, and no line end
    is translated. *)
Definition read_ascii_text (stream : body) : res string :=
  match stream with
  | PlainText raw =>
      if forallb (fun b => let n := Byte.to_N b in
                           (n <? 128)%N && negb (n =? 13)%N) raw
      then Ok (string_of_list_byte raw)
      else Unmodelled
  | _ => Unmodelled
  end.

(** A sample of one section whose objects hold one JSON text on each
    line, and the bytes of an object of one line that is no JSON text. *)
Definition s3_json_sections : list (string * config) :=
  [("app",
    fun k => if String.eqb k "s3_key" then Some "app"
             else if String.eqb k "file_format" then Some "json"
             else if String.eqb k "json_delimiter" then Some ""
             else None)].

Definition s3_plain_line : bytes :=
  list_byte_of_string "GET /index.html 200" ++ [Byte.x0a].

(** ** SourceAdapter: [LogKinesis] *)

(** [v.lower()]: only a string has the method. *)
Definition py_lower (v : pyval) : res string :=
  match v with
  | PStr s => Ok (lower s)
  | _ => Raise AttributeError
  end.

(** [s[:n]]. *)
Fixpoint take (n : nat) (s : string) : string :=
  match n, s with
  | S n', String c rest => String c (take n' rest)
  | _, _ => EmptyString
  end.

(** [v[:n]] on a string or a list. *)
Definition py_slice_to (v : pyval) (n : nat) : res pyval :=
  match v with
  | PStr s => Ok (PStr (take n s))
  | PList l => Ok (PList (firstn n l))
  | _ => Raise TypeError
  end.

Section LogKinesis.

Variable sections : list (string * config).

(** [self.rawdata_dict], the decoded record, and [self.loggroup], its
    ['logGroup']. *)
Variable rawdata_dict loggroup : pyval.

(** The head of the first message,
    [self.rawdata_dict['logEvents'][0]['message'][:150]], and [''] when a
    [KeyError] is raised on the way. *)
Definition kinesis_meta : res pyval :=
  match
    (events <- py_getitem rawdata_dict (KStr "logEvents") ;;
     event <- py_getitem events (KInt 0) ;;
     message <- py_getitem event (KStr "message") ;;
     py_slice_to message 150)
  with
  | Raise KeyError => Ok (PStr "")
  | r => r
  end.

(** [LogKinesis.logtype]: the first section whose [loggroup] setting is part
    of the name of the log group, in lower case, or of the head of the
    first message, in lower case. *)
Fixpoint kinesis_logtype_from (sections : list (string * config)) : res string :=
  match sections with
  | [] => Ok "unknown"
  | (section, c) :: rest =>
      setting <- config_item c "loggroup" ;;
      group <- py_lower loggroup ;;
      if str_contains setting group then Ok section
      else
        meta <- kinesis_meta ;;
        head <- py_lower meta ;;
        if str_contains setting head then Ok section
        else kinesis_logtype_from rest
  end.

Definition kinesis_logtype : res string := kinesis_logtype_from sections.

End LogKinesis.

(** The setting of a section is found in neither text. *)
Definition kinesis_no_match (group head : string) (sc : string * config) : Prop :=
  exists setting,
    snd sc "loggroup" = Some setting
    /\ str_contains setting group = false /\ str_contains setting head = false.

(** A sample record of a flow log, and two sections. *)
Definition kinesis_sample_record : pyval :=
  PDict [("messageType", PStr "DATA_MESSAGE"); ("owner", PStr "123456789012");
         ("logGroup", PStr "/aws/VPCFlowLogs"); ("logStream", PStr "eni-1");
         ("logEvents", PList [PDict [("message", PStr "2 eni-1 ACCEPT")]])].

Definition kinesis_sample_sections : list (string * config) :=
  [("cloudtrail", fun k => if String.eqb k "loggroup" then Some "cloudtrail" else None);
   ("vpcflowlogs", fun k => if String.eqb k "loggroup" then Some "vpcflowlogs" else None)].

(** ** The parser's other fields: [check_ignored_log] and [index_id] *)

(** [x in container] for any two values: a part of a string, an item of a
    list, a key of a dictionary. *)
Definition py_contains (x container : pyval) : res bool :=
  match container with
  | PStr s =>
      match x with
      | PStr needle => Ok (str_contains needle s)
      | _ => Raise TypeError
      end
  | PList l => Ok (existsb (py_eq x) l)
  | PDict d =>
      match x with
      | PStr k => Ok (dict_mem k d)
      | PList _ | PDict _ => Raise TypeError
      | _ => Ok false
      end
  | _ => Raise TypeError
  end.

(** [v[key]] for a key that is itself a value. *)
Definition py_subscript (v key : pyval) : res pyval :=
  match key with
  | PStr k => py_getitem v (KStr k)
  | PInt i => py_getitem v (KInt i)
  | PBool b => py_getitem v (KInt (if b then 1 else 0))
  | _ => Raise TypeError
  end.

Section ParserFields.

Variable logconfig : config.
Variable logtype : string.
Variable logdata_dict : dict.

(** The loop of [check_ignored_log] over the keys of the rules of the log
    type. *)
Fixpoint ignored_by (rules : pyval) (keys : list pyval) : res bool :=
  match keys with
  | [] => Ok false
  | key :: rest =>
      present <- py_contains key (PDict logdata_dict) ;;
      if present then
        value <- py_subscript (PDict logdata_dict) key ;;
        if py_truthy value then
          pattern <- py_subscript rules key ;;
          hit <- py_contains pattern value ;;
          if hit then Ok true else ignored_by rules rest
        else ignored_by rules rest
      else ignored_by rules rest
  end.

(** [LogParser.check_ignored_log]. *)
Definition check_ignored_log (ignore_list : pyval) : res bool :=
  listed <- py_in logtype ignore_list ;;
  if listed then
    rules <- py_getitem ignore_list (KStr logtype) ;;
    keys <- py_iter rules ;;
    ignored_by rules keys
  else Ok false.

(** [LogParser.index_id]: [format] writes the two values as [str] does. *)
Definition index_id : res pyval :=
  doc_id_suffix <- config_item logconfig "doc_id_suffix" ;;
  if py_truthy (PStr doc_id_suffix) then
    suffix <- get_value_from_dict (PDict logdata_dict) doc_id_suffix ;;
    id <- py_getitem (PDict logdata_dict) (KStr "@id") ;;
    Ok (PStr (py_str id ++ "_" ++ py_str suffix))
  else py_getitem (PDict logdata_dict) (KStr "@id").

End ParserFields.

(** A rule that applies to a document: the field named by the rule holds
    a text, not empty, of which the pattern of the rule is a part. *)
Definition rule_applies (logdata_dict : dict) (rule : string * pyval) : Prop :=
  exists pattern value,
    snd rule = PStr pattern
    /\ dict_get (fst rule) logdata_dict = Some (PStr value)
    /\ value <> "" /\ str_contains pattern value = true.

(** The rules are texts, and so are the fields they name. *)
Definition text_rules (logdata_dict : dict) (rules : dict) : bool :=
  forallb (fun rule =>
             match snd rule with
             | PStr _ =>
                 match dict_get (fst rule) logdata_dict with
                 | Some (PStr _) | None => true
                 | Some _ => false
                 end
             | _ => false
             end) rules.

(** ** The serialised entry: the [json] property *)

(** [LogParser.json]: the text of the entry after the two passes of
    [del_none]. *)
Definition json (logdata_dict : dict) : string :=
  json_dumps (PDict (json_cleanup logdata_dict)).

(** ** Index naming: the date in a daily name *)

(** A field of [strftime] is written with [width] digits and reads back as
    the number it was written from. *)
Definition field_reads_back (width : nat) (n : nat) : bool :=
  let text := pad_left width (dec (Z.of_nat n)) in
  Nat.eqb (String.length text) width && (int_of_digits text =? Z.of_nat n).

(** The digits of a number, as [%Y] writes a year, read back as the
    number. *)
Definition digits_read_back (n : nat) : bool :=
  int_of_digits (dec (Z.of_nat n)) =? Z.of_nat n.

(** Two values fall on the same calendar date. *)
Definition same_date (a b : datetime) : Prop :=
  year a = year b /\ month a = month b /\ day a = day b.

(* ================================================================== *)
(** * Properties *)

(** ** Dictionaries *)

(** Induction on a value together with the values it holds. *)
Lemma pyval_nested_ind (P : pyval -> Prop)
  (HNone : P PNone) (HBool : forall b, P (PBool b))
  (HInt : forall z, P (PInt z)) (HStr : forall s, P (PStr s))
  (HList : forall l, Forall P l -> P (PList l))
  (HDict : forall d, Forall (fun kv => P (snd kv)) d -> P (PDict d)) :
  forall v, P v.
Proof.
  fix IH 1. intros [ | b | z | s | l | d ].
  - exact HNone.
  - apply HBool.
  - apply HInt.
  - apply HStr.
  - apply HList. induction l as [ | x l IHl ]; constructor; [ apply IH | exact IHl ].
  - apply HDict. induction d as [ | [k x] d IHd ]; constructor;
      [ apply IH | exact IHd ].
Qed.

Lemma dict_get_set_same k v d : dict_get k (dict_set k v d) = Some v.
Proof.
  induction d as [ | [k' v'] d IH ]; simpl.
  - now rewrite String.eqb_refl.
  - destruct (String.eqb k k') eqn:E; simpl; rewrite E; auto.
Qed.

Lemma dict_get_set_other k k' v d :
  k <> k' -> dict_get k (dict_set k' v d) = dict_get k d.
Proof.
  intros Hne. induction d as [ | [k0 v0] d IH ]; simpl.
  - destruct (String.eqb_spec k k'); congruence.
  - destruct (String.eqb_spec k' k0) as [-> | Hk]; simpl.
    + destruct (String.eqb_spec k k0); congruence.
    + destruct (String.eqb k k0); auto.
Qed.

Lemma dict_set_same_value k v d : dict_get k d = Some v -> dict_set k v d = d.
Proof.
  induction d as [ | [k' v'] d IH ]; simpl; [ discriminate | ].
  destruct (String.eqb k k') eqn:E; intros H.
  - congruence.
  - now rewrite IH.
Qed.

Lemma existsb_eqb_false k ks :
  existsb (String.eqb k) ks = false -> ~ In k ks.
Proof.
  intros H Hin. assert (existsb (String.eqb k) ks = true); [ | congruence ].
  apply existsb_exists. exists k. split; [ exact Hin | apply String.eqb_refl ].
Qed.

Lemma wf_dict_cons k v d :
  wf_dict ((k, v) :: d) = true ->
  ~ In k (map fst d) /\ wf_val v = true /\ wf_dict d = true.
Proof.
  unfold wf_dict. simpl. intros H.
  apply andb_true_iff in H as [H1 H2].
  apply andb_true_iff in H1 as [H1 H3].
  apply andb_true_iff in H2 as [H2 H4].
  apply negb_true_iff in H1.
  repeat split; auto using existsb_eqb_false. now rewrite H3, H4.
Qed.

(** ** Cleanup *)

Lemma del_none_nil : del_none [] = [].
Proof. reflexivity. Qed.

(** The loop body of [del_none], entry by entry. *)
Lemma del_none_cons key value rest :
  del_none ((key, value) :: rest) =
  match value with
  | PDict [] => del_none rest
  | PStr s => if is_sentinel s then del_none rest
              else (key, value) :: del_none rest
  | PDict d => (key, PDict (del_none d)) :: del_none rest
  | _ => (key, value) :: del_none rest
  end.
Proof.
  unfold del_none. simpl.
  destruct value as [ | b | z | s | l | [ | e d ] ]; reflexivity.
Qed.

(** After one pass no dictionary below the document, reached through
    dictionaries, holds one of the sentinel strings as a value. *)
Lemma del_none_no_sentinel_leaf :
  forall v d, v = PDict d -> has_sentinel_leaf (PDict (del_none d)) = false.
Proof.
  induction v as [ | | | | | d0 IH ] using pyval_nested_ind;
    intros d E; try discriminate.
  injection E as <-.
  induction d0 as [ | [k x] d0 IHd ]; [ reflexivity | ].
  inversion IH as [ | ? ? Hx Hrest ]; subst. specialize (IHd Hrest).
  rewrite del_none_cons.
  destruct x as [ | b | z | s | l | [ | e dx ] ].
  all: try exact IHd.
  all: try (destruct (is_sentinel s) eqn:Es; [ exact IHd | ]).
  all: revert IHd; simpl; intros ->; auto.
  - now rewrite Es.
  - specialize (Hx _ eq_refl). simpl in Hx. now rewrite Hx.
Qed.

(** The second pass keeps that. *)
Lemma json_cleanup_no_sentinel_leaf d :
  has_sentinel_leaf (PDict (json_cleanup d)) = false.
Proof. unfold json_cleanup. now apply (del_none_no_sentinel_leaf (PDict (del_none d))). Qed.

(** C1 (the code breaks it).  The document
    [{"@id": "x", "a": {"b": {"c": ""}}}] reaches the cleanup stage; the two
    passes of [del_none] that the [json] property makes return
    [{"@id": "x", "a": {}}], a document that holds an empty nested map: the
    first pass empties ["b"], the second deletes ["b"] and so empties ["a"],
    and there is no third pass. *)
Theorem json_cleanup_leaves_empty_map :
  json_cleanup
    [("@id", PStr "x"); ("a", PDict [("b", PDict [("c", PStr "")])])]
  = [("@id", PStr "x"); ("a", PDict [])]
  /\ has_empty_map
       (PDict (json_cleanup
          [("@id", PStr "x"); ("a", PDict [("b", PDict [("c", PStr "")])])]))
     = true.
Proof. split; reflexivity. Qed.

(** ** DeepMerge *)

Lemma merge_nil a : merge a [] = a.
Proof. reflexivity. Qed.

Lemma merge_cons a key bv rest :
  merge a ((key, bv) :: rest) = merge (merge_step key bv a) rest.
Proof.
  unfold merge, merge_step. simpl.
  destruct (dict_get key a) as [ [ | | | | | ad ] | ]; try reflexivity.
  destruct bv; reflexivity.
Qed.

Lemma merge_step_get_other k key bv a :
  k <> key -> dict_get k (merge_step key bv a) = dict_get k a.
Proof.
  intros Hne. unfold merge_step.
  destruct (dict_get key a) as [ av | ]; [ | now apply dict_get_set_other ].
  destruct av, bv;
    try (destruct (py_eq _ _); [ reflexivity | now apply dict_get_set_other ]).
  now apply dict_get_set_other.
Qed.

(** [merge] only touches the keys of [b]. *)
Lemma merge_get_other k b :
  ~ In k (map fst b) -> forall a, dict_get k (merge a b) = dict_get k a.
Proof.
  induction b as [ | [key bv] b IH ]; intros Hk a; [ reflexivity | ].
  rewrite merge_cons. simpl in Hk. rewrite IH by tauto.
  apply merge_step_get_other. intros ->. tauto.
Qed.

(** A dictionary on which every round of the loop changes nothing is left
    as it is. *)
Lemma merge_fixed b :
  forall x, (forall key bv, In (key, bv) b -> merge_step key bv x = x) ->
            merge x b = x.
Proof.
  induction b as [ | [key bv] b IH ]; intros x H; [ reflexivity | ].
  rewrite merge_cons, (H key bv) by (left; reflexivity).
  apply IH. intros k v Hin. apply H. now right.
Qed.

Lemma dict_get_wf_in d :
  wf_dict d = true -> forall k v, In (k, v) d -> dict_get k d = Some v.
Proof.
  induction d as [ | [k0 v0] d IH ]; intros Hwf k v Hin; [ destruct Hin | ].
  apply wf_dict_cons in Hwf as (Hnot & _ & Hwf).
  simpl. destruct Hin as [E | Hin].
  - injection E as -> ->. now rewrite String.eqb_refl.
  - destruct (String.eqb_spec k k0) as [-> | _]; [ | now apply IH ].
    exfalso. apply Hnot. apply in_map_iff. now exists (k0, v).
Qed.

(** What the first merge leaves under a key of [b] is taken as it is by the
    second merge. *)
Lemma merge_step_absorbs key bv a :
  exists w, dict_get key (merge_step key bv a) = Some w /\ absorbs w bv.
Proof.
  unfold merge_step, absorbs.
  destruct (dict_get key a) as [ av | ] eqn:Hget.
  - destruct av as [ | | | | | ad ], bv as [ | | | | | bd ];
      try (destruct (py_eq _ _) eqn:Heq;
           [ eexists; split; [ exact Hget | right; left; split;
               [ exact Heq | intros ? ? ? ?; discriminate ] ]
           | eexists; split; [ apply dict_get_set_same | now left ] ]).
    eexists. split; [ apply dict_get_set_same | ].
    right. right. now exists ad, bd.
  - eexists. split; [ apply dict_get_set_same | now left ].
Qed.

Lemma merge_step_fixed key bv w x :
  merge_ok bv -> dict_get key x = Some w -> absorbs w bv ->
  merge_step key bv x = x.
Proof.
  intros IH Hget Hcase. unfold merge_step. rewrite Hget.
  destruct Hcase as [-> | [ [Heq Hnd] | (ad & bd & -> & ->) ] ].
  - destruct bv as [ | | | | | bd ];
      try (destruct (py_eq _ _); [ reflexivity | now apply dict_set_same_value ]).
    destruct (IH bd eq_refl) as [_ ->]. now apply dict_set_same_value.
  - destruct w as [ | | | | | wd ], bv as [ | | | | | bd ];
      try (now rewrite Heq).
    exfalso. now apply (Hnd wd bd).
  - destruct (IH bd eq_refl) as [-> _]. now apply dict_set_same_value.
Qed.

(** Every round of the second merge finds the first merge's result
    unchanged. *)
Lemma merge_rounds_fixed b :
  Forall (fun kv => merge_ok (snd kv)) b -> NoDup (map fst b) ->
  forall a key bv, In (key, bv) b ->
    merge_step key bv (merge a b) = merge a b.
Proof.
  induction b as [ | [k0 v0] b IHb ]; intros Hok Hnd a key bv Hin;
    [ destruct Hin | ].
  inversion Hok as [ | ? ? Hv0 Hok' ]; subst.
  inversion Hnd as [ | ? ? Hk0 Hnd' ]; subst.
  rewrite merge_cons. destruct Hin as [E | Hin].
  - injection E as -> ->.
    destruct (merge_step_absorbs key bv a) as (w & Hget & Habs).
    apply (merge_step_fixed key bv w); auto.
    now rewrite merge_get_other.
  - now apply IHb.
Qed.

Lemma wf_dict_NoDup d : wf_dict d = true -> NoDup (map fst d).
Proof.
  induction d as [ | [k v] d IH ]; intros Hwf; [ constructor | ].
  apply wf_dict_cons in Hwf as (Hnot & _ & Hwf). constructor; auto.
Qed.

Lemma wf_dict_Forall d :
  wf_dict d = true -> Forall (fun kv => wf_val (snd kv) = true) d.
Proof.
  induction d as [ | [k v] d IH ]; intros Hwf; [ constructor | ].
  apply wf_dict_cons in Hwf as (_ & Hv & Hwf). constructor; auto.
Qed.

(** Merging [b] a second time changes nothing, and neither does merging [b]
    into itself (what the second merge does where the first one stored a
    dictionary of [b] in [a]); by induction on the merged-in value. *)
Lemma merge_ok_wf : forall v, wf_val v = true -> merge_ok v.
Proof.
  induction v as [ | | | | | b IH ] using pyval_nested_ind;
    intros Hwf bd E; try discriminate.
  injection E as <-.
  assert (Hok : Forall (fun kv => merge_ok (snd kv)) b).
  { pose proof (wf_dict_Forall b Hwf) as Hall.
    rewrite Forall_forall in *. intros kv Hin. apply IH; auto. }
  split.
  - intros a. apply merge_fixed. intros key bv Hin.
    apply merge_rounds_fixed; auto using wf_dict_NoDup.
  - apply merge_fixed. intros key bv Hin.
    apply (merge_step_fixed key bv bv).
    + rewrite Forall_forall in Hok. apply (Hok (key, bv) Hin).
    + now apply dict_get_wf_in.
    + now left.
Qed.

(** C4.  Re-applying the merge changes nothing: for every dictionary [a] and
    every dictionary [b] (a Python dict, so without a repeated key),
    [merge(merge(a, b), b)] is [merge(a, b)]. *)
Theorem merge_idempotent (a b : dict) :
  wf_dict b = true -> merge (merge a b) b = merge a b.
Proof.
  intros Hwf. now apply (merge_ok_wf (PDict b) Hwf b eq_refl).
Qed.

Lemma merge_idempotent_witness :
  wf_dict merge_sample_b = true
  /\ merge (merge merge_sample_a merge_sample_b) merge_sample_b
     = merge merge_sample_a merge_sample_b.
Proof.
  split; [ reflexivity | apply (merge_idempotent merge_sample_a merge_sample_b) ].
  reflexivity.
Defined.

Example merge_sample :
  merge merge_sample_a merge_sample_b =
  [("user", PDict [("name", PStr "alice")]);
   ("cloud", PDict [("provider", PStr "aws"); ("region", PStr "us-east-1")]);
   ("port", PInt 1);
   ("tags", PList [PStr "x"])].
Proof. reflexivity. Qed.

(** ** PathCodec: lookup *)

Lemma py_getitem_raises v k e :
  py_getitem v k = Raise e -> e = TypeError \/ e = KeyError \/ e = IndexError.
Proof.
  destruct v as [ | | | s | l | d ], k as [ i | s' ]; simpl;
    try (intros [= <-]; tauto).
  - destruct (py_index _ i); [ discriminate | intros [= <-]; tauto ].
  - destruct (py_index l i); [ discriminate | intros [= <-]; tauto ].
  - destruct (dict_get s' d); [ discriminate | intros [= <-]; tauto ].
Qed.

Lemma py_getitem_modelled v k : py_getitem v k <> Unmodelled.
Proof.
  destruct v as [ | | | s | l | d ], k as [ i | s' ]; simpl; try discriminate.
  - destruct (py_index _ i); discriminate.
  - destruct (py_index l i); discriminate.
  - destruct (dict_get s' d); discriminate.
Qed.

(** The inner loop returns the resolved value, and the empty string for a
    path that resolves to nothing. *)
Lemma walk_resolve ks :
  forall v, walk v ks = Ok match resolve_segments v ks with
                           | Some w => w
                           | None => PStr ""
                           end.
Proof.
  induction ks as [ | k ks IH ]; intros v; [ reflexivity | ].
  simpl. destruct (py_getitem v (to_segment k)) as [ v' | e | ] eqn:E.
  - apply IH.
  - apply py_getitem_raises in E as [-> | [-> | ->] ]; reflexivity.
  - now apply py_getitem_modelled in E.
Qed.

Lemma get_candidates_first_truthy dct cands :
  get_candidates dct cands = Ok (first_truthy dct cands).
Proof.
  unfold first_truthy.
  induction cands as [ | c cands IH ]; [ reflexivity | ].
  simpl. rewrite walk_resolve. fold (resolve_path dct c). simpl.
  destruct (resolve_path dct c) as [ w | ]; simpl.
  - destruct (py_truthy w); [ reflexivity | exact IH ].
  - exact IH.
Qed.

(** C10.  [get_value_from_dict] returns the value of the first candidate
    path that resolves to a true value, and [None] when no candidate does;
    a candidate that resolves to a false value (0, [False], an empty list or
    map, an empty string, [None]) is passed over exactly as one that
    resolves to nothing. *)
Theorem get_value_from_dict_first_truthy (dct : pyval) (xkeys_list : string) :
  get_value_from_dict dct xkeys_list
  = Ok (first_truthy dct (py_split xkeys_list))
  /\ (forall c rest,
        resolves_truthy (resolve_path dct c) = false ->
        get_candidates dct (c :: rest) = get_candidates dct rest)
  /\ (forall cands,
        forallb (fun c => negb (resolves_truthy (resolve_path dct c))) cands
        = true ->
        get_candidates dct cands = Ok PNone).
Proof.
  split; [ apply get_candidates_first_truthy | split ].
  - intros c rest H. rewrite !get_candidates_first_truthy.
    unfold first_truthy. simpl. now rewrite H.
  - intros cands H. rewrite get_candidates_first_truthy. unfold first_truthy.
    induction cands as [ | c cands IH ]; [ reflexivity | ].
    simpl in *. apply andb_true_iff in H as [H1 H2].
    apply negb_true_iff in H1. rewrite H1. now apply IH.
Qed.

Lemma get_value_from_dict_first_truthy_witness :
  get_candidates get_sample_doc ["a"; "e.f.0.g"]
  = get_candidates get_sample_doc ["e.f.0.g"]
  /\ get_candidates get_sample_doc ["a"; "b"; "c"; "d"; "x.y"] = Ok PNone.
Proof.
  destruct (get_value_from_dict_first_truthy get_sample_doc "a b c d x.y")
    as (_ & Hskip & Hnone).
  split.
  - apply (Hskip "a" ["e.f.0.g"]). reflexivity.
  - apply (Hnone ["a"; "b"; "c"; "d"; "x.y"]). reflexivity.
Defined.

Example get_sample_falls_through :
  get_value_from_dict get_sample_doc "a b c d x.y e.f.0.g" = Ok (PStr "found")
  /\ get_value_from_dict get_sample_doc "a b c d" = Ok PNone
  /\ resolve_path get_sample_doc "a" = Some (PInt 0)
  /\ resolve_path get_sample_doc "x.y" = None.
Proof. repeat split; reflexivity. Qed.

(** ** Strings and the JSON decoder *)

Lemma append_assoc (a b c : string) : ((a ++ b) ++ c = a ++ (b ++ c))%string.
Proof. induction a as [ | x a IH ]; simpl; [ reflexivity | now rewrite IH ]. Qed.

Lemma append_nil_r (a : string) : (a ++ "")%string = a.
Proof. induction a as [ | x a IH ]; simpl; [ reflexivity | now rewrite IH ]. Qed.

Lemma length_append (a b : string) :
  String.length (a ++ b) = (String.length a + String.length b)%nat.
Proof. induction a as [ | x a IH ]; simpl; [ reflexivity | now rewrite IH ]. Qed.

Lemma snoc_append acc c s : (snoc acc c ++ s)%string = (acc ++ String c s)%string.
Proof. unfold snoc. now rewrite append_assoc. Qed.

(** *** The fuel of [json_loads] is enough *)

Lemma skip_ws_length s : (String.length (skip_ws s) <= String.length s)%nat.
Proof.
  induction s as [ | c s IH ]; simpl; [ lia | ].
  destruct (json_ws c); simpl; lia.
Qed.

Lemma skip_digits_length s : (String.length (skip_digits s) <= String.length s)%nat.
Proof.
  induction s as [ | c s IH ]; simpl; [ lia | ].
  destruct (is_digit c); simpl; lia.
Qed.

Lemma scan_digits_length s :
  forall acc, (String.length (snd (scan_digits s acc)) <= String.length s)%nat.
Proof.
  induction s as [ | c s IH ]; intros acc; cbn [scan_digits]; [ simpl; lia | ].
  destruct (is_digit c); [ specialize (IH (10 * acc + digit_val c)) | ];
    cbn [String.length snd] in *; lia.
Qed.

Lemma skip_fraction_length s :
  (String.length (skip_fraction s) <= String.length s)%nat.
Proof.
  destruct s as [ | c s ]; simpl; [ lia | ].
  destruct (Ascii.eqb c "." && starts_with_digit s); simpl; [ | lia ].
  pose proof (skip_digits_length s). lia.
Qed.

Lemma skip_exponent_length s :
  (String.length (skip_exponent s) <= String.length s)%nat.
Proof.
  destruct s as [ | c s ]; simpl; [ lia | ].
  destruct (Ascii.eqb c "e" || Ascii.eqb c "E"); simpl; [ | lia ].
  destruct s as [ | sg s ]; simpl; [ lia | ].
  destruct ((Ascii.eqb sg "+" || Ascii.eqb sg "-") && starts_with_digit s).
  - pose proof (skip_digits_length s). lia.
  - destruct (is_digit sg) eqn:E; simpl; [ | lia ].
    pose proof (skip_digits_length s). lia.
Qed.

Lemma drop_length n : forall s, (String.length (drop n s) <= String.length s)%nat.
Proof.
  induction n as [ | n IH ]; intros [ | c s ]; simpl; try lia.
  specialize (IH s). lia.
Qed.

Lemma drop_S_length n c s :
  (String.length (drop (S n) (String c s)) < String.length (String c s))%nat.
Proof. pose proof (drop_length n s). cbn [drop String.length]. lia. Qed.

Lemma scanstring_progress n :
  forall s acc exact, (String.length s <= n)%nat ->
    progress s (scanstring s acc exact).
Proof.
  induction n as [ | n IH ]; intros [ | c s ] acc exact Hn; simpl in *;
    try exact I; try lia.
  destruct (Ascii.eqb c dquote); [ simpl; lia | ].
  destruct (Ascii.eqb c backslash).
  - destruct s as [ | e s ]; [ exact I | ].
    destruct (Ascii.eqb e "u").
    + destruct s as [ | h1 [ | h2 [ | h3 [ | h4 s ] ] ] ]; try exact I.
      destruct (hex4 h1 h2 h3 h4); [ | exact I ].
      simpl in Hn.
      assert (Hs : (String.length s <= n)%nat) by lia.
      destruct (n0 <? 256)%N;
        [ specialize (IH s (snoc acc (ascii_of_N n0)) exact Hs)
        | specialize (IH s (snoc acc "?") false Hs) ];
        destruct (scanstring s _ _); simpl in *; auto; lia.
    + destruct (unescape e); [ | exact I ].
      simpl in Hn. assert (Hs : (String.length s <= n)%nat) by lia.
      specialize (IH s (snoc acc a) exact Hs).
      destruct (scanstring s _ _); simpl in *; auto; lia.
  - assert (Hs : (String.length s <= n)%nat) by lia.
    specialize (IH s (snoc acc c) exact Hs).
    destruct (scanstring s _ _); simpl in *; auto; lia.
Qed.

Lemma progress_le {A} (s s' : string) (r : scan A) :
  progress s r -> (String.length s <= String.length s')%nat -> progress s' r.
Proof. destruct r; simpl; auto; lia. Qed.

Lemma scan_unsigned_progress neg body : progress body (scan_unsigned neg body).
Proof.
  destruct body as [ | c rest ]; [ exact I | ]. unfold scan_unsigned.
  destruct (is_digit c) eqn:Ed; [ | exact I ].
  assert (Ha : forall n after,
            (String.length after <= String.length rest)%nat ->
            progress (String c rest)
              (let after' := skip_exponent (skip_fraction after) in
               if String.eqb after' after
               then Scan (PInt (if neg then - n else n)) true after
               else Scan PNone false after')).
  { intros n after Hle. cbv zeta.
    pose proof (skip_exponent_length (skip_fraction after)).
    pose proof (skip_fraction_length after).
    destruct (String.eqb _ after); simpl in *; lia. }
  destruct (Ascii.eqb c "0"); [ now apply Ha | ].
  cbn [scan_digits]. rewrite Ed.
  pose proof (scan_digits_length rest (10 * 0 + digit_val c)) as Hlen.
  destruct (scan_digits rest (10 * 0 + digit_val c)) as [n after].
  now apply Ha.
Qed.

Lemma scan_number_progress s : progress s (scan_number s).
Proof.
  destruct s as [ | c rest ]; [ exact I | ]. unfold scan_number.
  destruct (Ascii.eqb c "-"); [ | apply scan_unsigned_progress ].
  apply (progress_le rest); [ apply scan_unsigned_progress | simpl; lia ].
Qed.

Lemma scan_fuel f :
  (forall s, (2 * String.length s + 1 <= f)%nat -> progress s (scan_once f s))
  /\ (forall s pairs e, (2 * String.length s + 1 <= f)%nat ->
        progress s (members f s pairs e))
  /\ (forall s items e, (2 * String.length s + 2 <= f)%nat ->
        progress s (elements f s items e)).
Proof.
  induction f as [ | f (IHs & IHm & IHe) ];
    [ repeat split; intros; lia | ].
  split; [ | split ].
  - intros [ | c rest ] Hf; [ exact I | ]. cbn [scan_once]. simpl in Hf.
    pose proof (skip_ws_length rest) as Hws.
    destruct (Ascii.eqb c dquote).
    { pose proof (scanstring_progress _ rest "" true (le_n _)) as Hp.
      destruct (scanstring rest "" true); simpl in *; auto; lia. }
    destruct (Ascii.eqb c "{").
    { destruct (skip_ws rest) as [ | c1 rest1 ]; [ exact I | ]. simpl in Hws.
      destruct (Ascii.eqb c1 "}"); [ simpl; lia | ].
      destruct (Ascii.eqb c1 dquote); [ | exact I ].
      apply (progress_le rest1); [ apply IHm | simpl ]; lia. }
    destruct (Ascii.eqb c "[").
    { destruct (skip_ws rest) as [ | c1 rest1 ]; [ exact I | ]. simpl in Hws.
      destruct (Ascii.eqb c1 "]"); [ simpl; lia | ].
      apply (progress_le (String c1 rest1)); [ apply IHe | ]; simpl; lia. }
    destruct (String.prefix "null" _); [ apply drop_S_length | ].
    destruct (String.prefix "true" _); [ apply drop_S_length | ].
    destruct (String.prefix "false" _); [ apply drop_S_length | ].
    destruct (String.prefix "NaN" _); [ apply drop_S_length | ].
    destruct (String.prefix "Infinity" _); [ apply drop_S_length | ].
    destruct (String.prefix "-Infinity" _); [ apply drop_S_length | ].
    apply scan_number_progress.
  - intros s pairs e Hf. cbn [members].
    pose proof (scanstring_progress _ s "" e (le_n _)) as Hp.
    destruct (scanstring s "" e) as [ key e1 s1 | | ]; simpl in Hp; auto.
    pose proof (skip_ws_length s1) as Hw1.
    destruct (skip_ws s1) as [ | c2 s2 ]; [ exact I | ]. simpl in Hw1.
    destruct (Ascii.eqb c2 ":"); [ | exact I ].
    pose proof (skip_ws_length s2) as Hw2.
    pose proof (IHs (skip_ws s2) ltac:(lia)) as Hv.
    destruct (scan_once f (skip_ws s2)) as [ value e2 s3 | | ]; simpl in Hv; auto.
    cbv zeta.
    pose proof (skip_ws_length s3) as Hw3.
    destruct (skip_ws s3) as [ | c4 s4 ]; [ exact I | ]. simpl in Hw3.
    destruct (Ascii.eqb c4 "}"); [ simpl; lia | ].
    destruct (Ascii.eqb c4 ","); [ | exact I ].
    pose proof (skip_ws_length s4) as Hw4.
    destruct (skip_ws s4) as [ | c5 s5 ]; [ exact I | ]. simpl in Hw4.
    destruct (Ascii.eqb c5 dquote); [ | exact I ].
    apply (progress_le s5); [ apply IHm | ]; lia.
  - intros s items e Hf. cbn [elements].
    pose proof (IHs s ltac:(lia)) as Hv.
    destruct (scan_once f s) as [ value e1 s1 | | ]; simpl in Hv; auto.
    cbv zeta.
    pose proof (skip_ws_length s1) as Hw1.
    destruct (skip_ws s1) as [ | c2 s2 ]; [ exact I | ]. simpl in Hw1.
    destruct (Ascii.eqb c2 "]"); [ simpl; lia | ].
    destruct (Ascii.eqb c2 ","); [ | exact I ].
    pose proof (skip_ws_length s2) as Hw2.
    apply (progress_le (skip_ws s2)); [ apply IHe | ]; lia.
Qed.

(** [json_loads] never runs out of fuel: it returns a value, exact or not,
    or raises [JSONDecodeError], as [json.loads] does. *)
Lemma json_loads_fuel s :
  scan_once (2 * String.length s + 2) (skip_ws s) <> NoFuel.
Proof.
  pose proof (skip_ws_length s) as Hws.
  destruct (scan_fuel (2 * String.length s + 2)) as (Hs & _ & _).
  specialize (Hs (skip_ws s) ltac:(lia)).
  intros E. now rewrite E in Hs.
Qed.

Lemma json_loads_raises s e : json_loads s = Raise e -> e = JSONDecodeError.
Proof.
  unfold json_loads.
  destruct (scan_once _ _) as [ v ex rest | | ]; try discriminate.
  - destruct (skip_ws rest); [ destruct ex; discriminate | now intros [= <-] ].
  - now intros [= <-].
Qed.

(** A plain text is read up to the closing quote as it stands. *)
Lemma scanstring_plain s :
  plain_text s = true ->
  forall acc exact rest,
    scanstring (s ++ String dquote rest) acc exact
    = Scan (acc ++ s)%string exact rest.
Proof.
  induction s as [ | c s IH ]; intros Hp acc exact rest; simpl.
  - now rewrite append_nil_r.
  - simpl in Hp. apply andb_true_iff in Hp as [Hc Hs].
    apply andb_true_iff in Hc as [Hq Hb].
    apply negb_true_iff in Hq, Hb. rewrite Hq, Hb.
    rewrite IH by assumption. now rewrite snoc_append.
Qed.

(** The innermost object: one key with a quoted text. *)
Lemma scan_once_quoted k text tail f :
  plain_text k = true -> plain_text text = true ->
  scan_once (S (S (S f))) (fmt_quoted k text ++ tail)
  = Scan (PDict [(k, PStr text)]) true tail.
Proof.
  intros Hk Ht. unfold fmt_quoted.
  cbn [append scan_once Ascii.eqb dquote]. simpl skip_ws.
  cbn [members Ascii.eqb dquote].
  rewrite !append_assoc. simpl append.
  rewrite (scanstring_plain k Hk). simpl.
  rewrite !append_assoc. simpl append.
  rewrite (scanstring_plain text Ht). reflexivity.
Qed.

(** An object with one key around a value that is already read. *)
Lemma scan_once_raw k body tail f v :
  plain_text k = true ->
  skip_ws (body ++ " }" ++ tail) = (body ++ " }" ++ tail)%string ->
  scan_once f (body ++ " }" ++ tail) = Scan v true (" }" ++ tail)%string ->
  scan_once (S (S f)) (fmt_raw k body ++ tail) = Scan (PDict [(k, v)]) true tail.
Proof.
  intros Hk Hws Hbody. unfold fmt_raw.
  cbn [append scan_once Ascii.eqb dquote]. simpl skip_ws.
  cbn [members Ascii.eqb dquote].
  rewrite !append_assoc. simpl append.
  rewrite (scanstring_plain k Hk). simpl.
  rewrite !append_assoc. simpl append in *.
  rewrite Hws, Hbody. reflexivity.
Qed.

Lemma nest_text_head ks k text :
  exists s, nest_text ks (fmt_quoted k text) = String "{" s.
Proof. destruct ks; simpl; eexists; reflexivity. Qed.

Lemma scan_once_nest ks k text :
  forallb plain_text ks = true -> plain_text k = true -> plain_text text = true ->
  forall tail f,
    scan_once (2 * List.length ks + 3 + f) (nest_text ks (fmt_quoted k text) ++ tail)
    = Scan (nest_val ks (PDict [(k, PStr text)])) true tail.
Proof.
  intros Hks Hk Ht. induction ks as [ | k0 ks IH ]; intros tail f.
  - apply scan_once_quoted; assumption.
  - simpl in Hks. apply andb_true_iff in Hks as [Hk0 Hks].
    replace (2 * List.length (k0 :: ks) + 3 + f)%nat
      with (S (S (2 * List.length ks + 3 + f)))%nat by (simpl; lia).
    simpl nest_text. simpl nest_val.
    apply scan_once_raw; auto.
    destruct (nest_text_head ks k text) as [s ->]. reflexivity.
Qed.

Lemma nest_text_length ks inner :
  (List.length ks + String.length inner <= String.length (nest_text ks inner))%nat.
Proof.
  induction ks as [ | k ks IH ]; simpl; [ lia | ].
  rewrite !length_append. simpl. rewrite !length_append. simpl. lia.
Qed.

Lemma json_loads_nest ks k text :
  forallb plain_text ks = true -> plain_text k = true -> plain_text text = true ->
  json_loads (nest_text ks (fmt_quoted k text))
  = Ok (nest_val ks (PDict [(k, PStr text)])).
Proof.
  intros Hks Hk Ht. unfold json_loads.
  pose proof (nest_text_length ks (fmt_quoted k text)) as Hlen.
  assert (Hq : (1 <= String.length (fmt_quoted k text))%nat)
    by (unfold fmt_quoted; simpl; lia).
  destruct (nest_text_head ks k text) as [s Hs].
  replace (skip_ws (nest_text ks (fmt_quoted k text)))
    with (nest_text ks (fmt_quoted k text) ++ "")%string
    by (rewrite append_nil_r, Hs; reflexivity).
  set (n := String.length (nest_text ks (fmt_quoted k text))) in *.
  replace (2 * n + 2)%nat
    with (2 * List.length ks + 3 + (2 * n - 2 * List.length ks - 1))%nat by lia.
  rewrite scan_once_nest by assumption. reflexivity.
Qed.

(** The text that [put_value_into_dict] builds is the last segment's object
    wrapped in the other segments. *)
Lemma fold_left_nest ks inner :
  fold_left (fun data xkey => fmt_raw xkey data) (rev ks) inner = nest_text ks inner.
Proof.
  induction ks as [ | k ks IH ]; [ reflexivity | ].
  simpl rev. rewrite fold_left_app. simpl. now rewrite IH.
Qed.

Lemma put_json_data_nest key_str v :
  put_json_data key_str v
  = nest_text (removelast (split_on "." key_str))
      match v with
      | PDict _ => fmt_raw (last (split_on "." key_str) "") (json_dumps v)
      | _ => fmt_quoted (last (split_on "." key_str) "") (py_str v)
      end.
Proof.
  unfold put_json_data. rewrite fold_left_nest.
  destruct (split_on "." key_str) as [ | k [ | k' ks ] ]; reflexivity.
Qed.

Lemma split_on_go_nonempty sep s : forall w, split_on_go sep s w <> [].
Proof.
  induction s as [ | c s IH ]; intros w; simpl; [ discriminate | ].
  destruct (Ascii.eqb c sep); [ discriminate | apply IH ].
Qed.

Lemma walk_nest ks :
  forallb (fun k => match py_int k with None => true | Some _ => false end) ks = true ->
  forall inner rest, walk (nest_val ks inner) (ks ++ rest) = walk inner rest.
Proof.
  induction ks as [ | k ks IH ]; intros Hks inner rest; [ reflexivity | ].
  simpl in Hks. apply andb_true_iff in Hks as [Hk Hks].
  simpl. unfold to_segment. destruct (py_int k); [ discriminate | ].
  simpl. rewrite String.eqb_refl. now apply IH.
Qed.

Lemma forallb_and {A} (p q : A -> bool) l :
  forallb (fun x => p x && q x) l = forallb p l && forallb q l.
Proof.
  induction l as [ | x l IH ]; simpl; [ reflexivity | ].
  rewrite IH. destruct (p x), (q x), (forallb p l); reflexivity.
Qed.

(** On a plain path a value that is not a dictionary comes back as its
    string form. *)
Lemma put_then_get_str key_str v :
  plain_path key_str = true ->
  (forall d, v <> PDict d) ->
  plain_text (py_str v) = true -> py_str v <> "" ->
  put_value_into_dict key_str v
  = Ok (nest_val (split_on "." key_str) (PStr (py_str v)))
  /\ put_then_get key_str v = Ok (PStr (py_str v)).
Proof.
  intros Hpath Hnd Hplain Hne.
  unfold plain_path in Hpath. apply andb_true_iff in Hpath as [Hsplit Hsegs].
  rewrite forallb_and in Hsegs. apply andb_true_iff in Hsegs as [Hpl Hint].
  assert (Hsegs : split_on "." key_str
                  = removelast (split_on "." key_str)
                    ++ [last (split_on "." key_str) ""]).
  { apply app_removelast_last. apply split_on_go_nonempty. }
  assert (Hput : put_value_into_dict key_str v
                 = Ok (nest_val (split_on "." key_str) (PStr (py_str v)))).
  { unfold put_value_into_dict. rewrite put_json_data_nest.
    replace (match v with
             | PDict _ => fmt_raw (last (split_on "." key_str) "") (json_dumps v)
             | _ => fmt_quoted (last (split_on "." key_str) "") (py_str v)
             end)
      with (fmt_quoted (last (split_on "." key_str) "") (py_str v))
      by (destruct v; try reflexivity; now destruct (Hnd d)).
    rewrite Hsegs in Hpl. rewrite forallb_app in Hpl.
    apply andb_true_iff in Hpl as [Hinit Hlast]. simpl in Hlast.
    rewrite andb_true_r in Hlast.
    rewrite json_loads_nest by assumption.
    rewrite Hsegs at 3.
    clear. induction (removelast (split_on "." key_str)) as [ | k ks IH ];
      simpl; [ reflexivity | ]. injection IH as ->. reflexivity. }
  split; [ exact Hput | ].
  unfold put_then_get. rewrite Hput. simpl.
  unfold get_value_from_dict.
  destruct (py_split key_str) as [ | k [ | ? ? ] ]; try discriminate.
  apply String.eqb_eq in Hsplit as ->. simpl.
  rewrite <- (app_nil_r (split_on "." key_str)) at 2.
  rewrite walk_nest by assumption. simpl.
  destruct (String.eqb_spec (py_str v) ""); [ contradiction | reflexivity ].
Qed.

(** ** Schema mapping *)

Lemma prefix_refl s : String.prefix s s = true.
Proof.
  induction s as [ | c s IH ]; simpl; [ reflexivity | ].
  destruct (ascii_dec c c); [ exact IH | contradiction ].
Qed.

Lemma ends_with_contains suffix s :
  ends_with suffix s = true -> str_contains suffix s = true.
Proof.
  induction s as [ | c s IH ]; cbn [ends_with str_contains]; intros H.
  - rewrite orb_false_r in *. apply String.eqb_eq in H as <-. reflexivity.
  - apply orb_true_iff in H as [H | H].
    + apply String.eqb_eq in H as <-. now rewrite prefix_refl.
    + rewrite (IH H). apply orb_true_r.
Qed.

(** ** SourceAdapter: compression sniffing *)

Lemma bytes_startswith_firstn prefix :
  forall n data, (List.length prefix <= n)%nat ->
    bytes_startswith prefix (firstn n data) = bytes_startswith prefix data.
Proof.
  induction prefix as [ | p prefix IH ]; intros n data Hn; [ reflexivity | ].
  destruct n as [ | n ]; [ simpl in Hn; lia | ].
  destruct data as [ | d data ]; [ reflexivity | ].
  simpl. rewrite IH by (simpl in Hn; lia). reflexivity.
Qed.

Lemma no_magic_firstn data : no_magic (firstn 16 data) = no_magic data.
Proof.
  unfold no_magic. now rewrite !bytes_startswith_firstn by (simpl; lia).
Qed.

Lemma delete_textchars_all data :
  forallb is_textchar data = true -> delete_textchars data = [].
Proof.
  induction data as [ | b l IH ]; [ reflexivity | ].
  simpl. intros H. apply andb_true_iff in H as [Hb Hl].
  rewrite Hb. simpl. now apply IH.
Qed.

Lemma delete_textchars_some data :
  forallb is_textchar data = false -> exists b l, delete_textchars data = b :: l.
Proof.
  induction data as [ | b l IH ]; [ discriminate | ].
  simpl. destruct (is_textchar b); simpl; intros H; [ now apply IH | eauto ].
Qed.

(** C9 (against the claim).  Two objects without one of the three magic
    numbers at their head.  For the two bytes [00 41], [rawdata] raises: the
    NUL byte makes [get_mime] answer ['binary'], which no branch of
    [rawdata] takes.  The line [GET /index.html 200] is opened as plain
    text, and with the file format [json] splitting it into entries raises
    [JSONDecodeError], since the line is no JSON text ([json_loads] stands
    for the decoder). *)
Lemma batch_without_magic_raises :
  (no_magic [Byte.x00; Byte.x41] = true
   /\ get_mime [Byte.x00; Byte.x41] = "binary"
   /\ forall zip_first_name,
        rawdata zip_first_name [Byte.x00; Byte.x41]
        = Raise (Exception "unknown file format"))
  /\ (no_magic s3_plain_line = true
      /\ (forall zip_first_name,
            rawdata zip_first_name s3_plain_line = Ok (PlainText s3_plain_line))
      /\ forall zip_first_name,
           s3_logdata_list s3_sample_search s3_json_sections "logs/app/1.log"
             (Ok s3_plain_line) zip_first_name read_ascii_text json_loads
           = ([], Raise JSONDecodeError)).
Proof. repeat split. Qed.

(** C9 (amended).  For an object without one of the three magic numbers at
    its head.  When each of its first 16 bytes is a text byte (7..10, 12,
    13, 27, or 32..255 other than 127), [get_mime] answers ['text'],
    [rawdata] returns the object as plain text, and [logdata_list] splits
    the text into entries without raising for the file formats [text] (with
    an integer for the number of header lines) and [csv]: the entries are
    the lines after the header lines, each stripped of the white space at
    its ends.  For the file format [json] a first line that the decoder
    rejects ends the list with the decoder's exception.  Otherwise, with a
    byte among the first 16 that is no text byte, [get_mime] answers
    ['binary'] and [rawdata] raises [Exception('unknown file format')]. *)
Theorem rawdata_without_magic (zip_first_name : bytes -> res string)
    (object_bytes : bytes) :
  no_magic object_bytes = true ->
  (forallb is_textchar (firstn 16 object_bytes) = true ->
   get_mime (firstn 16 object_bytes) = "text"
   /\ rawdata zip_first_name object_bytes = Ok (PlainText object_bytes)
   /\ forall (re_search_key : string -> string -> res bool)
         (sections : list (string * config)) (s3key : string)
         (read_text : body -> res string) (json_decode : string -> res pyval)
         (file_format text : string),
        s3_file_format re_search_key sections s3key = Ok file_format ->
        read_text (PlainText object_bytes) = Ok text ->
        (str_contains "text" file_format = true ->
         forall number n,
           s3_config_item re_search_key sections s3key "text_header_line_number"
           = Ok number ->
           py_int number = Some n ->
           s3_logdata_list re_search_key sections s3key (Ok object_bytes)
             zip_first_name read_text json_decode
           = yields (map (fun logdata => PStr (py_strip logdata))
                       (py_slice_from (readlines text) n)))
        /\ (str_contains "text" file_format = false ->
            str_contains "csv" file_format = true ->
            s3_logdata_list re_search_key sections s3key (Ok object_bytes)
              zip_first_name read_text json_decode
            = yields (map (fun logdata => PStr (py_strip logdata))
                        (py_slice_from (readlines text) 1)))
        /\ (str_contains "text" file_format = false ->
            str_contains "csv" file_format = false ->
            str_contains "json" file_format = true ->
            forall line rest e,
              readlines text = line :: rest ->
              json_decode line = Raise e ->
              s3_logdata_list re_search_key sections s3key (Ok object_bytes)
                zip_first_name read_text json_decode
              = ([], Raise e)))
  /\ (forallb is_textchar (firstn 16 object_bytes) = false ->
      get_mime (firstn 16 object_bytes) = "binary"
      /\ rawdata zip_first_name object_bytes
         = Raise (Exception "unknown file format")).
Proof.
  intros Hmagic. rewrite <- no_magic_firstn in Hmagic.
  assert (Hraw : forallb is_textchar (firstn 16 object_bytes) = true ->
                 get_mime (firstn 16 object_bytes) = "text"
                 /\ rawdata zip_first_name object_bytes
                    = Ok (PlainText object_bytes)).
  { unfold rawdata, get_mime. unfold no_magic in Hmagic.
    apply andb_true_iff in Hmagic as [Hm Hb].
    apply andb_true_iff in Hm as [Hg Hz].
    apply negb_true_iff in Hg, Hz, Hb. rewrite Hg, Hz, Hb.
    intros Htext. rewrite (delete_textchars_all _ Htext). split; reflexivity. }
  split; intros Htext.
  - destruct (Hraw Htext) as [Hmime Hbody]. split; [ exact Hmime | ].
    split; [ exact Hbody | ].
    intros re_search_key sections s3key read_text json_decode file_format text
      Hformat Hread.
    assert (Hlines : s3_readlines (Ok object_bytes) zip_first_name read_text
                     = Ok (readlines text)).
    { unfold s3_readlines. cbn [bind]. rewrite Hbody. cbn [bind].
      rewrite Hread. reflexivity. }
    unfold s3_logdata_list. rewrite Hformat, Hlines.
    split; [ | split ].
    + intros -> number n ->. cbn [bind]. intros ->. reflexivity.
    + intros -> ->. reflexivity.
    + intros -> -> -> line rest e -> Hdecode. cbn [s3_json_lines].
      unfold s3_json_records. rewrite Hdecode. reflexivity.
  - unfold rawdata, get_mime. unfold no_magic in Hmagic.
    apply andb_true_iff in Hmagic as [Hm Hb].
    apply andb_true_iff in Hm as [Hg Hz].
    apply negb_true_iff in Hg, Hz, Hb. rewrite Hg, Hz, Hb.
    destruct (delete_textchars_some _ Htext) as (b & l & ->). split; reflexivity.
Qed.

Lemma rawdata_without_magic_witness :
  get_mime (firstn 16 rawdata_sample) = "text"
  /\ rawdata (fun _ => Raise (Exception "BadZipFile")) rawdata_sample
     = Ok (PlainText rawdata_sample)
  /\ s3_logdata_list s3_sample_search s3_sample_sections
       "AWSLogs/1/vpcflowlogs/x.log" (Ok rawdata_sample)
       (fun _ => Raise (Exception "BadZipFile")) read_ascii_text json_loads
     = yields (map (fun logdata => PStr (py_strip logdata))
                 (py_slice_from (readlines (string_of_list_byte rawdata_sample)) 1)).
Proof.
  destruct (rawdata_without_magic (fun _ => Raise (Exception "BadZipFile"))
              rawdata_sample eq_refl) as [Htext _].
  destruct (Htext eq_refl) as (Hmime & Hbody & Hsplit).
  split; [ exact Hmime | split; [ exact Hbody | ] ].
  destruct (Hsplit s3_sample_search s3_sample_sections
              "AWSLogs/1/vpcflowlogs/x.log" read_ascii_text json_loads "text"
              (string_of_list_byte rawdata_sample) eq_refl eq_refl)
    as (Hlines & _).
  exact (Hlines eq_refl "1" 1 eq_refl eq_refl).
Defined.

(** ** Index naming *)

(** C5 (against the claim).  With the rotation policy [none] the index name
    is not the base name: [none] is none of the words that [indexname]
    looks for, so the yearly suffix of the last branch is appended. *)
Lemma indexname_none_has_suffix :
  indexname (index_sample_config "none") (hours 9)
    index_sample_instant index_sample_instant
  = Ok "log-aws-cloudtrail-2019"
  /\ index_sample_config "none" "index_name" = Some "log-aws-cloudtrail".
Proof. split; vm_compute; reflexivity. Qed.

(** C5 (amended).  The policy that leaves the base name unchanged is [auto]:
    for every configuration whose rotation policy contains [auto] the index
    name is the configured base name, whatever the timestamps.  The policy
    [none] gets the yearly suffix: a hyphen and the year of the driving
    timestamp as [%Y] writes it. *)
Theorem indexname_auto_unchanged (logconfig : config) (index_tz : Z)
    (event_ingested timestamp : datetime) (name rotation : string) :
  logconfig "index_name" = Some name ->
  logconfig "index_rotation" = Some rotation ->
  (str_contains "auto" rotation = true ->
   indexname logconfig index_tz event_ingested timestamp = Ok name)
  /\ (rotation = "none" ->
      forall index_dt,
        index_datetime logconfig index_tz event_ingested timestamp = Ok index_dt ->
        indexname logconfig index_tz event_ingested timestamp
        = Ok (name ++ "-" ++ strftime_Y index_dt)%string).
Proof.
  intros Hname Hrot. unfold indexname, config_item. rewrite Hname, Hrot. simpl.
  split.
  - now intros ->.
  - intros -> index_dt ->. reflexivity.
Qed.

Lemma indexname_auto_unchanged_witness :
  indexname (index_sample_config "auto") (hours 9)
    index_sample_instant index_sample_instant = Ok "log-aws-cloudtrail"
  /\ indexname (index_sample_config "none") (hours 9)
       index_sample_instant index_sample_instant
     = Ok ("log-aws-cloudtrail" ++ "-"
             ++ strftime_Y (mk_datetime 2019 1 1 5 0 0 0 (Some (hours 9))))%string.
Proof.
  split.
  - apply (indexname_auto_unchanged (index_sample_config "auto") (hours 9)
             index_sample_instant index_sample_instant
             "log-aws-cloudtrail" "auto"); reflexivity.
  - apply (indexname_auto_unchanged (index_sample_config "none") (hours 9)
             index_sample_instant index_sample_instant
             "log-aws-cloudtrail" "none");
      vm_compute; reflexivity.
Defined.

(** C6 (against the claim).  For the first of January 2019, a Tuesday, the
    weekly suffix is [-2019-w00], while the ISO week of that day is week
    1. *)
Lemma indexname_weekly_not_iso :
  indexname (index_sample_config "weekly") (hours 9)
    index_sample_instant index_sample_instant
  = Ok "log-aws-cloudtrail-2019-w00"
  /\ index_datetime (index_sample_config "weekly") (hours 9)
       index_sample_instant index_sample_instant
     = Ok (mk_datetime 2019 1 1 5 0 0 0 (Some (hours 9)))
  /\ iso_week (mk_datetime 2019 1 1 5 0 0 0 (Some (hours 9))) = 1.
Proof. repeat split; vm_compute; reflexivity. Qed.

Lemma valid_fields_bounds y m d hh mm ss us :
  valid_fields y m d hh mm ss us = true ->
  1 <= y <= 9999 /\ 1 <= m <= 12 /\ 1 <= d <= days_in_month y m
  /\ 0 <= hh <= 23 /\ 0 <= mm <= 59 /\ 0 <= ss <= 59 /\ 0 <= us <= 999999.
Proof.
  unfold valid_fields. intros H.
  repeat (apply andb_true_iff in H as [H ?]).
  repeat match goal with
         | H : (_ <=? _) = true |- _ => apply Z.leb_le in H
         end.
  lia.
Qed.

Lemma month_cases m :
  1 <= m <= 12 ->
  m = 1 \/ m = 2 \/ m = 3 \/ m = 4 \/ m = 5 \/ m = 6 \/ m = 7 \/ m = 8 \/ m = 9
  \/ m = 10 \/ m = 11 \/ m = 12.
Proof. lia. Qed.

(** The day of the year of a date lies in 1..366. *)
Lemma yday_bounds dt : valid_datetime dt = true -> 1 <= yday dt <= 366.
Proof.
  unfold valid_datetime. intros H.
  apply valid_fields_bounds in H as (_ & Hm & Hd & _).
  unfold yday, days_before_month. revert Hd. unfold days_in_month.
  destruct (month_cases _ Hm) as [E | [E | [E | [E | [E | [E | [E | [E
    | [E | [E | [E | E] ] ] ] ] ] ] ] ] ] ]; rewrite E;
    cbv [nth Z.to_nat Pos.to_nat Pos.iter_op Init.Nat.add Z.eqb Z.ltb Z.compare
         Pos.compare Pos.compare_cont Pos.eqb andb];
    destruct (is_leap (year dt)); lia.
Qed.

(** C6 (amended).  With the rotation policy [weekly] the index name is the
    base name followed by [-YYYY-wWW], where the year and the week are those
    of the driving timestamp in the rotation zone, [YYYY] is the year as
    [%Y] writes it and [WW] is the two-digit week number of [%W]: weeks start on Monday, and the days of the year
    before its first Monday are in week 00; it lies in 00..53. *)
Theorem indexname_weekly_monday_first (logconfig : config) (index_tz : Z)
    (event_ingested timestamp : datetime) (name : string) (index_dt : datetime) :
  logconfig "index_name" = Some name ->
  logconfig "index_rotation" = Some "weekly" ->
  index_datetime logconfig index_tz event_ingested timestamp = Ok index_dt ->
  indexname logconfig index_tz event_ingested timestamp
  = Ok (name ++ "-" ++ strftime_Y index_dt ++ "-w"
             ++ pad_left 2 (dec (week_monday_first index_dt)))%string
  /\ (valid_datetime index_dt = true ->
      0 <= week_monday_first index_dt <= 53
      /\ (week_monday_first index_dt = 0 <-> yday index_dt - 1 < weekday index_dt)).
Proof.
  intros Hname Hrot Hdt. split.
  - unfold indexname, config_item. rewrite Hname, Hrot, Hdt. reflexivity.
  - intros Hvalid. pose proof (yday_bounds _ Hvalid) as Hy.
    unfold week_monday_first.
    assert (Hw : 0 <= weekday index_dt < 7) by (apply Z.mod_pos_bound; lia).
    repeat split; intros; Z.div_mod_to_equations; lia.
Qed.

Lemma indexname_weekly_monday_first_witness :
  indexname (index_sample_config "weekly") (hours 9)
    index_sample_instant index_sample_instant
  = Ok ("log-aws-cloudtrail" ++ "-"
          ++ strftime_Y (mk_datetime 2019 1 1 5 0 0 0 (Some (hours 9))) ++ "-w"
          ++ pad_left 2 (dec (week_monday_first
                                (mk_datetime 2019 1 1 5 0 0 0 (Some (hours 9))))))%string
  /\ (valid_datetime (mk_datetime 2019 1 1 5 0 0 0 (Some (hours 9))) = true ->
      0 <= week_monday_first (mk_datetime 2019 1 1 5 0 0 0 (Some (hours 9))) <= 53
      /\ (week_monday_first (mk_datetime 2019 1 1 5 0 0 0 (Some (hours 9))) = 0
          <-> yday (mk_datetime 2019 1 1 5 0 0 0 (Some (hours 9))) - 1
              < weekday (mk_datetime 2019 1 1 5 0 0 0 (Some (hours 9))))).
Proof.
  apply (indexname_weekly_monday_first (index_sample_config "weekly") (hours 9)
           index_sample_instant index_sample_instant "log-aws-cloudtrail"
           (mk_datetime 2019 1 1 5 0 0 0 (Some (hours 9))));
    vm_compute; reflexivity.
Defined.

(** ** TimestampResolver *)

Lemma of_local_us_tzinfo t tz dt : of_local_us t tz = Ok dt -> tzinfo dt = tz.
Proof.
  unfold of_local_us.
  destruct ((0 <? t / US_PER_DAY) && (t / US_PER_DAY <=? MAXORDINAL));
    [ | discriminate ].
  destruct (ord2ymd (t / US_PER_DAY)) as [ [y m] d ]. now intros [= <-].
Qed.

Lemma add_us_tzinfo dt delta dt' :
  add_us dt delta = Ok dt' -> tzinfo dt' = tzinfo dt.
Proof. apply of_local_us_tzinfo. Qed.

Lemma fromtimestamp_tzinfo t tz dt :
  fromtimestamp t tz = Ok dt -> tzinfo dt = Some tz.
Proof.
  unfold fromtimestamp.
  destruct (timestamp_parts t) as [ [sec us] | | ]; try discriminate.
  cbn [bind].
  destruct ((- 2 ^ 31 <=? gmtime_year sec - 1900)
            && (gmtime_year sec - 1900 <? 2 ^ 31)); [ | discriminate ].
  destruct ((0 <? EPOCH_ORDINAL + sec / 86400)
            && (EPOCH_ORDINAL + sec / 86400 <=? MAXORDINAL)); [ | discriminate ].
  destruct (of_local_us _ (Some tz)) as [ utc | | ] eqn:E; try discriminate.
  cbn [bind]. intros H. apply add_us_tzinfo in H. rewrite H.
  now apply of_local_us_tzinfo in E.
Qed.

Lemma epoch_sample_seconds :
  py_float (PInt 1700000000) = Ok 1700000000%float
  /\ PrimFloat.ltb 1000000000000%float 1700000000%float = false.
Proof. split; vm_compute; reflexivity. Qed.

Lemma epoch_sample_milliseconds :
  py_float (PInt 1700000000000) = Ok 1700000000000%float
  /\ PrimFloat.ltb 1000000000000%float 1700000000000%float = true
  /\ PrimFloat.div 1700000000000%float 1000%float = 1700000000%float.
Proof. repeat split; vm_compute; reflexivity. Qed.

(** On a float that is not negative the comparison of the source,
    [epoch > 1000000000000], is a comparison of its magnitude. *)
Lemma magnitude_of_nonnegative (x : float) :
  PrimFloat.leb 0%float x = true ->
  PrimFloat.ltb 1000000000000%float (PrimFloat.abs x)
  = PrimFloat.ltb 1000000000000%float x.
Proof.
  rewrite FloatAxioms.leb_spec, !FloatAxioms.ltb_spec, FloatAxioms.abs_spec.
  replace (Prim2SF 0%float) with (S754_zero false) by (vm_compute; reflexivity).
  destruct (Prim2SF x) as [ [ | ] | [ | ] | | [ | ] m e ];
    try discriminate; reflexivity.
Qed.

(** A float below zero is not greater than [1000000000000], whatever its
    magnitude. *)
Lemma negative_not_greater (x : float) :
  PrimFloat.ltb x 0%float = true ->
  PrimFloat.ltb 1000000000000%float x = false.
Proof.
  rewrite !FloatAxioms.ltb_spec.
  replace (Prim2SF 0%float) with (S754_zero false) by (vm_compute; reflexivity).
  replace (Prim2SF 1000000000000%float)
    with (S754_finite false 8192000000000000 (-13))
    by (vm_compute; reflexivity).
  destruct (Prim2SF x) as [ [ | ] | [ | ] | | [ | ] m e ];
    try discriminate; reflexivity.
Qed.




Lemma valid_fields_intro y m d hh mm ss us :
  1 <= y <= 9999 -> 1 <= m <= 12 -> 1 <= d <= days_in_month y m ->
  0 <= hh <= 23 -> 0 <= mm <= 59 -> 0 <= ss <= 59 -> 0 <= us <= 999999 ->
  valid_fields y m d hh mm ss us = true.
Proof.
  intros. unfold valid_fields.
  repeat (apply andb_true_iff; split); apply Z.leb_le; lia.
Qed.

Lemma div_step_4 y : y / 4 = (y - 1) / 4 + (if y mod 4 =? 0 then 1 else 0).
Proof. destruct (Z.eqb_spec (y mod 4) 0); Z.div_mod_to_equations; lia. Qed.

Lemma div_step_100 y :
  y / 100 = (y - 1) / 100 + (if y mod 100 =? 0 then 1 else 0).
Proof. destruct (Z.eqb_spec (y mod 100) 0); Z.div_mod_to_equations; lia. Qed.

Lemma div_step_400 y :
  y / 400 = (y - 1) / 400 + (if y mod 400 =? 0 then 1 else 0).
Proof. destruct (Z.eqb_spec (y mod 400) 0); Z.div_mod_to_equations; lia. Qed.

Lemma mod_400_100 y : y mod 400 = 0 -> y mod 100 = 0.
Proof. intros H. Z.div_mod_to_equations. lia. Qed.

Lemma mod_100_4 y : y mod 100 = 0 -> y mod 4 = 0.
Proof. intros H. Z.div_mod_to_equations. lia. Qed.

Lemma days_before_year_succ y :
  days_before_year (y + 1)
  = days_before_year y + (if is_leap y then 366 else 365).
Proof.
  unfold days_before_year, is_leap. cbv zeta.
  replace (y + 1 - 1) with y by lia.
  rewrite (div_step_4 y), (div_step_100 y), (div_step_400 y).
  destruct (Z.eqb_spec (y mod 4) 0) as [H4 | H4],
    (Z.eqb_spec (y mod 100) 0) as [H100 | H100],
    (Z.eqb_spec (y mod 400) 0) as [H400 | H400]; simpl; try lia;
    try (apply mod_400_100 in H400; contradiction);
    try (apply mod_100_4 in H100; contradiction).
Qed.

Lemma days_before_month_nonneg y m : 1 <= m <= 12 -> 0 <= days_before_month y m.
Proof.
  intros Hm. unfold days_before_month.
  destruct (month_cases _ Hm) as [E | [E | [E | [E | [E | [E | [E | [E
    | [E | [E | [E | E] ] ] ] ] ] ] ] ] ] ]; rewrite E;
    cbv [nth Z.to_nat Pos.to_nat Pos.iter_op Init.Nat.add Z.eqb Z.ltb Z.compare
         Pos.compare Pos.compare_cont Pos.eqb andb];
    destruct (is_leap y); lia.
Qed.

(** Only the 29th of February exists in one year and not in the next. *)
Lemma retry_is_leap_day f y tz cand :
  1 <= y <= 9999 ->
  syslog_datetime f y tz = Raise ValueError ->
  syslog_datetime f (y - 1) tz = Ok cand ->
  f_month f = 2 /\ f_day f = 29 /\ is_leap (y - 1) = true
  /\ cand = mk_datetime (y - 1) 2 29 (f_hour f) (f_minute f) (f_second f)
              (f_microsecond f) (Some tz).
Proof.
  intros Hy. unfold syslog_datetime, datetime_new.
  destruct (valid_fields y _ _ _ _ _ _) eqn:E1; [ discriminate | intros _ ].
  destruct (valid_fields (y - 1) _ _ _ _ _ _) eqn:E2; [ | discriminate ].
  intros [= <-].
  apply valid_fields_bounds in E2 as (Hy' & Hm & Hd & Hh & Hmi & Hs & Hus).
  assert (Hnot : ~ f_day f <= days_in_month y (f_month f)).
  { intros Hle. rewrite valid_fields_intro in E1; auto; try discriminate; lia. }
  revert Hd Hnot. unfold days_in_month.
  destruct (Z.eqb_spec (f_month f) 2) as [E | E]; simpl; [ | lia ].
  rewrite E. simpl.
  destruct (is_leap (y - 1)), (is_leap y); intros; try lia.
  assert (Hd29 : f_day f = 29) by lia. rewrite Hd29. auto.
Qed.

Lemma local_us_bounds dt :
  valid_datetime dt = true ->
  ymd2ord (year dt) (month dt) (day dt) * US_PER_DAY <= local_us dt
  < (ymd2ord (year dt) (month dt) (day dt) + 1) * US_PER_DAY.
Proof.
  unfold valid_datetime. intros H.
  apply valid_fields_bounds in H as (_ & _ & _ & Hh & Hm & Hs & Hus).
  unfold local_us, US_PER_DAY, US_PER_SECOND. lia.
Qed.

(** A candidate built with the year before the reference year, a 29th of
    February, is not later than the reference instant. *)
Lemma retry_not_later now tz f cand :
  valid_datetime now = true -> tzinfo now = Some 0 ->
  - hours 24 < tz < hours 24 ->
  syslog_datetime f (year now) tz = Raise ValueError ->
  syslog_datetime f (year now - 1) tz = Ok cand ->
  instant cand < instant now.
Proof.
  intros Hnow Hutc Htz E1 E2.
  pose proof (local_us_bounds now Hnow) as Hlow.
  pose proof Hnow as Hb. unfold valid_datetime in Hb.
  apply valid_fields_bounds in Hb as (Hy & Hm & Hd & _).
  destruct (retry_is_leap_day f (year now) tz cand Hy E1 E2)
    as (Hm2 & Hd29 & Hleap & ->).
  assert (Hcv : valid_datetime
                  (mk_datetime (year now - 1) 2 29 (f_hour f) (f_minute f)
                     (f_second f) (f_microsecond f) (Some tz)) = true).
  { unfold syslog_datetime, datetime_new in E2.
    destruct (valid_fields (year now - 1) _ _ _ _ _ _) eqn:E; [ | discriminate ].
    unfold valid_datetime. simpl. rewrite Hm2, Hd29 in E. exact E. }
  pose proof (local_us_bounds _ Hcv) as Hup. simpl in Hup.
  pose proof (days_before_year_succ (year now - 1)) as Hsucc.
  replace (year now - 1 + 1) with (year now) in Hsucc by lia.
  rewrite Hleap in Hsucc.
  pose proof (days_before_month_nonneg (year now) (month now) Hm) as Hdbm.
  unfold instant. rewrite Hutc. simpl tzinfo. cbv iota.
  unfold ymd2ord in *. unfold days_before_month at 1 2 in Hup.
  rewrite Hleap in Hup. simpl in Hup.
  unfold US_PER_DAY, hours in *. lia.
Qed.

Lemma syslog_datetime_fields f y tz dt :
  syslog_datetime f y tz = Ok dt -> year dt = y /\ tzinfo dt = Some tz.
Proof.
  unfold syslog_datetime, datetime_new.
  destruct (valid_fields _ _ _ _ _ _ _); [ | discriminate ].
  now intros [= <-].
Qed.

Lemma replace_year_tzinfo dt y dt' :
  replace_year dt y = Ok dt' -> tzinfo dt' = tzinfo dt.
Proof.
  unfold replace_year, datetime_new.
  destruct (valid_fields _ _ _ _ _ _ _); [ | discriminate ].
  now intros [= <-].
Qed.




(** ** [json.loads] after [json.dumps] *)

(** More fuel does not change the outcome of a scanner that had enough. *)
Lemma scan_fuel_step f :
  (forall s, scan_once f s <> NoFuel -> scan_once (S f) s = scan_once f s)
  /\ (forall s pairs e, members f s pairs e <> NoFuel ->
        members (S f) s pairs e = members f s pairs e)
  /\ (forall s items e, elements f s items e <> NoFuel ->
        elements (S f) s items e = elements f s items e).
Proof.
  induction f as [ | f (IHs & IHm & IHe) ].
  { repeat split; intros; simpl in *; congruence. }
  split; [ | split ].
  - intros [ | c rest ] H; [ reflexivity | ].
    cbn [scan_once] in *.
    destruct (Ascii.eqb c dquote); [ reflexivity | ].
    destruct (Ascii.eqb c "{").
    { destruct (skip_ws rest) as [ | c1 rest1 ]; [ reflexivity | ].
      destruct (Ascii.eqb c1 "}"); [ reflexivity | ].
      destruct (Ascii.eqb c1 dquote); [ | reflexivity ].
      now apply IHm. }
    destruct (Ascii.eqb c "[").
    { destruct (skip_ws rest) as [ | c1 rest1 ]; [ reflexivity | ].
      destruct (Ascii.eqb c1 "]"); [ reflexivity | ].
      now apply IHe. }
    reflexivity.
  - intros s pairs e H.
    cbn [members] in *.
    destruct (scanstring s "" e) as [ key e1 s1 | | ]; try reflexivity.
    destruct (skip_ws s1) as [ | c2 s2 ]; [ reflexivity | ].
    destruct (Ascii.eqb c2 ":"); [ | reflexivity ].
    destruct (scan_once f (skip_ws s2)) as [ value e2 s3 | | ] eqn:E;
      [ | | congruence ].
    + rewrite IHs, E by congruence. cbv zeta in *.
      destruct (skip_ws s3) as [ | c4 s4 ]; [ reflexivity | ].
      destruct (Ascii.eqb c4 "}"); [ reflexivity | ].
      destruct (Ascii.eqb c4 ","); [ | reflexivity ].
      destruct (skip_ws s4) as [ | c5 s5 ]; [ reflexivity | ].
      destruct (Ascii.eqb c5 dquote); [ | reflexivity ].
      now apply IHm.
    + rewrite IHs, E by congruence. reflexivity.
  - intros s items e H.
    cbn [elements] in *.
    destruct (scan_once f s) as [ value e1 s1 | | ] eqn:E; [ | | congruence ].
    + rewrite IHs, E by congruence. cbv zeta in *.
      destruct (skip_ws s1) as [ | c2 s2 ]; [ reflexivity | ].
      destruct (Ascii.eqb c2 "]"); [ reflexivity | ].
      destruct (Ascii.eqb c2 ","); [ | reflexivity ].
      now apply IHe.
    + rewrite IHs, E by congruence. reflexivity.
Qed.

Lemma scan_once_more_fuel f s v e rest :
  scan_once f s = Scan v e rest ->
  forall f', (f <= f')%nat -> scan_once f' s = Scan v e rest.
Proof.
  intros H f' Hle. induction Hle as [ | f' Hle IH ]; [ exact H | ].
  destruct (scan_fuel_step f') as (Hs & _ & _).
  rewrite Hs; [ exact IH | congruence ].
Qed.

Lemma elements_more_fuel f s items e0 v e rest :
  elements f s items e0 = Scan v e rest ->
  forall f', (f <= f')%nat -> elements f' s items e0 = Scan v e rest.
Proof.
  intros H f' Hle. induction Hle as [ | f' Hle IH ]; [ exact H | ].
  destruct (scan_fuel_step f') as (_ & _ & He).
  rewrite He; [ exact IH | congruence ].
Qed.

Lemma members_more_fuel f s pairs e0 v e rest :
  members f s pairs e0 = Scan v e rest ->
  forall f', (f <= f')%nat -> members f' s pairs e0 = Scan v e rest.
Proof.
  intros H f' Hle. induction Hle as [ | f' Hle IH ]; [ exact H | ].
  destruct (scan_fuel_step f') as (_ & Hm & _).
  rewrite Hm; [ exact IH | congruence ].
Qed.

(** What some fuel reads, [json_loads] reads. *)
Lemma json_loads_scanned s f v :
  skip_ws s = s -> scan_once f s = Scan v true "" -> json_loads s = Ok v.
Proof.
  intros Hws H. unfold json_loads. rewrite Hws.
  pose proof (json_loads_fuel s) as Hfuel. rewrite Hws in Hfuel.
  destruct (Nat.le_ge_cases f (2 * String.length s + 2)) as [Hle | Hle].
  - now rewrite (scan_once_more_fuel _ _ _ _ _ H _ Hle).
  - destruct (scan_once (2 * String.length s + 2) s) as [ v' e' r' | | ] eqn:E;
      [ | | congruence ].
    + rewrite (scan_once_more_fuel _ _ _ _ _ E _ Hle) in H.
      injection H as -> -> ->. reflexivity.
    + assert (Hd : scan_once f s = DecodeError).
      { clear H. induction Hle as [ | f' Hle IH ]; [ exact E | ].
        destruct (scan_fuel_step f') as (Hs & _ & _).
        rewrite Hs; [ exact IH | congruence ]. }
      congruence.
Qed.

(** An escaped character is read back as the character. *)
Lemma scanstring_escape_char c :
  forall rest acc e,
    scanstring (json_escape_char c ++ rest) acc e = scanstring rest (snoc acc c) e.
Proof.
  destruct c as [b0 b1 b2 b3 b4 b5 b6 b7].
  destruct b0, b1, b2, b3, b4, b5, b6, b7; intros rest acc e; reflexivity.
Qed.

Lemma scanstring_escape s :
  forall acc e rest,
    scanstring (json_escape s ++ String dquote rest) acc e
    = Scan (acc ++ s)%string e rest.
Proof.
  induction s as [ | c s IH ]; intros acc e rest.
  - simpl. now rewrite append_nil_r.
  - cbn [json_escape]. rewrite append_assoc, scanstring_escape_char, IH.
    now rewrite snoc_append.
Qed.

Lemma delimited_no_digit tail : delimited tail = true -> starts_with_digit tail = false.
Proof.
  destruct tail as [ | c t ]; [ reflexivity | ]. simpl. intros H.
  repeat (apply orb_true_iff in H as [H | H]);
    apply Ascii.eqb_eq in H; subst; reflexivity.
Qed.

Lemma delimited_no_float tail :
  delimited tail = true -> skip_exponent (skip_fraction tail) = tail.
Proof.
  destruct tail as [ | c t ]; [ reflexivity | ]. simpl. intros H.
  repeat (apply orb_true_iff in H as [H | H]);
    apply Ascii.eqb_eq in H; subst; reflexivity.
Qed.

Ltac digit_value :=
  match goal with
  | |- context [ digit_val ?c ] =>
      let d := eval vm_compute in (digit_val c) in
      change (digit_val c) with d
  end.

(** The digits of a decimal numeral are read back as its number. *)
Lemma scan_digits_uint l :
  forall acc tail,
    starts_with_digit tail = false ->
    scan_digits (NilEmpty.string_of_uint l ++ tail) (Z.pos acc)
    = (Z.pos (Pos.of_uint_acc l acc), tail).
Proof.
  induction l; intros acc tail Ht; cbn [NilEmpty.string_of_uint append scan_digits].
  1: { destruct tail as [ | c t ]; [ reflexivity | ].
       simpl in Ht. cbn [scan_digits]. now rewrite Ht. }
  all: change (is_digit _) with true; cbv iota; cbn [Pos.of_uint_acc];
    match goal with
    | |- scan_digits _ ?a = (Z.pos (Pos.of_uint_acc _ ?p), _) =>
        replace a with (Z.pos p) by (digit_value; lia)
    end;
    now apply IHl.
Qed.

(** The numeral of a positive number starts with a digit other than 0. *)
Lemma to_uint_head p :
  match Pos.to_uint p with
  | Decimal.Nil | Decimal.D0 _ => False
  | _ => True
  end.
Proof.
  pose proof (DecimalPos.Unsigned.to_of (Pos.to_uint p)) as H.
  rewrite DecimalPos.Unsigned.of_to in H. simpl in H.
  pose proof (DecimalPos.Unsigned.to_uint_nonzero p) as Hnz.
  pose proof (DecimalPos.Unsigned.to_uint_nonnil p) as Hnn.
  unfold Decimal.unorm in H.
  destruct (Pos.to_uint p) as [ | u | | | | | | | | | ] eqn:E; auto.
  destruct (Decimal.nzhead (Decimal.D0 u)) eqn:En.
  - now destruct Hnz.
  - now apply DecimalFacts.nzhead_nonzero in En.
  - discriminate.
  - discriminate.
  - discriminate.
  - discriminate.
  - discriminate.
  - discriminate.
  - discriminate.
  - discriminate.
  - discriminate.
Qed.

Lemma scan_unsigned_pos neg p tail :
  delimited tail = true ->
  scan_unsigned neg (NilEmpty.string_of_uint (Pos.to_uint p) ++ tail)
  = Scan (PInt (if neg then - Z.pos p else Z.pos p)) true tail.
Proof.
  intros Ht.
  pose proof (to_uint_head p) as Hhead.
  pose proof (DecimalPos.Unsigned.of_to p) as Hval.
  pose proof (delimited_no_digit _ Ht) as Hnd.
  pose proof (delimited_no_float _ Ht) as Hnf.
  destruct (Pos.to_uint p) as [ | u | u | u | u | u | u | u | u | u | u ];
    try contradiction;
    cbn [NilEmpty.string_of_uint append scan_unsigned];
    change (is_digit _) with true; cbv iota;
    change (Ascii.eqb _ "0") with false; cbv iota;
    cbn [scan_digits]; change (is_digit _) with true; cbv iota;
    simpl in Hval; injection Hval as Hval;
    match goal with
    | |- context [ scan_digits _ ?a ] =>
        match type of Hval with
        | Pos.of_uint_acc _ ?q = _ =>
            replace a with (Z.pos q) by (digit_value; lia)
        end
    end;
    rewrite scan_digits_uint by assumption;
    rewrite Hval; cbv zeta; rewrite Hnf, String.eqb_refl; reflexivity.
Qed.

Lemma scan_once_null f tail : scan_once (S f) ("null" ++ tail) = Scan PNone true tail.
Proof. destruct tail; reflexivity. Qed.

Lemma scan_once_true f tail :
  scan_once (S f) ("true" ++ tail) = Scan (PBool true) true tail.
Proof. destruct tail; reflexivity. Qed.

Lemma scan_once_false f tail :
  scan_once (S f) ("false" ++ tail) = Scan (PBool false) true tail.
Proof. destruct tail; reflexivity. Qed.

(** A text that starts with a digit is read as a number. *)
Lemma scan_once_digit f c rest :
  is_digit c = true -> scan_once (S f) (String c rest) = scan_unsigned false (String c rest).
Proof.
  destruct c as [b0 b1 b2 b3 b4 b5 b6 b7].
  destruct b0, b1, b2, b3, b4, b5, b6, b7; intros H; try discriminate H;
    reflexivity.
Qed.

(** And so is a minus sign and a digit. *)
Lemma scan_once_minus f c rest :
  is_digit c = true ->
  scan_once (S f) (String "-" (String c rest)) = scan_unsigned true (String c rest).
Proof.
  destruct c as [b0 b1 b2 b3 b4 b5 b6 b7].
  destruct b0, b1, b2, b3, b4, b5, b6, b7; intros H; try discriminate H;
    reflexivity.
Qed.

Lemma string_of_uint_head p :
  exists c rest,
    NilEmpty.string_of_uint (Pos.to_uint p) = String c rest /\ is_digit c = true.
Proof.
  pose proof (to_uint_head p) as H.
  destruct (Pos.to_uint p); try contradiction; simpl; eauto.
Qed.

Lemma dec_pos p : dec (Z.pos p) = NilEmpty.string_of_uint (Pos.to_uint p).
Proof.
  unfold dec. simpl. pose proof (to_uint_head p) as H.
  destruct (Pos.to_uint p); try contradiction; reflexivity.
Qed.

Lemma dec_neg p :
  dec (Z.neg p) = String "-" (NilEmpty.string_of_uint (Pos.to_uint p)).
Proof.
  unfold dec. simpl. pose proof (to_uint_head p) as H.
  destruct (Pos.to_uint p); try contradiction; reflexivity.
Qed.

(** An integer is read back from its decimal text. *)
Lemma scan_once_dec f z tail :
  delimited tail = true -> scan_once (S f) (dec z ++ tail) = Scan (PInt z) true tail.
Proof.
  intros Ht. destruct z as [ | p | p ].
  - change (dec 0) with "0". cbn [append]. rewrite scan_once_digit by reflexivity.
    cbn [scan_unsigned]. change (is_digit "0") with true.
    change (Ascii.eqb "0" "0") with true. cbv iota zeta.
    now rewrite (delimited_no_float _ Ht), String.eqb_refl.
  - rewrite dec_pos.
    destruct (string_of_uint_head p) as (c & rest & E & Hc).
    pose proof (scan_unsigned_pos false p tail Ht) as H.
    rewrite E in *. cbn [append] in *. now rewrite scan_once_digit.
  - rewrite dec_neg.
    destruct (string_of_uint_head p) as (c & rest & E & Hc).
    pose proof (scan_unsigned_pos true p tail Ht) as H.
    rewrite E in *. cbn [append] in *. now rewrite scan_once_minus.
Qed.

(** A value's text starts with a character that is not white space and is
    not a closing bracket. *)
Lemma json_dumps_head v tail :
  exists c rest,
    (json_dumps v ++ tail)%string = String c rest
    /\ json_ws c = false /\ Ascii.eqb c "]" = false.
Proof.
  destruct v as [ | [ | ] | [ | p | p ] | s | l | d ];
    try (simpl; eexists; eexists; repeat split; reflexivity).
  cbn [json_dumps]. rewrite dec_pos.
    pose proof (to_uint_head p) as H.
    destruct (Pos.to_uint p); try contradiction;
      simpl; eexists; eexists; repeat split; reflexivity.
Qed.

Lemma skip_ws_json_dumps v tail :
  skip_ws (json_dumps v ++ tail) = (json_dumps v ++ tail)%string.
Proof.
  destruct (json_dumps_head v tail) as (c & rest & -> & Hws & _).
  simpl. now rewrite Hws.
Qed.

Lemma dict_set_new k v pairs :
  ~ In k (map fst pairs) -> dict_set k v pairs = pairs ++ [(k, v)].
Proof.
  induction pairs as [ | [k' v'] pairs IH ]; intros Hk; [ reflexivity | ].
  simpl in *. destruct (String.eqb_spec k k') as [-> | _]; [ tauto | ].
  rewrite IH by tauto. reflexivity.
Qed.

Lemma members_text_concat d :
  d <> [] ->
  String.concat ", "
    (map (fun kv => json_quote (fst kv) ++ ": " ++ json_dumps (snd kv))%string d)
  = String dquote (members_text d).
Proof.
  induction d as [ | [k v] d IH ]; intros Hne; [ contradiction | ].
  destruct d as [ | kv2 d ].
  - simpl. unfold json_quote. simpl. rewrite !append_assoc, append_nil_r.
    reflexivity.
  - specialize (IH ltac:(discriminate)).
    change (String.concat ", " (map ?f ((k, v) :: kv2 :: d)))
      with (f (k, v) ++ ", " ++ String.concat ", " (map f (kv2 :: d)))%string.
    rewrite IH. cbn [fst snd members_text]. unfold json_quote.
    simpl. rewrite !append_assoc. reflexivity.
Qed.

(** The items of a list are read back one after the other. *)
Lemma elements_dumps xs :
  xs <> [] -> Forall reads_back xs ->
  forall items tail,
    exists f,
      elements f (String.concat ", " (map json_dumps xs) ++ "]" ++ tail) items true
      = Scan (PList (items ++ xs)) true tail.
Proof.
  induction xs as [ | x xs IH ]; intros Hne Hall items tail; [ contradiction | ].
  inversion Hall as [ | ? ? Hx Hxs ]; subst.
  destruct xs as [ | y ys ].
  - destruct (Hx ("]" ++ tail)%string eq_refl) as [f0 E0].
    exists (S f0). cbn [elements map String.concat]. rewrite E0.
    reflexivity.
  - destruct (Hx (", " ++ String.concat ", " (map json_dumps (y :: ys))
                       ++ "]" ++ tail)%string eq_refl) as [f0 E0].
    destruct (IH ltac:(discriminate) Hxs (items ++ [x]) tail) as [f1 E1].
    exists (S (Nat.max f0 f1)).
    change (String.concat ", " (map json_dumps (x :: y :: ys)))
      with (json_dumps x ++ ", " ++ String.concat ", " (map json_dumps (y :: ys)))%string.
    rewrite !append_assoc. cbn [elements].
    rewrite (scan_once_more_fuel _ _ _ _ _ E0) by lia.
    cbn [append skip_ws json_ws Ascii.eqb Bool.eqb orb] . cbv zeta.
    change (String.concat ", " (map json_dumps (y :: ys)) ++ String "]" tail)%string
      with (String.concat ", " (map json_dumps (y :: ys)) ++ "]" ++ tail)%string.
    assert (Hws : skip_ws (String.concat ", " (map json_dumps (y :: ys)) ++ "]" ++ tail)
                  = (String.concat ", " (map json_dumps (y :: ys)) ++ "]" ++ tail)%string).
    { destruct ys as [ | z zs ].
      - apply skip_ws_json_dumps.
      - change (String.concat ", " (map json_dumps (y :: z :: zs)))
          with (json_dumps y ++ ", " ++ String.concat ", " (map json_dumps (z :: zs)))%string.
        rewrite !append_assoc. apply skip_ws_json_dumps. }
    rewrite Hws.
    rewrite (elements_more_fuel _ _ _ _ _ _ _ E1) by lia.
    now rewrite <- app_assoc.
Qed.

(** The pairs of an object are read back one after the other; a key that is
    new is appended. *)
Lemma members_dumps d :
  d <> [] -> Forall (fun kv => reads_back (snd kv)) d ->
  forall pairs tail,
    NoDup (map fst (pairs ++ d)) ->
    exists f,
      members f (members_text d ++ "}" ++ tail) pairs true
      = Scan (PDict (pairs ++ d)) true tail.
Proof.
  induction d as [ | [k v] d IH ]; intros Hne Hall pairs tail Hnd;
    [ contradiction | ].
  inversion Hall as [ | ? ? Hv Hd ]; subst. simpl in Hv.
  assert (Hk : ~ In k (map fst pairs)).
  { rewrite map_app in Hnd. simpl in Hnd.
    apply NoDup_remove_2 in Hnd. intros Hin. apply Hnd.
    apply in_or_app. now left. }
  destruct d as [ | kv2 d ].
  - destruct (Hv ("}" ++ tail)%string eq_refl) as [f0 E0].
    exists (S f0). cbn [members members_text].
    rewrite !append_assoc. cbn [append].
    rewrite scanstring_escape.
    cbn [append skip_ws json_ws Ascii.eqb Bool.eqb orb].
    rewrite append_nil_r, skip_ws_json_dumps.
    cbn [append] in E0. rewrite E0.
    cbv zeta. rewrite (dict_set_new _ _ _ Hk). reflexivity.
  - destruct (Hv (", " ++ String dquote (members_text (kv2 :: d))
                       ++ "}" ++ tail)%string eq_refl) as [f0 E0].
    destruct (IH ltac:(discriminate) Hd (pairs ++ [(k, v)]) tail) as [f1 E1].
    { now rewrite <- app_assoc. }
    exists (S (Nat.max f0 f1)).
    cbn [members].
    change (members_text ((k, v) :: kv2 :: d))
      with (json_escape k ++ String dquote (": " ++ json_dumps v
               ++ ", " ++ String dquote (members_text (kv2 :: d))))%string.
    rewrite !append_assoc. cbn [append].
    rewrite scanstring_escape.
    cbn [append skip_ws json_ws Ascii.eqb Bool.eqb orb].
    rewrite !append_assoc. cbn [append].
    rewrite skip_ws_json_dumps.
    cbn [append] in E0.
    rewrite (scan_once_more_fuel _ _ _ _ _ E0) by lia.
    cbv zeta. cbn [skip_ws json_ws Ascii.eqb Bool.eqb orb andb dquote].
    rewrite (dict_set_new _ _ _ Hk).
    rewrite (members_more_fuel _ _ _ _ _ _ _ E1) by lia.
    now rewrite <- app_assoc.
Qed.

(** Every value without a repeated key is read back from the text that
    [json_dumps] writes for it. *)
Lemma scan_once_json_dumps : forall v, wf_val v = true -> reads_back v.
Proof.
  induction v as [ | b | z | s | l IH | d IH ] using pyval_nested_ind;
    intros Hwf tail Ht.
  - exists 1%nat. apply scan_once_null.
  - exists 1%nat. destruct b; [ apply scan_once_true | apply scan_once_false ].
  - exists 1%nat. now apply scan_once_dec.
  - exists 1%nat. cbn [json_dumps]. unfold json_quote.
    rewrite !append_assoc. cbn [append scan_once Ascii.eqb Bool.eqb dquote].
    fold dquote. rewrite scanstring_escape. reflexivity.
  - assert (Hall : Forall reads_back l).
    { simpl in Hwf. rewrite forallb_forall in Hwf. rewrite Forall_forall in *.
      intros x Hin. apply IH; auto. }
    destruct l as [ | x xs ].
    + exists 1%nat. reflexivity.
    + destruct (elements_dumps (x :: xs) ltac:(discriminate) Hall [] tail)
        as [f E].
      exists (S f). cbn [json_dumps]. rewrite !append_assoc.
      cbn [append scan_once Ascii.eqb Bool.eqb dquote].
      assert (Hhead : exists c rest,
                 (String.concat ", " (map json_dumps (x :: xs)) ++ "]" ++ tail)%string
                 = String c rest
                 /\ json_ws c = false /\ Ascii.eqb c "]" = false).
      { destruct xs as [ | y ys ].
        - apply json_dumps_head.
        - change (String.concat ", " (map json_dumps (x :: y :: ys)))
            with (json_dumps x ++ ", " ++ String.concat ", " (map json_dumps (y :: ys)))%string.
          rewrite !append_assoc. apply json_dumps_head. }
      destruct Hhead as (c & rest & Etext & Hws & Hclose).
      cbn [append] in Etext, E. rewrite Etext in *.
      cbn [skip_ws]. rewrite Hws, Hclose. exact E.
  - assert (Hall : Forall (fun kv => reads_back (snd kv)) d).
    { pose proof (wf_dict_Forall d Hwf) as Hw. rewrite Forall_forall in *.
      intros kv Hin. apply IH; auto. }
    destruct d as [ | kv d ].
    + exists 1%nat. reflexivity.
    + destruct (members_dumps (kv :: d) ltac:(discriminate) Hall [] tail)
        as [f E].
      { apply (wf_dict_NoDup (kv :: d) Hwf). }
      exists (S f). cbn [json_dumps].
      rewrite members_text_concat by discriminate.
      rewrite !append_assoc.
      cbn [append scan_once skip_ws json_ws Ascii.eqb Bool.eqb orb dquote].
      exact E.
Qed.

(** [json.loads(json.dumps(v))] is [v]. *)
Lemma json_loads_json_dumps v : wf_val v = true -> json_loads (json_dumps v) = Ok v.
Proof.
  intros Hwf.
  destruct (scan_once_json_dumps v Hwf "" eq_refl) as [f E].
  rewrite append_nil_r in E.
  apply (json_loads_scanned _ f); [ | exact E ].
  pose proof (skip_ws_json_dumps v "") as H. now rewrite append_nil_r in H.
Qed.

(** ** PathCodec: [put] then [get] *)

(** C3 (against the claim).  The integer 123 goes through
    [put_value_into_dict] without the fallback to ['DROPPED'], and
    [get_value_from_dict] at the same path returns the text ['123'], not the
    integer: a value that is not a dictionary is stored as its string form.
    A string is not safe either: the two characters backslash and [n] go
    through without the fallback and come back as one line feed. *)
Lemma put_then_get_int_is_text :
  (fallback_free "a.b.c" (PInt 123) = true
   /\ put_value_into_dict "a.b.c" (PInt 123)
      = Ok (PDict [("a", PDict [("b", PDict [("c", PStr "123")])])])
   /\ put_then_get "a.b.c" (PInt 123) = Ok (PStr "123")
   /\ put_then_get "a.b.c" (PInt 123) <> Ok (PInt 123))
  /\ (fallback_free "a.b.c" (PStr (String backslash "n")) = true
      /\ put_then_get "a.b.c" (PStr (String backslash "n"))
         = Ok (PStr (String "010" ""))
      /\ put_then_get "a.b.c" (PStr (String backslash "n"))
         <> Ok (PStr (String backslash "n"))).
Proof. repeat split; try (vm_compute; reflexivity); discriminate. Qed.

(** What else is lost on the way: an empty value is read back as nothing, a
    segment that is an integer literal is stored as a key and looked up as
    an index, and a backslash in the value is read as a JSON escape. *)
Example put_then_get_other_losses :
  put_then_get "a.b" (PStr "") = Ok PNone
  /\ put_then_get "a.b" (PDict []) = Ok PNone
  /\ put_then_get "a.0" (PStr "v") = Ok PNone
  /\ put_then_get "a b" (PStr "v") = Ok PNone
  /\ put_then_get "a" (PStr (String backslash "n")) = Ok (PStr (String "010" ""))
  /\ fallback_free "a" (PStr (String backslash "n")) = true.
Proof. repeat split; vm_compute; reflexivity. Qed.

Lemma reads_as_fmt_raw k body v :
  plain_text k = true -> reads_as body v ->
  reads_as (fmt_raw k body) (PDict [(k, v)]).
Proof.
  intros Hk [Hread Hws]. split.
  - intros tail Ht.
    destruct (Hread (" }" ++ tail)%string eq_refl) as [f E].
    exists (S (S f)). apply scan_once_raw; auto.
  - intros tail. reflexivity.
Qed.

Lemma reads_as_nest ks inner v :
  forallb plain_text ks = true -> reads_as inner v ->
  reads_as (nest_text ks inner) (nest_val ks v).
Proof.
  intros Hks Hinner. induction ks as [ | k ks IH ]; [ exact Hinner | ].
  simpl in Hks. apply andb_true_iff in Hks as [Hk Hks].
  simpl. apply reads_as_fmt_raw; auto.
Qed.

Lemma nest_val_snoc ks k v :
  nest_val ks (PDict [(k, v)]) = nest_val (ks ++ [k]) v.
Proof. induction ks as [ | k0 ks IH ]; simpl; [ reflexivity | now rewrite IH ]. Qed.

(** On a plain path a dictionary is embedded as it is. *)
Lemma put_value_into_dict_dict key_str d :
  forallb plain_text (split_on "." key_str) = true ->
  wf_dict d = true ->
  put_value_into_dict key_str (PDict d)
  = Ok (nest_val (split_on "." key_str) (PDict d)).
Proof.
  intros Hpl Hwf.
  assert (Hsegs : split_on "." key_str
                  = removelast (split_on "." key_str)
                    ++ [last (split_on "." key_str) ""]).
  { apply app_removelast_last. apply split_on_go_nonempty. }
  unfold put_value_into_dict. rewrite put_json_data_nest.
  rewrite Hsegs in Hpl. rewrite forallb_app in Hpl.
  apply andb_true_iff in Hpl as [Hinit Hlast]. simpl in Hlast.
  rewrite andb_true_r in Hlast.
  assert (Hval : reads_as (json_dumps (PDict d)) (PDict d)).
  { split.
    - apply scan_once_json_dumps. exact Hwf.
    - apply skip_ws_json_dumps. }
  pose proof (reads_as_nest _ _ _ Hinit (reads_as_fmt_raw _ _ _ Hlast Hval))
    as [Hread Hws].
  destruct (Hread "" eq_refl) as [f E]. rewrite append_nil_r in E.
  specialize (Hws ""). rewrite append_nil_r in Hws.
  rewrite (json_loads_scanned _ f _ Hws E).
  rewrite nest_val_snoc, <- Hsegs. reflexivity.
Qed.

(** C3 (amended).  For a dotted path that is one candidate (no white space)
    with segments that hold no double quote and no backslash and are not
    integer literals, and a value that is a dictionary or whose string form
    holds no double quote and no backslash, and that is not empty as it is
    embedded: [get_value_from_dict] applied to
    [put_value_into_dict(path, value)] at the same path returns the value as
    it is embedded, which is the original value for a dictionary and for a
    string, and the string form of any other value. *)
Theorem put_then_get_stored_form (key_str : string) (v : pyval) :
  plain_path key_str = true ->
  json_safe v = true ->
  py_truthy (stored_form v) = true ->
  put_then_get key_str v = Ok (stored_form v)
  /\ (forall s, v = PStr s -> put_then_get key_str v = Ok v)
  /\ (forall d, v = PDict d -> put_then_get key_str v = Ok v).
Proof.
  intros Hpath Hsafe Htrue.
  assert (H : put_then_get key_str v = Ok (stored_form v)).
  { destruct v as [ | b | z | s | l | d ];
      try (apply put_then_get_str;
           [ exact Hpath | discriminate | exact Hsafe
           | intros E; unfold stored_form, py_truthy in Htrue;
             rewrite E in Htrue; discriminate ]).
    unfold plain_path in Hpath. apply andb_true_iff in Hpath as [Hsplit Hsegs].
    rewrite forallb_and in Hsegs. apply andb_true_iff in Hsegs as [Hpl Hint].
    unfold put_then_get. rewrite put_value_into_dict_dict by assumption.
    cbn [bind]. unfold get_value_from_dict.
    destruct (py_split key_str) as [ | k [ | ? ? ] ]; try discriminate.
    apply String.eqb_eq in Hsplit as ->. cbn [get_candidates].
    rewrite <- (app_nil_r (split_on "." key_str)) at 2.
    rewrite walk_nest by assumption. cbn [walk bind].
    change (stored_form (PDict d)) with (PDict d) in *. now rewrite Htrue. }
  split; [ exact H | split ]; intros ? ->; exact H.
Qed.

Lemma put_then_get_stored_form_witness :
  put_then_get "a.b.c" (PDict [("x", PInt 1); ("y", PStr "2")])
  = Ok (PDict [("x", PInt 1); ("y", PStr "2")])
  /\ put_then_get "source.address" (PStr "10.0.0.1") = Ok (PStr "10.0.0.1").
Proof.
  split.
  - apply (put_then_get_stored_form "a.b.c"
             (PDict [("x", PInt 1); ("y", PStr "2")])); reflexivity.
  - apply (put_then_get_stored_form "source.address" (PStr "10.0.0.1"));
      reflexivity.
Defined.

(** ** SchemaMapper: a value that is not an address *)

(** The fragment for a path of plain segments and a value that goes
    through the JSON text unchanged. *)
Lemma put_value_into_dict_stored key_str v :
  forallb plain_text (split_on "." key_str) = true ->
  json_safe v = true ->
  put_value_into_dict key_str v
  = Ok (nest_val (split_on "." key_str) (stored_form v)).
Proof.
  intros Hpl Hsafe.
  destruct v as [ | b | z | s | l | d ];
    try (now apply put_value_into_dict_dict).
  all: unfold put_value_into_dict; rewrite put_json_data_nest;
    assert (Hsegs : split_on "." key_str
                    = removelast (split_on "." key_str)
                      ++ [last (split_on "." key_str) ""])
      by (apply app_removelast_last; apply split_on_go_nonempty);
    rewrite Hsegs in Hpl; rewrite forallb_app in Hpl;
    apply andb_true_iff in Hpl as [Hinit Hlast]; simpl in Hlast;
    rewrite andb_true_r in Hlast;
    rewrite json_loads_nest by assumption;
    rewrite Hsegs at 3; unfold stored_form;
    clear; induction (removelast (split_on "." key_str)) as [ | k ks IH ];
    simpl; [ reflexivity | ]; injection IH as ->; reflexivity.
Qed.


Section SchemaMappingFacts.

Variable ip_address : pyval -> bool.
Variable logconfig : config.
Variable logdata_dict : dict.


End SchemaMappingFacts.


(** The sample entry goes through the whole stage: [source.ip] is left out
    of the ECS tree and [user.name] is mapped. *)
Example transform_to_ecs_sample :
  transform_to_ecs dotted_quad ecs_sample_config (PStr "123456789012") PNone
    ecs_sample_entry
  = Ok [("src", PStr "not-an-ip"); ("user", PDict [("name", PStr "alice")]);
        ("ecs", PDict [("version", PStr "1.5.0")]);
        ("cloud", PDict [("provider", PStr "aws");
                         ("account", PDict [("id", PStr "123456789012")]);
                         ("region", PStr "unknown")])].
Proof. vm_compute. reflexivity. Qed.

(* ================================================================== *)
(** * Further properties of the module *)

(** ** Cleanup: what one pass and two passes do *)

Lemma dict_get_del_none_absent k d :
  ~ In k (map fst d) -> dict_get k (del_none d) = None.
Proof.
  induction d as [ | [k0 v0] d IH ]; intros Hk; [ reflexivity | ].
  simpl in Hk. rewrite del_none_cons.
  assert (Hne : String.eqb k k0 = false) by (apply String.eqb_neq; intros ->; tauto).
  assert (IH' : dict_get k (del_none d) = None) by (apply IH; tauto).
  destruct v0 as [ | b | z | s | l | [ | e dx ] ]; simpl; try rewrite Hne; auto.
  destruct (is_sentinel s); simpl; try rewrite Hne; auto.
Qed.

(** X1.  One pass of [del_none] over a dictionary, key by key: an empty
    dictionary and the strings [''], ['-'], ['null'] are deleted, another
    dictionary is cleaned in place and stays even when nothing is left of
    it, and every other value, [None], a number, a boolean, a list or
    another string, is left as it is. *)
Theorem del_none_lookup (d : dict) (k : string) :
  wf_dict d = true ->
  dict_get k (del_none d) = del_none_entry (dict_get k d).
Proof.
  induction d as [ | [k0 v0] d IH ]; intros Hwf; [ reflexivity | ].
  apply wf_dict_cons in Hwf as (Hnot & _ & Hwf).
  rewrite del_none_cons. simpl dict_get at 2.
  destruct (String.eqb_spec k k0) as [-> | Hne].
  - destruct v0 as [ | b | z | s | l | [ | e dx ] ]; simpl;
      try rewrite String.eqb_refl; auto using dict_get_del_none_absent.
    destruct (is_sentinel s); simpl; try rewrite String.eqb_refl;
      auto using dict_get_del_none_absent.
  - apply String.eqb_neq in Hne.
    destruct v0 as [ | b | z | s | l | [ | e dx ] ]; simpl; try rewrite Hne; auto.
    destruct (is_sentinel s); simpl; try rewrite Hne; auto.
Qed.

Lemma del_none_lookup_witness :
  dict_get "b"
    (del_none [("a", PStr "-"); ("b", PDict [("c", PStr "null")]); ("n", PNone)])
  = Some (PDict []).
Proof.
  rewrite (del_none_lookup
             [("a", PStr "-"); ("b", PDict [("c", PStr "null")]); ("n", PNone)] "b").
  - reflexivity.
  - reflexivity.
Defined.

Lemma del_none_fixed :
  forall v d, v = PDict d ->
    has_sentinel_leaf (PDict d) = false ->
    has_empty_map (PDict d) = false -> del_none d = d.
Proof.
  induction v as [ | | | | | d0 IH ] using pyval_nested_ind;
    intros d E; try discriminate.
  injection E as <-.
  induction d0 as [ | [k x] d0 IHd ]; [ reflexivity | ].
  inversion IH as [ | ? ? Hx Hrest ]; subst. specialize (IHd Hrest).
  simpl. intros Hs He.
  apply orb_false_iff in Hs as [Hs1 Hs2]. apply orb_false_iff in He as [He1 He2].
  rewrite del_none_cons. simpl in IHd. rewrite (IHd Hs2 He2).
  destruct x as [ | b | z | s | l | [ | e dx ] ]; try reflexivity.
  - simpl in Hs1. now rewrite Hs1.
  - discriminate.
  - simpl in Hx. now rewrite (Hx _ eq_refl Hs1 He1).
Qed.

(** X2.  A document that holds no sentinel string and no empty dictionary,
    at any depth along its dictionaries, is left unchanged by [del_none]. *)
Theorem del_none_clean_unchanged (d : dict) :
  has_sentinel_leaf (PDict d) = false -> has_empty_map (PDict d) = false ->
  del_none d = d.
Proof.
  intros Hsentinel Hempty.
  apply (del_none_fixed (PDict d)); [ reflexivity | exact Hsentinel | exact Hempty ].
Qed.

Lemma del_none_clean_unchanged_witness :
  del_none [("a", PStr "x"); ("b", PDict [("c", PInt 0); ("l", PList [])])]
  = [("a", PStr "x"); ("b", PDict [("c", PInt 0); ("l", PList [])])].
Proof.
  apply (del_none_clean_unchanged
           [("a", PStr "x"); ("b", PDict [("c", PInt 0); ("l", PList [])])]);
    reflexivity.
Defined.

Lemma nesting_below d n :
  (nesting (PDict d) <= S n)%nat ->
  Forall (fun kv => (nesting (snd kv) <= n)%nat) d.
Proof.
  destruct d as [ | e d ]; [ constructor | ].
  cbn [nesting]. intros H. apply le_S_n in H.
  apply list_max_le in H. rewrite Forall_map in H. exact H.
Qed.

Lemma leafy_no_empty_map d : leafy d = true -> has_empty_map (PDict d) = false.
Proof.
  induction d as [ | [k v] d IH ]; [ reflexivity | ].
  unfold leafy. simpl. intros H. apply andb_true_iff in H as [Hv Hd].
  specialize (IH Hd). simpl in IH. rewrite IH. now destruct v.
Qed.

Lemma leafy_del_none d :
  Forall (fun kv => (nesting (snd kv) <= 0)%nat) d -> leafy (del_none d) = true.
Proof.
  induction d as [ | [k v] d IH ]; intros H; [ reflexivity | ].
  inversion H as [ | ? ? Hv Hd ]; subst. specialize (IH Hd).
  rewrite del_none_cons.
  destruct v as [ | b | z | s | l | [ | e dx ] ]; try exact IH.
  - destruct (is_sentinel s); exact IH.
  - simpl in Hv. lia.
Qed.

Lemma leafy_below_del_none d :
  Forall (fun kv => (nesting (snd kv) <= 1)%nat) d ->
  leafy_below (del_none d) = true.
Proof.
  induction d as [ | [k v] d IH ]; intros H; [ reflexivity | ].
  inversion H as [ | ? ? Hv Hd ]; subst. specialize (IH Hd).
  rewrite del_none_cons.
  destruct v as [ | b | z | s | l | [ | e dx ] ]; try exact IH.
  - destruct (is_sentinel s); exact IH.
  - unfold leafy_below. cbn [forallb snd].
    fold (leafy_below (del_none d)). rewrite IH, andb_true_r.
    apply leafy_del_none. now apply nesting_below.
Qed.

Lemma second_pass_no_empty_map d :
  leafy_below d = true -> has_sentinel_leaf (PDict d) = false ->
  has_empty_map (PDict (del_none d)) = false.
Proof.
  induction d as [ | [k v] d IH ]; [ reflexivity | ].
  unfold leafy_below. cbn [forallb snd has_sentinel_leaf existsb].
  intros Hl Hs. apply andb_true_iff in Hl as [Hv Hd].
  apply orb_false_iff in Hs as [Hsv Hsd].
  specialize (IH Hd Hsd). rewrite del_none_cons.
  destruct v as [ | b | z | s | l | [ | e dx ] ]; try exact IH.
  - rewrite Hsv. exact IH.
  - pose proof (leafy_no_empty_map _ Hv) as He.
    rewrite (del_none_fixed _ _ eq_refl Hsv He).
    cbn [has_empty_map] in IH.
    change (has_empty_map (PDict (e :: dx))
            || existsb (fun kv => match snd kv with
                                  | PDict [] => true
                                  | _ => has_empty_map (snd kv)
                                  end) (del_none d) = false).
    now rewrite He, IH.
Qed.

(** A pass of [del_none] brings no empty dictionary into a list: it leaves
    every list as it is. *)
Lemma del_none_lists :
  forall v d, v = PDict d ->
    list_holds_empty_map (PDict d) = false ->
    list_holds_empty_map (PDict (del_none d)) = false.
Proof.
  induction v as [ | | | | | d0 IH ] using pyval_nested_ind;
    intros d E; try discriminate.
  injection E as <-.
  induction d0 as [ | [k x] d0 IHd ]; [ reflexivity | ].
  inversion IH as [ | ? ? Hx Hrest ]; subst. specialize (IHd Hrest).
  cbn [list_holds_empty_map existsb snd]. intros H.
  apply orb_false_iff in H as [H1 H2].
  specialize (IHd H2). rewrite del_none_cons.
  cbn [list_holds_empty_map] in IHd.
  destruct x as [ | b | z | s | l | [ | e dx ] ];
    try (destruct (is_sentinel s));
    cbn [list_holds_empty_map existsb snd orb]; try exact IHd.
  - cbn [list_holds_empty_map] in H1. now rewrite H1.
  - specialize (Hx _ eq_refl H1). cbn [list_holds_empty_map] in Hx.
    now rewrite Hx.
Qed.

(** Without an empty dictionary among the dictionary values and inside the
    lists, there is none at any depth. *)
Lemma holds_empty_map_parts :
  forall v, v <> PDict [] ->
    has_empty_map v = false -> list_holds_empty_map v = false ->
    holds_empty_map v = false.
Proof.
  induction v as [ | | | | l _ | d IH ] using pyval_nested_ind;
    intros Hne Hmaps Hlists; try reflexivity.
  - exact Hlists.
  - destruct d as [ | e d ]; [ now destruct Hne | ].
    cbn [holds_empty_map]. clear Hne.
    revert IH Hmaps Hlists. generalize (e :: d). clear e d.
    intros d IH. induction d as [ | [k x] d IHd ]; [ reflexivity | ].
    inversion IH as [ | ? ? Hx Hrest ]; subst.
    cbn [has_empty_map list_holds_empty_map existsb snd].
    intros Hmaps Hlists.
    apply orb_false_iff in Hmaps as [Hm1 Hm2].
    apply orb_false_iff in Hlists as [Hl1 Hl2].
    rewrite (IHd Hrest Hm2 Hl2), orb_false_r.
    cbn [snd] in Hx. apply Hx; [ | | exact Hl1 ].
    + intros ->. discriminate.
    + destruct x as [ | | | | | [ | ? ? ] ]; try reflexivity. exact Hm1.
Qed.

(** X3.  The two passes that the [json] property makes are enough for a
    document with at most two dictionaries that are not empty on any chain
    of nested dictionary values, the document itself counted, and with no
    empty dictionary inside its lists, which [del_none] does not enter: no
    value of the document that is serialised is an empty dictionary or
    holds one, at any depth through dictionaries and lists. *)
Theorem json_cleanup_shallow (d : dict) :
  (nesting (PDict d) <= 2)%nat ->
  list_holds_empty_map (PDict d) = false ->
  existsb (fun kv => holds_empty_map (snd kv)) (json_cleanup d) = false.
Proof.
  intros Hdepth Hlists.
  assert (Hmaps : has_empty_map (PDict (json_cleanup d)) = false).
  { unfold json_cleanup. apply second_pass_no_empty_map.
    - apply leafy_below_del_none. now apply nesting_below.
    - now apply (del_none_no_sentinel_leaf (PDict d)). }
  assert (Hkept : list_holds_empty_map (PDict (json_cleanup d)) = false).
  { unfold json_cleanup.
    apply (del_none_lists (PDict (del_none d)) _ eq_refl).
    now apply (del_none_lists (PDict d) _ eq_refl). }
  revert Hmaps Hkept. generalize (json_cleanup d). clear.
  intros r. induction r as [ | [k x] r IH ]; [ reflexivity | ].
  cbn [has_empty_map list_holds_empty_map existsb snd].
  intros Hmaps Hkept.
  apply orb_false_iff in Hmaps as [Hm1 Hm2].
  apply orb_false_iff in Hkept as [Hl1 Hl2].
  rewrite (IH Hm2 Hl2), orb_false_r.
  apply holds_empty_map_parts; [ | | exact Hl1 ].
  - intros ->. discriminate.
  - destruct x as [ | | | | | [ | ? ? ] ]; try reflexivity. exact Hm1.
Qed.

Lemma json_cleanup_shallow_witness :
  existsb (fun kv => holds_empty_map (snd kv))
    (json_cleanup
       [("@id", PStr "x"); ("l", PList [PDict [("y", PStr "")]]);
        ("a", PDict [("b", PStr ""); ("c", PDict [])])])
  = false.
Proof.
  apply (json_cleanup_shallow
           [("@id", PStr "x"); ("l", PList [PDict [("y", PStr "")]]);
            ("a", PDict [("b", PStr ""); ("c", PDict [])])]).
  - simpl. lia.
  - reflexivity.
Defined.

(** The lists are the limit of the cleanup: an empty dictionary inside a
    list stays where it is, whatever the number of passes. *)
Example json_cleanup_list_kept :
  json_cleanup [("l", PList [PDict [("x", PDict []); ("y", PStr "")]])]
  = [("l", PList [PDict [("x", PDict []); ("y", PStr "")]])].
Proof. reflexivity. Qed.

(** ** DeepMerge: lookup and the invariant of dictionaries *)

Lemma merge_step_get_same key bv a :
  dict_get key (merge_step key bv a) = Some (merge_entry (dict_get key a) bv).
Proof.
  unfold merge_step, merge_entry.
  destruct (dict_get key a) as [ av | ] eqn:Hget; [ | apply dict_get_set_same ].
  destruct av as [ | | | | | ad ], bv as [ | | | | | bd ];
    try (destruct (py_eq _ _); [ exact Hget | apply dict_get_set_same ]);
    apply dict_get_set_same.
Qed.

Lemma dict_get_absent k d : ~ In k (map fst d) -> dict_get k d = None.
Proof.
  induction d as [ | [k0 v0] d IH ]; intros H; [ reflexivity | ].
  simpl in *. destruct (String.eqb_spec k k0) as [-> | _]; [ tauto | ].
  apply IH. tauto.
Qed.

(** X4.  [merge(a, b)] read key by key, for a dictionary [b]: a key that
    [b] lacks keeps the value it has in [a]; under a key of [b] two
    dictionaries are merged, a value of [a] that compares equal to the one
    of [b] stays, and in every other case the value of [b] is stored. *)
Theorem merge_lookup (a b : dict) (k : string) :
  wf_dict b = true ->
  dict_get k (merge a b)
  = match dict_get k b with
    | None => dict_get k a
    | Some bv => Some (merge_entry (dict_get k a) bv)
    end.
Proof.
  intros Hwf. revert a.
  induction b as [ | [key bv] b IH ]; intros a; [ reflexivity | ].
  apply wf_dict_cons in Hwf as (Hnot & _ & Hwf).
  rewrite merge_cons. cbn [dict_get].
  destruct (String.eqb_spec k key) as [-> | Hne].
  - rewrite merge_get_other by assumption. apply merge_step_get_same.
  - rewrite (IH Hwf). now rewrite merge_step_get_other.
Qed.

Lemma merge_lookup_witness :
  dict_get "cloud" (merge merge_sample_a merge_sample_b)
  = Some (PDict [("provider", PStr "aws"); ("region", PStr "us-east-1")]).
Proof.
  rewrite (merge_lookup merge_sample_a merge_sample_b "cloud").
  - reflexivity.
  - reflexivity.
Defined.

Lemma wf_dict_intro d :
  NoDup (map fst d) -> Forall (fun kv => wf_val (snd kv) = true) d ->
  wf_dict d = true.
Proof.
  induction d as [ | [k v] d IH ]; intros Hnd Hall; [ reflexivity | ].
  inversion Hnd as [ | ? ? Hk Hnd' ]; subst.
  inversion Hall as [ | ? ? Hv Hall' ]; subst.
  specialize (IH Hnd' Hall'). unfold wf_dict in *. simpl in *.
  apply andb_true_iff in IH as [IH1 IH2]. rewrite IH1, IH2, Hv.
  rewrite !andb_true_r. apply negb_true_iff.
  destruct (existsb (String.eqb k) (map fst d)) eqn:E; [ | reflexivity ].
  apply existsb_exists in E as (x & Hin & Hx).
  apply String.eqb_eq in Hx as <-. contradiction.
Qed.

Lemma dict_set_keys k v d x :
  In x (map fst (dict_set k v d)) <-> x = k \/ In x (map fst d).
Proof.
  induction d as [ | [k0 v0] d IH ]; simpl.
  - intuition.
  - destruct (String.eqb_spec k k0) as [-> | Hne]; simpl; [ intuition | ].
    rewrite IH. intuition.
Qed.

Lemma dict_set_wf k v d :
  wf_dict d = true -> wf_val v = true -> wf_dict (dict_set k v d) = true.
Proof.
  intros Hd Hv. apply wf_dict_intro.
  - pose proof (wf_dict_NoDup d Hd) as Hnd. clear Hd.
    induction d as [ | [k0 v0] d IH ]; simpl.
    + constructor; [ intros [] | constructor ].
    + inversion Hnd as [ | ? ? Hk Hnd' ]; subst.
      destruct (String.eqb_spec k k0) as [-> | Hne]; simpl.
      * now constructor.
      * constructor; [ | now apply IH ].
        rewrite dict_set_keys. intros [E | Hin]; [ now subst | contradiction ].
  - pose proof (wf_dict_Forall d Hd) as Hall. clear Hd.
    induction d as [ | [k0 v0] d IH ]; simpl.
    + constructor; [ exact Hv | constructor ].
    + inversion Hall as [ | ? ? Hv0 Hall' ]; subst.
      destruct (String.eqb k k0); constructor; auto.
Qed.

Lemma dict_get_wf k d v :
  wf_dict d = true -> dict_get k d = Some v -> wf_val v = true.
Proof.
  intros Hd. pose proof (wf_dict_Forall d Hd) as Hall. clear Hd.
  induction d as [ | [k0 v0] d IH ]; simpl; [ discriminate | ].
  inversion Hall as [ | ? ? Hv0 Hall' ]; subst.
  destruct (String.eqb k k0); [ now intros [= <-] | now apply IH ].
Qed.

(** The embedding of [merge] keeps the representation of dictionaries: no
    key twice. *)
Lemma merge_wf_val :
  forall v, wf_val v = true ->
    forall bd, v = PDict bd ->
      forall a, wf_dict a = true -> wf_dict (merge a bd) = true.
Proof.
  induction v as [ | | | | | b IH ] using pyval_nested_ind;
    intros Hwf bd E; try discriminate.
  injection E as <-.
  pose proof (wf_dict_Forall b Hwf) as Hall. clear Hwf.
  induction b as [ | [key bv] b IHb ]; intros a Ha; [ exact Ha | ].
  inversion IH as [ | ? ? Hbv IH' ]; subst.
  inversion Hall as [ | ? ? Hv Hall' ]; subst. simpl in Hbv, Hv.
  rewrite merge_cons. apply IHb; auto.
  unfold merge_step.
  destruct (dict_get key a) as [ av | ] eqn:Hget; [ | now apply dict_set_wf ].
  pose proof (dict_get_wf _ _ _ Ha Hget) as Hav.
  destruct av as [ | | | | | ad ], bv as [ | | | | | bd ];
    try (destruct (py_eq _ _); [ exact Ha | now apply dict_set_wf ]).
  apply dict_set_wf; [ exact Ha | ].
  exact (Hbv Hv bd eq_refl ad Hav).
Qed.

(** ** Account and region of an object key *)

Lemma prefix_app p s : String.prefix p (p ++ s) = true.
Proof.
  induction p as [ | c p IH ]; simpl; [ now destruct s | ].
  destruct (ascii_dec c c); [ exact IH | contradiction ].
Qed.

Lemma prefix_split p : forall s, String.prefix p s = true -> exists r, s = (p ++ r)%string.
Proof.
  induction p as [ | c p IH ]; intros s H.
  - exists s. reflexivity.
  - destruct s as [ | c' s ]; simpl in H; [ discriminate | ].
    destruct (ascii_dec c c') as [<- | ]; [ | discriminate ].
    destruct (IH s H) as [r ->]. now exists r.
Qed.

Lemma str_contains_suffix needle s :
  str_contains needle s = true <->
  exists a b, s = (a ++ needle ++ b)%string.
Proof.
  split.
  - induction s as [ | c s IH ]; cbn [str_contains]; intros H.
    + rewrite orb_false_r in H. apply prefix_split in H as [r ->].
      now exists "", r.
    + apply orb_true_iff in H as [H | H].
      * apply prefix_split in H as [r ->]. now exists "", r.
      * destruct (IH H) as (a & b & ->). now exists (String c a), b.
  - intros (a & b & ->). induction a as [ | c a IH ].
    + simpl append. destruct (needle ++ b)%string eqn:E; cbn [str_contains];
        rewrite <- E, prefix_app; reflexivity.
    + simpl append. cbn [str_contains]. rewrite IH. apply orb_true_r.
Qed.

Lemma re_digits_upto_spec n :
  forall s ds rest, re_digits_upto n s = (ds, rest) ->
    s = (ds ++ rest)%string /\ all_digits ds = true
    /\ (String.length ds <= n)%nat.
Proof.
  induction n as [ | n IH ]; intros s ds rest H.
  - destruct s; injection H as <- <-; repeat split; simpl; lia.
  - destruct s as [ | c s ]; simpl in H; [ injection H as <- <-; repeat split; simpl; lia | ].
    destruct (is_digit c) eqn:Ec; [ | injection H as <- <-; repeat split; simpl; lia ].
    destruct (re_digits_upto n s) as [ds' rest'] eqn:E. injection H as <- <-.
    destruct (IH _ _ _ E) as (-> & Hd & Hl).
    repeat split; simpl; [ | lia ].
    unfold all_digits in *. simpl. now rewrite Ec, Hd.
Qed.

Lemma re_digits_upto_exact ds :
  all_digits ds = true ->
  forall rest, re_digits_upto (String.length ds) (ds ++ rest) = (ds, rest).
Proof.
  unfold all_digits. induction ds as [ | c ds IH ]; intros H rest.
  - simpl. now destruct rest.
  - simpl in H. apply andb_true_iff in H as [Hc Hd].
    simpl. rewrite Hc, (IH Hd). reflexivity.
Qed.

Lemma re_account_at_sound s id :
  re_account_at s = Some id ->
  String.length id = 12%nat /\ all_digits id = true
  /\ String.prefix ("/" ++ id ++ "/") s = true.
Proof.
  unfold re_account_at. destruct s as [ | c s ]; [ discriminate | ].
  destruct (Ascii.eqb_spec c "/") as [-> | ]; [ | discriminate ].
  destruct (re_digits_upto 12 s) as [ds rest] eqn:E.
  destruct rest as [ | c' rest ]; [ discriminate | ].
  destruct (Nat.eqb_spec (String.length ds) 12) as [Hl | ]; [ | discriminate ].
  destruct (Ascii.eqb_spec c' "/") as [-> | ]; [ | discriminate ].
  intros [= <-]. destruct (re_digits_upto_spec _ _ _ _ E) as (-> & Hd & _).
  repeat split; auto.
  change ("/" ++ ds ++ "/")%string with (String "/" (ds ++ "/")).
  replace (String "/" (ds ++ String "/" rest))
    with ((String "/" (ds ++ "/")) ++ rest)%string.
  - apply prefix_app.
  - simpl. now rewrite append_assoc.
Qed.

Lemma re_account_at_complete id rest :
  String.length id = 12%nat -> all_digits id = true ->
  re_account_at ("/" ++ id ++ "/" ++ rest) = Some id.
Proof.
  intros Hl Hd. unfold re_account_at. simpl append.
  cbn [Ascii.eqb Bool.eqb]. rewrite <- Hl at 1.
  rewrite (re_digits_upto_exact id Hd). rewrite Hl. reflexivity.
Qed.

Lemma re_search_sound {A} (at_head : string -> option A) s m :
  re_search at_head s = Some m ->
  exists a b, s = (a ++ b)%string /\ at_head b = Some m.
Proof.
  induction s as [ | c s IH ]; simpl.
  - destruct (at_head "") eqn:E; [ | discriminate ].
    intros [= <-]. now exists "", "".
  - destruct (at_head (String c s)) eqn:E.
    + intros [= <-]. now exists "", (String c s).
    + intros H. destruct (IH H) as (a & b & -> & Hb). now exists (String c a), b.
Qed.

Lemma re_search_complete {A} (at_head : string -> option A) a b :
  at_head b <> None -> re_search at_head (a ++ b) <> None.
Proof.
  intros Hb. induction a as [ | c a IH ].
  - simpl append. destruct b; simpl; destruct (at_head _); congruence.
  - simpl. destruct (at_head (String c (a ++ b))); [ discriminate | exact IH ].
Qed.

(** X6.  The account id that [LogS3.accountid] reads from the key is a run
    of exactly twelve decimal digits that stands between two slashes in the
    key. *)
Theorem s3_accountid_sound (s3key id : string) :
  s3_accountid s3key = PStr id ->
  String.length id = 12%nat /\ all_digits id = true
  /\ str_contains ("/" ++ id ++ "/") s3key = true.
Proof.
  unfold s3_accountid, group1.
  destruct (re_search re_account_at s3key) as [ g | ] eqn:E; [ | discriminate ].
  intros [= ->]. apply re_search_sound in E as (a & b & -> & Hb).
  apply re_account_at_sound in Hb as (Hl & Hd & Hp).
  repeat split; auto.
  apply prefix_split in Hp as [r ->].
  apply str_contains_suffix. now exists a, r.
Qed.

Lemma s3_accountid_sound_witness :
  String.length "123456789012" = 12%nat
  /\ all_digits "123456789012" = true
  /\ str_contains "/123456789012/"
       "AWSLogs/123456789012/CloudTrail/ap-northeast-1/2020/01/01/x.json.gz"
     = true.
Proof.
  apply (s3_accountid_sound
           "AWSLogs/123456789012/CloudTrail/ap-northeast-1/2020/01/01/x.json.gz"
           "123456789012").
  reflexivity.
Defined.

(** X7.  [LogS3.accountid] is [None] exactly when the key holds no run of
    twelve decimal digits between two slashes; a longer or a shorter run
    between two slashes is not an account id. *)
Theorem s3_accountid_none (s3key : string) :
  s3_accountid s3key = PNone <->
  (forall id, String.length id = 12%nat -> all_digits id = true ->
     str_contains ("/" ++ id ++ "/") s3key = false).
Proof.
  unfold s3_accountid, group1. split.
  - destruct (re_search re_account_at s3key) as [ g | ] eqn:E; [ discriminate | ].
    intros _ id Hl Hd.
    destruct (str_contains ("/" ++ id ++ "/") s3key) eqn:Hc; [ | reflexivity ].
    apply str_contains_suffix in Hc as (a & b & ->).
    exfalso. revert E. apply re_search_complete.
    rewrite !append_assoc. rewrite (re_account_at_complete id b Hl Hd).
    discriminate.
  - intros H. destruct (re_search re_account_at s3key) as [ g | ] eqn:E;
      [ | reflexivity ].
    exfalso. apply re_search_sound in E as (a & b & -> & Hb).
    apply re_account_at_sound in Hb as (Hl & Hd & Hp).
    apply prefix_split in Hp as [r ->].
    specialize (H g Hl Hd).
    assert (Hc : str_contains ("/" ++ g ++ "/") (a ++ ("/" ++ g ++ "/") ++ r) = true)
      by (apply str_contains_suffix; now exists a, r).
    congruence.
Qed.

Example s3_accountid_thirteen_digits :
  s3_accountid "AWSLogs/1234567890123/CloudTrail/x.json" = PNone.
Proof. reflexivity. Qed.

Lemma re_letters_spec s :
  forall ls rest, re_letters s = (ls, rest) ->
    s = (ls ++ rest)%string
    /\ forallb is_alpha (list_ascii_of_string ls) = true.
Proof.
  induction s as [ | c s IH ]; intros ls rest H; simpl in H.
  - injection H as <- <-. now split.
  - destruct (is_alpha c) eqn:Ec; [ | injection H as <- <-; now split ].
    destruct (re_letters s) as [ls' rest'] eqn:E. injection H as <- <-.
    destruct (IH _ _ eq_refl) as (-> & Hl). split; [ reflexivity | ].
    simpl. now rewrite Ec, Hl.
Qed.

Lemma re_region_at_sound s r :
  re_region_at s = Some r ->
  String.prefix r s = true
  /\ (r = "global"
      \/ exists p letters d,
           r = (p ++ "-" ++ letters ++ "-" ++ String d "")%string
           /\ In p region_prefixes
           /\ letters <> ""
           /\ forallb is_alpha (list_ascii_of_string letters) = true
           /\ is_digit d = true).
Proof.
  unfold re_region_at.
  destruct (String.prefix "global" s) eqn:Eg.
  { intros [= <-]. split; [ exact Eg | now left ]. }
  destruct s as [ | a [ | b [ | h rest ] ] ]; try discriminate.
  destruct (existsb _ region_prefixes) eqn:Ep; [ | discriminate ].
  destruct (Ascii.eqb_spec h "-") as [-> | ]; [ | discriminate ].
  cbn [andb].
  destruct (re_letters rest) as [ls rest'] eqn:El.
  destruct ls as [ | l ls ]; [ discriminate | ].
  destruct rest' as [ | h2 [ | d rest'' ] ]; try discriminate.
  destruct (Ascii.eqb_spec h2 "-") as [-> | ]; [ | discriminate ].
  destruct (is_digit d) eqn:Ed; [ | discriminate ].
  intros [= <-]. destruct (re_letters_spec _ _ _ El) as (-> & Hl).
  split.
  - replace (String a (String b (String "-" ((String l ls) ++ String "-" (String d rest'')))))
      with ((String a (String b "") ++ "-" ++ String l ls ++ "-" ++ String d "")
              ++ rest'')%string.
    + apply prefix_app.
    + simpl. rewrite !append_assoc. reflexivity.
  - right. exists (String a (String b "")), (String l ls), d.
    repeat split; auto; [ | discriminate ].
    apply existsb_exists in Ep as (x & Hin & Hx).
    apply String.eqb_eq in Hx as ->. exact Hin.
Qed.

(** X8.  The region that [LogS3.region] reads from the key stands in the
    key, and it is the word [global] or has the shape of a region name:
    one of the prefixes [us], [ap], [ca], [eu], [me], [sa], [af], a hyphen,
    one or more letters, a hyphen and one decimal digit. *)
Theorem s3_region_sound (s3key r : string) :
  s3_region s3key = PStr r ->
  str_contains r s3key = true
  /\ (r = "global"
      \/ exists p letters d,
           r = (p ++ "-" ++ letters ++ "-" ++ String d "")%string
           /\ In p region_prefixes
           /\ letters <> ""
           /\ forallb is_alpha (list_ascii_of_string letters) = true
           /\ is_digit d = true).
Proof.
  unfold s3_region, group1.
  destruct (re_search re_region_at s3key) as [ g | ] eqn:E; [ | discriminate ].
  intros [= ->]. apply re_search_sound in E as (a & b & -> & Hb).
  apply re_region_at_sound in Hb as (Hp & Hshape).
  split; [ | exact Hshape ].
  apply prefix_split in Hp as [t ->].
  apply str_contains_suffix. now exists a, t.
Qed.

Lemma s3_region_sound_witness :
  str_contains "ap-northeast-1"
    "AWSLogs/123456789012/CloudTrail/ap-northeast-1/2020/01/01/x.json.gz"
  = true
  /\ ("ap-northeast-1" = "global"
      \/ exists p letters d,
           "ap-northeast-1" = (p ++ "-" ++ letters ++ "-" ++ String d "")%string
           /\ In p region_prefixes
           /\ letters <> ""
           /\ forallb is_alpha (list_ascii_of_string letters) = true
           /\ is_digit d = true).
Proof.
  apply (s3_region_sound
           "AWSLogs/123456789012/CloudTrail/ap-northeast-1/2020/01/01/x.json.gz"
           "ap-northeast-1").
  reflexivity.
Defined.

(** ** Field names *)

Lemma hyphens_to_underscores_clean s :
  str_contains "-" (hyphens_to_underscores s) = false.
Proof.
  induction s as [ | c s IH ]; [ reflexivity | ].
  cbn [hyphens_to_underscores str_contains]. rewrite IH, orb_false_r.
  cbn [String.prefix].
  destruct (Ascii.eqb_spec c "-") as [-> | Hne].
  - reflexivity.
  - destruct (ascii_dec "-" c) as [E | _]; [ now destruct Hne | reflexivity ].
Qed.

Lemma hyphens_to_underscores_id s :
  str_contains "-" s = false -> hyphens_to_underscores s = s.
Proof.
  induction s as [ | c s IH ]; [ reflexivity | ].
  cbn [hyphens_to_underscores str_contains String.prefix].
  intros H. apply orb_false_iff in H as [Hc Hs].
  rewrite (IH Hs). destruct (Ascii.eqb_spec c "-") as [-> | _]; [ | reflexivity ].
  simpl in Hc. now destruct s.
Qed.

Lemma dict_get_In k d v : dict_get k d = Some v -> In (k, v) d.
Proof.
  induction d as [ | [k0 v0] d IH ]; simpl; [ discriminate | ].
  destruct (String.eqb_spec k k0) as [-> | _].
  - intros [= <-]. now left.
  - intros H. right. now apply IH.
Qed.

Lemma dict_get_remove_other x k d :
  x <> k -> dict_get x (dict_remove k d) = dict_get x d.
Proof.
  intros Hne. induction d as [ | [k0 v0] d IH ]; [ reflexivity | ].
  simpl. destruct (String.eqb_spec k k0) as [-> | Hk]; simpl.
  - destruct (String.eqb_spec x k0); congruence.
  - now rewrite IH.
Qed.

Lemma dict_remove_In k d x w :
  NoDup (map fst d) -> In (x, w) (dict_remove k d) -> In (x, w) d /\ x <> k.
Proof.
  induction d as [ | [k0 v0] d IH ]; simpl; intros Hnd Hin; [ destruct Hin | ].
  inversion Hnd as [ | ? ? Hk0 Hnd' ]; subst.
  destruct (String.eqb_spec k k0) as [-> | Hk].
  - split; [ now right | ]. intros ->. apply Hk0.
    apply in_map_iff. now exists (k0, w).
  - destruct Hin as [E | Hin].
    + injection E as <- <-. split; [ now left | congruence ].
    + destruct (IH Hnd' Hin). split; [ now right | assumption ].
Qed.

Lemma dict_remove_NoDup k d :
  NoDup (map fst d) -> NoDup (map fst (dict_remove k d)).
Proof.
  induction d as [ | [k0 v0] d IH ]; simpl; intros Hnd; [ constructor | ].
  inversion Hnd as [ | ? ? Hk0 Hnd' ]; subst.
  destruct (String.eqb k k0); [ assumption | ].
  simpl. constructor; [ | now apply IH ].
  intros Hin. apply in_map_iff in Hin as ([x w] & E & Hin). simpl in E. subst x.
  apply dict_remove_In in Hin as [Hin _]; [ | assumption ].
  apply Hk0. apply in_map_iff. now exists (k0, w).
Qed.

Lemma dict_set_In k v d x w :
  NoDup (map fst d) -> In (x, w) (dict_set k v d) ->
  (x = k /\ w = v) \/ (In (x, w) d /\ x <> k).
Proof.
  induction d as [ | [k0 v0] d IH ]; simpl; intros Hnd Hin.
  - destruct Hin as [E | []]. injection E as <- <-. now left.
  - inversion Hnd as [ | ? ? Hk0 Hnd' ]; subst.
    destruct (String.eqb_spec k k0) as [-> | Hk].
    + destruct Hin as [E | Hin].
      * injection E as <- <-. now left.
      * right. split; [ now right | ]. intros ->. apply Hk0.
        apply in_map_iff. now exists (k0, w).
    + destruct Hin as [E | Hin].
      * injection E as <- <-. right. split; [ now left | congruence ].
      * destruct (IH Hnd' Hin) as [H | [H1 H2] ]; [ now left | ].
        right. split; [ now right | assumption ].
Qed.

Lemma dict_set_NoDup k v d :
  NoDup (map fst d) -> NoDup (map fst (dict_set k v d)).
Proof.
  induction d as [ | [k0 v0] d IH ]; simpl; intros Hnd.
  - constructor; [ intros [] | constructor ].
  - inversion Hnd as [ | ? ? Hk Hnd' ]; subst.
    destruct (String.eqb_spec k k0) as [-> | Hne]; simpl.
    + now constructor.
    + constructor; [ | now apply IH ].
      rewrite dict_set_keys. intros [E | Hin]; [ now subst | contradiction ].
Qed.

Lemma depth_dict_entries (d : dict) n :
  (list_max (map (fun kv => depth (snd kv)) d) <= n)%nat <->
  Forall (fun kv => (depth (snd kv) <= n)%nat) d.
Proof. rewrite list_max_le, Forall_map. reflexivity. Qed.

Section ConvKeyLoop.

Variable conv : pyval -> res pyval.
Variable n : nat.

(** What the recursive call is known to do on the values of the
    dictionary. *)
Hypothesis conv_ok :
  forall w, wf_val w = true -> (depth w <= n)%nat ->
    exists w', conv w = Ok w' /\ no_hyphen_keys w' = true
               /\ wf_val w' = true /\ (depth w' <= depth w)%nat.

Lemma conv_key_step_inv org_key todo obj :
  ~ In org_key todo -> conv_inv n (org_key :: todo) obj ->
  exists obj', conv_key_step conv obj org_key = Ok obj' /\ conv_inv n todo obj'.
Proof.
  intros Hfresh (Hnd & Hkeys & Hall).
  destruct (dict_get org_key obj) as [ v | ] eqn:Hget;
    [ | now destruct (Hkeys org_key (or_introl eq_refl)) ].
  pose proof (dict_get_In _ _ _ Hget) as Hin.
  rewrite Forall_forall in Hall.
  destruct (Hall _ Hin) as ((Hwf & Hdepth) & _). simpl in Hwf, Hdepth.
  destruct (conv_ok v Hwf Hdepth) as (v' & Hconv & Hclean & Hwf' & Hdepth').
  unfold conv_key_step.
  destruct (str_contains "-" org_key) eqn:Hhy.
  - (* the key is renamed *)
    set (new_key := hyphens_to_underscores org_key).
    assert (Hnew : str_contains "-" new_key = false)
      by apply hyphens_to_underscores_clean.
    assert (Hne : new_key <> org_key) by (intros E; congruence).
    unfold dict_pop. rewrite Hget. cbn [bind fst snd].
    rewrite dict_get_set_same, Hconv. cbn [bind].
    eexists. split; [ reflexivity | ].
    pose proof (dict_remove_NoDup org_key obj Hnd) as Hnd1.
    pose proof (dict_set_NoDup new_key v _ Hnd1) as Hnd2.
    split; [ now apply dict_set_NoDup | split ].
    + intros k Hk.
      assert (k <> org_key) by (intros ->; contradiction).
      destruct (String.eqb_spec k new_key) as [-> | Hkn].
      * rewrite dict_get_set_same. discriminate.
      * rewrite !dict_get_set_other by assumption.
        rewrite dict_get_remove_other by assumption.
        apply Hkeys. now right.
    + apply Forall_forall. intros [x w] Hx.
      apply dict_set_In in Hx as [ [-> ->] | [Hx Hxn] ]; [ | | assumption ].
      * split; [ split; simpl; [ assumption | lia ] | right; now split ].
      * apply dict_set_In in Hx as [ [-> ->] | [Hx _] ];
          [ contradiction | | assumption ].
        apply dict_remove_In in Hx as [Hx Hxo]; [ | assumption ].
        destruct (Hall _ Hx) as (Hs & [ [E | Ht] | Hd ]); simpl in *.
        -- now destruct Hxo.
        -- split; [ exact Hs | now left ].
        -- split; [ exact Hs | now right ].
  - (* the key stays *)
    cbn [bind]. rewrite Hget, Hconv. cbn [bind].
    eexists. split; [ reflexivity | ].
    split; [ now apply dict_set_NoDup | split ].
    + intros k Hk.
      destruct (String.eqb_spec k org_key) as [-> | Hkn].
      * rewrite dict_get_set_same. discriminate.
      * rewrite dict_get_set_other by assumption. apply Hkeys. now right.
    + apply Forall_forall. intros [x w] Hx.
      apply dict_set_In in Hx as [ [-> ->] | [Hx Hxn] ]; [ | | assumption ].
      * split; [ split; simpl; [ assumption | lia ] | right; now split ].
      * destruct (Hall _ Hx) as (Hs & [ [E | Ht] | Hd ]); simpl in *.
        -- now destruct Hxn.
        -- split; [ exact Hs | now left ].
        -- split; [ exact Hs | now right ].
Qed.

Lemma conv_key_loop_inv todo :
  NoDup todo -> forall obj, conv_inv n todo obj ->
  exists obj', conv_key_loop conv todo obj = Ok obj' /\ conv_inv n [] obj'.
Proof.
  induction todo as [ | k todo IH ]; intros Hnd obj Hinv.
  - now exists obj.
  - inversion Hnd as [ | ? ? Hk Hnd' ]; subst.
    destruct (conv_key_step_inv k todo obj Hk Hinv) as (obj1 & Hstep & Hinv1).
    destruct (IH Hnd' obj1 Hinv1) as (obj2 & Hloop & Hinv2).
    exists obj2. split; [ | assumption ].
    cbn [conv_key_loop]. rewrite Hstep. exact Hloop.
Qed.

End ConvKeyLoop.

Lemma mapM_conv conv n l :
  (forall w, wf_val w = true -> (depth w <= n)%nat ->
     exists w', conv w = Ok w' /\ no_hyphen_keys w' = true
                /\ wf_val w' = true /\ (depth w' <= depth w)%nat) ->
  Forall (fun w => wf_val w = true /\ (depth w <= n)%nat) l ->
  exists l', mapM conv l = Ok l' /\ forallb no_hyphen_keys l' = true
             /\ forallb wf_val l' = true
             /\ Forall (fun w => (depth w <= n)%nat) l'.
Proof.
  intros Hconv. induction l as [ | w l IH ]; intros Hall.
  - exists []. repeat split; constructor.
  - inversion Hall as [ | ? ? [Hwf Hd] Hall' ]; subst.
    destruct (Hconv w Hwf Hd) as (w' & Hw & Hc & Hwf' & Hd').
    destruct (IH Hall') as (l' & Hl & Hcl & Hwl & Hdl).
    exists (w' :: l'). cbn [mapM]. rewrite Hw. cbn [bind]. rewrite Hl. cbn [bind].
    repeat split; simpl; try (now rewrite ?Hc, ?Hcl, ?Hwf', ?Hwl).
    constructor; [ lia | assumption ].
Qed.

Lemma conv_key_fuel_ok fuel :
  forall v, (depth v < fuel)%nat -> wf_val v = true ->
    exists v', conv_key_fuel fuel v = Ok v' /\ no_hyphen_keys v' = true
               /\ wf_val v' = true /\ (depth v' <= depth v)%nat.
Proof.
  induction fuel as [ | fuel IH ]; intros v Hd Hwf; [ lia | ].
  destruct v as [ | b | z | s | l | d ];
    try (eexists; repeat split; reflexivity).
  - (* a list *)
    cbn [depth] in Hd. apply PeanoNat.lt_S_n in Hd.
    set (n := list_max (map depth l)) in *.
    assert (Hall : Forall (fun w => wf_val w = true /\ (depth w <= n)%nat) l).
    { apply Forall_forall. intros w Hin. split.
      - simpl in Hwf. rewrite forallb_forall in Hwf. now apply Hwf.
      - assert (H : (list_max (map depth l) <= n)%nat) by (unfold n; lia).
        apply list_max_le in H. rewrite Forall_map, Forall_forall in H.
        now apply H. }
    destruct (mapM_conv (conv_key_fuel fuel) n l) as (l' & Hl & Hc & Hw & Hdl);
      [ | exact Hall | ].
    { intros w Hw Hdw. apply IH; [ lia | assumption ]. }
    exists (PList l'). cbn [conv_key_fuel]. rewrite Hl. cbn [bind].
    repeat split; auto. cbn [depth]. apply le_n_S. fold n.
    apply list_max_le. now rewrite Forall_map.
  - (* a dictionary *)
    cbn [depth] in Hd. apply PeanoNat.lt_S_n in Hd.
    set (n := list_max (map (fun kv => depth (snd kv)) d)) in *.
    pose proof (wf_dict_NoDup d Hwf) as Hnd.
    pose proof (wf_dict_Forall d Hwf) as Hvals.
    assert (Hdepths : Forall (fun kv => (depth (snd kv) <= n)%nat) d)
      by (apply depth_dict_entries; unfold n; lia).
    destruct (conv_key_loop_inv (conv_key_fuel fuel) n) with (todo := map fst d) (obj := d)
      as (d' & Hloop & Hnd' & _ & Hall); [ | exact Hnd | | ].
    { intros w Hw Hdw. apply IH; [ lia | assumption ]. }
    { split; [ exact Hnd | split ].
      - intros k Hk Hget. apply in_map_iff in Hk as ([k0 w] & <- & Hin).
        simpl in Hget. rewrite (dict_get_wf_in d Hwf _ _ Hin) in Hget.
        discriminate.
      - rewrite Forall_forall in *. intros kv Hin. split.
        + split; [ now apply Hvals | now apply Hdepths ].
        + left. now apply in_map. }
    exists (PDict d'). cbn [conv_key_fuel]. rewrite Hloop. cbn [bind].
    rewrite Forall_forall in Hall.
    repeat split.
    + cbn [no_hyphen_keys]. apply forallb_forall. intros kv Hin.
      destruct (Hall kv Hin) as (_ & [ [] | [H1 H2] ]). now rewrite H1, H2.
    + apply wf_dict_intro; [ exact Hnd' | ].
      apply Forall_forall. intros kv Hin. now destruct (Hall kv Hin) as ((H & _) & _).
    + cbn [depth]. apply le_n_S. fold n. apply depth_dict_entries.
      apply Forall_forall. intros kv Hin. now destruct (Hall kv Hin) as ((_ & H) & _).
Qed.

(** X9.  [conv_key] returns for every object in which no dictionary holds
    a key twice, and leaves an object in which no key of a dictionary, at
    any depth, holds a hyphen. *)
Theorem conv_key_returns (obj : pyval) :
  wf_val obj = true ->
  exists obj', conv_key obj = Ok obj' /\ no_hyphen_keys obj' = true.
Proof.
  intros Hwf. destruct (conv_key_fuel_ok (S (depth obj)) obj) as (v' & H1 & H2 & _);
    [ lia | exact Hwf | ].
  now exists v'.
Qed.

Lemma conv_key_returns_witness :
  exists obj',
    conv_key (PDict [("user-agent", PStr "curl");
                     ("x", PList [PDict [("a-b", PInt 1)]])]) = Ok obj'
    /\ no_hyphen_keys obj' = true.
Proof.
  apply (conv_key_returns
           (PDict [("user-agent", PStr "curl");
                   ("x", PList [PDict [("a-b", PInt 1)]])])).
  reflexivity.
Defined.

Example conv_key_sample :
  conv_key (PDict [("user-agent", PStr "curl"); ("time", PStr "t");
                   ("x", PList [PDict [("a-b", PInt 1)]])])
  = Ok (PDict [("time", PStr "t"); ("x", PList [PDict [("a_b", PInt 1)]]);
               ("user_agent", PStr "curl")]).
Proof. reflexivity. Qed.

(** A key with a hyphen takes the place of the key it is renamed to. *)
Example conv_key_collision :
  conv_key (PDict [("a_b", PInt 1); ("a-b", PInt 2)])
  = Ok (PDict [("a_b", PInt 2)]).
Proof. reflexivity. Qed.

Lemma conv_key_loop_fixed conv keys d :
  (forall k, In k keys ->
     str_contains "-" k = false
     /\ exists v, dict_get k d = Some v /\ conv v = Ok v) ->
  conv_key_loop conv keys d = Ok d.
Proof.
  induction keys as [ | k keys IH ]; intros H; [ reflexivity | ].
  destruct (H k (or_introl eq_refl)) as (Hk & v & Hget & Hconv).
  cbn [conv_key_loop]. unfold conv_key_step. rewrite Hk. cbn [bind].
  rewrite Hget, Hconv. cbn [bind]. rewrite (dict_set_same_value _ _ _ Hget).
  apply IH. intros k' Hin. apply H. now right.
Qed.

Lemma mapM_fixed {A} (f : A -> res A) l :
  (forall x, In x l -> f x = Ok x) -> mapM f l = Ok l.
Proof.
  induction l as [ | x l IH ]; intros H; [ reflexivity | ].
  cbn [mapM]. rewrite (H x (or_introl eq_refl)). cbn [bind].
  rewrite IH; [ reflexivity | ]. intros y Hy. apply H. now right.
Qed.

Lemma dict_get_key_In k (d : dict) :
  In k (map fst d) -> exists v, dict_get k d = Some v /\ In (k, v) d.
Proof.
  induction d as [ | [k0 v0] d IH ]; simpl; intros H; [ destruct H | ].
  destruct (String.eqb_spec k k0) as [-> | Hne].
  - exists v0. split; [ reflexivity | now left ].
  - destruct H as [E | H]; [ now destruct Hne | ].
    destruct (IH H) as (v & Hv & Hin). exists v. split; [ assumption | now right ].
Qed.

Lemma conv_key_fuel_fixed fuel :
  forall v, (depth v < fuel)%nat -> no_hyphen_keys v = true ->
    conv_key_fuel fuel v = Ok v.
Proof.
  induction fuel as [ | fuel IH ]; intros v Hd Hc; [ lia | ].
  destruct v as [ | b | z | s | l | d ]; try reflexivity.
  - cbn [depth] in Hd. apply PeanoNat.lt_S_n in Hd.
    cbn [conv_key_fuel]. rewrite mapM_fixed; [ reflexivity | ].
    intros w Hin. apply IH.
    + assert (H : (list_max (map depth l) <= list_max (map depth l))%nat) by lia.
      apply list_max_le in H. rewrite Forall_map, Forall_forall in H.
      specialize (H w Hin). lia.
    + simpl in Hc. rewrite forallb_forall in Hc. now apply Hc.
  - cbn [depth] in Hd. apply PeanoNat.lt_S_n in Hd.
    cbn [conv_key_fuel]. rewrite conv_key_loop_fixed; [ reflexivity | ].
    intros k Hk. destruct (dict_get_key_In k d Hk) as (v & Hget & Hin).
    cbn [no_hyphen_keys] in Hc. rewrite forallb_forall in Hc.
    specialize (Hc _ Hin). apply andb_true_iff in Hc as [Hk' Hv].
    apply negb_true_iff in Hk'. split; [ exact Hk' | ].
    exists v. split; [ exact Hget | ]. apply IH; [ | exact Hv ].
    assert (H : Forall (fun kv => (depth (snd kv)
                 <= list_max (map (fun kv => depth (snd kv)) d))%nat) d)
      by (apply depth_dict_entries; lia).
    rewrite Forall_forall in H. specialize (H _ Hin). simpl in H. lia.
Qed.

(** X10.  An object in which no key holds a hyphen is left as it is by
    [conv_key]; so running [conv_key] a second time changes nothing. *)
Theorem conv_key_clean_unchanged (obj : pyval) :
  no_hyphen_keys obj = true -> conv_key obj = Ok obj.
Proof. intros H. apply conv_key_fuel_fixed; [ lia | exact H ]. Qed.

Lemma conv_key_clean_unchanged_witness :
  conv_key (PDict [("time", PStr "t"); ("x", PList [PDict [("a_b", PInt 1)]])])
  = Ok (PDict [("time", PStr "t"); ("x", PList [PDict [("a_b", PInt 1)]])]).
Proof.
  apply (conv_key_clean_unchanged
           (PDict [("time", PStr "t"); ("x", PList [PDict [("a_b", PInt 1)]])])).
  reflexivity.
Defined.

Lemma conv_key_fuel_list fuel l :
  conv_key_fuel (S fuel) (PList l)
  = (l' <- mapM (conv_key_fuel fuel) l ;; Ok (PList l')).
Proof. reflexivity. Qed.

Lemma conv_key_fuel_dict fuel d :
  conv_key_fuel (S fuel) (PDict d)
  = (d' <- conv_key_loop (conv_key_fuel fuel) (map fst d) d ;; Ok (PDict d')).
Proof. reflexivity. Qed.

(** More fuel does not change what [conv_key_fuel] returns. *)
Lemma conv_key_loop_mono (conv1 conv2 : pyval -> res pyval) keys :
  (forall w r, conv1 w = Ok r -> conv2 w = Ok r) ->
  forall obj r, conv_key_loop conv1 keys obj = Ok r ->
                conv_key_loop conv2 keys obj = Ok r.
Proof.
  intros Hc. induction keys as [ | k keys IH ]; intros obj r; [ trivial | ].
  cbn [conv_key_loop].
  destruct (conv_key_step conv1 obj k) as [ obj1 | | ] eqn:E1; try discriminate.
  cbn [bind]. intros H.
  assert (E2 : conv_key_step conv2 obj k = Ok obj1).
  { revert E1. unfold conv_key_step.
    destruct (str_contains "-" k).
    - destruct (dict_pop k obj) as [ [v rest] | | ]; try discriminate.
      cbn [bind fst snd].
      destruct (dict_get _ _) as [ w | ]; [ | discriminate ].
      destruct (conv1 w) as [ w' | | ] eqn:Ew; try discriminate.
      now rewrite (Hc _ _ Ew).
    - cbn [bind].
      destruct (dict_get _ _) as [ w | ]; [ | discriminate ].
      destruct (conv1 w) as [ w' | | ] eqn:Ew; try discriminate.
      now rewrite (Hc _ _ Ew). }
  rewrite E2. cbn [bind]. now apply IH.
Qed.

Lemma mapM_mono {A B} (f g : A -> res B) l :
  (forall x r, f x = Ok r -> g x = Ok r) ->
  forall r, mapM f l = Ok r -> mapM g l = Ok r.
Proof.
  intros H. induction l as [ | x l IH ]; intros r; [ trivial | ].
  cbn [mapM]. destruct (f x) as [ y | | ] eqn:E; try discriminate.
  rewrite (H _ _ E). cbn [bind].
  destruct (mapM f l) as [ ys | | ]; try discriminate.
  now rewrite (IH _ eq_refl).
Qed.

Lemma conv_key_fuel_S fuel :
  forall v r, conv_key_fuel fuel v = Ok r -> conv_key_fuel (S fuel) v = Ok r.
Proof.
  induction fuel as [ | fuel IH ]; intros v r; [ discriminate | ].
  destruct v as [ | b | z | s | l | d ]; try (intros H; exact H).
  - rewrite !conv_key_fuel_list.
    destruct (mapM (conv_key_fuel fuel) l) as [ l' | | ] eqn:E; try discriminate.
    now rewrite (mapM_mono _ _ _ IH _ E).
  - rewrite !conv_key_fuel_dict.
    destruct (conv_key_loop (conv_key_fuel fuel) (map fst d) d) as [ d' | | ] eqn:E;
      try discriminate.
    now rewrite (conv_key_loop_mono _ _ _ IH _ _ E).
Qed.

Lemma conv_key_fuel_le f1 f2 v r :
  (f1 <= f2)%nat -> conv_key_fuel f1 v = Ok r -> conv_key_fuel f2 v = Ok r.
Proof.
  induction 1 as [ | f2 Hle IH ]; [ trivial | ].
  intros H. apply conv_key_fuel_S. now apply IH.
Qed.

Lemma hyphens_to_underscores_idem s :
  hyphens_to_underscores (hyphens_to_underscores s) = hyphens_to_underscores s.
Proof. apply hyphens_to_underscores_id, hyphens_to_underscores_clean. Qed.

Lemma nodup_keys_NoDup ks : nodup_keys ks = true -> NoDup ks.
Proof.
  induction ks as [ | k ks IH ]; simpl; intros H; constructor.
  - apply andb_true_iff in H as [H _]. apply negb_true_iff in H.
    now apply existsb_eqb_false.
  - apply andb_true_iff in H as [_ H]. now apply IH.
Qed.

Section ConvKeyLookup.

Variable conv : pyval -> res pyval.
Variable d : dict.

Hypothesis d_wf : wf_dict d = true.

(** The new names of the keys of [d] are all different. *)
Hypothesis d_names :
  forall k k', In k (map fst d) -> In k' (map fst d) ->
    hyphens_to_underscores k = hyphens_to_underscores k' -> k = k'.

Hypothesis conv_total :
  forall k v, In (k, v) d -> exists v', conv v = Ok v'.

Lemma conv_key_step_lookup org_key todo obj :
  In org_key (map fst d) -> ~ In org_key todo ->
  lookup_inv conv d (org_key :: todo) obj ->
  exists obj', conv_key_step conv obj org_key = Ok obj' /\ lookup_inv conv d todo obj'.
Proof.
  intros Hkey Hfresh Hinv.
  destruct (dict_get_key_In org_key d Hkey) as (v0 & _ & Hin0).
  destruct (Hinv _ _ Hin0) as (Hget0 & _).
  specialize (Hget0 (or_introl eq_refl)).
  destruct (conv_total _ _ Hin0) as (v0' & Hconv0).
  assert (Huniq : forall v, In (org_key, v) d -> v = v0).
  { intros v Hin. pose proof (dict_get_wf_in d d_wf _ _ Hin) as H1.
    pose proof (dict_get_wf_in d d_wf _ _ Hin0) as H2. congruence. }
  assert (Hother : forall k v, In (k, v) d -> k <> org_key ->
            hyphens_to_underscores k <> hyphens_to_underscores org_key).
  { intros k v Hin Hne E. apply Hne. apply d_names; auto.
    apply in_map_iff. now exists (k, v). }
  unfold conv_key_step.
  destruct (str_contains "-" org_key) eqn:Hhy.
  - set (new_key := hyphens_to_underscores org_key).
    unfold dict_pop. rewrite Hget0. cbn [bind fst snd].
    rewrite dict_get_set_same, Hconv0. cbn [bind].
    eexists. split; [ reflexivity | ].
    intros k v Hin. destruct (Hinv k v Hin) as (Ha & Hb). split.
    + intros Hk. assert (Hne : k <> org_key) by (intros ->; contradiction).
      assert (Hnn : k <> new_key).
      { intros E. apply (Hother k v Hin Hne). rewrite E. unfold new_key.
        apply hyphens_to_underscores_idem. }
      rewrite !dict_get_set_other by assumption.
      rewrite dict_get_remove_other by assumption. apply Ha. now right.
    + intros Hk. destruct (String.eqb_spec k org_key) as [-> | Hne].
      * rewrite (Huniq v Hin). exists v0'. split; [ exact Hconv0 | ].
        apply dict_get_set_same.
      * destruct Hb as (v' & Hv' & Hget').
        { intros [E | H]; [ now destruct Hne | contradiction ]. }
        exists v'. split; [ exact Hv' | ].
        rewrite !dict_get_set_other by (apply (Hother k v Hin Hne)).
        rewrite dict_get_remove_other; [ exact Hget' | ].
        intros E. pose proof (hyphens_to_underscores_clean k) as Hc.
        rewrite E in Hc. congruence.
  - cbn [bind]. rewrite Hget0, Hconv0. cbn [bind].
    pose proof (hyphens_to_underscores_id _ Hhy) as Hid.
    eexists. split; [ reflexivity | ].
    intros k v Hin. destruct (Hinv k v Hin) as (Ha & Hb). split.
    + intros Hk. assert (Hne : k <> org_key) by (intros ->; contradiction).
      rewrite dict_get_set_other by assumption. apply Ha. now right.
    + intros Hk. destruct (String.eqb_spec k org_key) as [-> | Hne].
      * rewrite (Huniq v Hin), Hid. exists v0'. split; [ exact Hconv0 | ].
        apply dict_get_set_same.
      * destruct Hb as (v' & Hv' & Hget').
        { intros [E | H]; [ now destruct Hne | contradiction ]. }
        exists v'. split; [ exact Hv' | ].
        rewrite dict_get_set_other; [ exact Hget' | ].
        rewrite <- Hid. apply (Hother k v Hin Hne).
Qed.

Lemma conv_key_loop_lookup todo :
  NoDup todo -> incl todo (map fst d) ->
  forall obj, lookup_inv conv d todo obj ->
  exists obj', conv_key_loop conv todo obj = Ok obj' /\ lookup_inv conv d [] obj'.
Proof.
  induction todo as [ | k todo IH ]; intros Hnd Hincl obj Hinv.
  - now exists obj.
  - inversion Hnd as [ | ? ? Hk Hnd' ]; subst.
    destruct (conv_key_step_lookup k todo obj) as (obj1 & Hstep & Hinv1); auto.
    { apply Hincl. now left. }
    destruct (IH Hnd') with (obj := obj1) as (obj2 & Hloop & Hinv2); auto.
    { intros x Hx. apply Hincl. now right. }
    exists obj2. split; [ | assumption ].
    cbn [conv_key_loop]. rewrite Hstep. exact Hloop.
Qed.

End ConvKeyLookup.

Lemma conv_key_lookup_shared (d : dict) (k : string) (v : pyval) :
  wf_dict d = true ->
  NoDup (map hyphens_to_underscores (map fst d)) ->
  dict_get k d = Some v ->
  exists d' v',
    conv_key (PDict d) = Ok (PDict d')
    /\ conv_key v = Ok v'
    /\ dict_get (hyphens_to_underscores k) d' = Some v'.
Proof.
  intros Hwf Hnames Hget.
  pose proof (wf_dict_NoDup d Hwf) as Hnd.
  set (n := list_max (map (fun kv => depth (snd kv)) d)).
  assert (Hdepths : Forall (fun kv => (depth (snd kv) <= n)%nat) d)
    by (apply depth_dict_entries; unfold n; lia).
  rewrite Forall_forall in Hdepths.
  pose proof (wf_dict_Forall d Hwf) as Hvals. rewrite Forall_forall in Hvals.
  assert (Htotal : forall k v, In (k, v) d ->
            exists v', conv_key_fuel (S n) v = Ok v').
  { intros k0 v0 Hin.
    destruct (conv_key_fuel_ok (S n) v0) as (v' & Hv' & _).
    - specialize (Hdepths _ Hin). simpl in Hdepths. lia.
    - apply (Hvals _ Hin).
    - now exists v'. }
  assert (Hinj : forall k k', In k (map fst d) -> In k' (map fst d) ->
            hyphens_to_underscores k = hyphens_to_underscores k' -> k = k').
  { clear - Hnames. induction (map fst d) as [ | x l IH ]; intros k k' Hk Hk' E;
      [ destruct Hk | ].
    simpl in Hnames. inversion Hnames as [ | ? ? Hx Hl ]; subst.
    destruct Hk as [<- | Hk], Hk' as [<- | Hk']; auto.
    - exfalso. apply Hx. rewrite E. now apply in_map.
    - exfalso. apply Hx. rewrite <- E. now apply in_map. }
  destruct (conv_key_loop_lookup (conv_key_fuel (S n)) d Hwf Hinj Htotal (map fst d))
    with (obj := d) as (d' & Hloop & Hinv); auto using incl_refl.
  { intros k0 v0 Hin. split.
    - intros _. now apply dict_get_wf_in.
    - intros H. exfalso. apply H. apply in_map_iff. now exists (k0, v0). }
  pose proof (dict_get_In _ _ _ Hget) as Hin.
  destruct (Hinv k v Hin) as (_ & Hb).
  destruct Hb as (v' & Hv' & Hget'); [ intros [] | ].
  exists d', v'. repeat split.
  - unfold conv_key. cbn [depth]. fold n. rewrite conv_key_fuel_dict.
    rewrite Hloop. reflexivity.
  - unfold conv_key.
    destruct (conv_key_fuel_ok (S (depth v)) v) as (v'' & Hv'' & _);
      [ lia | apply (Hvals _ Hin) | ].
    rewrite Hv''. f_equal.
    specialize (Hdepths _ Hin). simpl in Hdepths.
    pose proof (conv_key_fuel_le (S (depth v)) (S n) v v'' ltac:(lia) Hv'') as H.
    congruence.
  - exact Hget'.
Qed.

(** X11.  When the new names of the keys of a dictionary are all different,
    every field is found after [conv_key] under its new name, the key with
    each hyphen replaced by an underscore, and its value is the value that
    [conv_key] makes of the field's value. *)
Theorem conv_key_lookup (d : dict) (k : string) (v : pyval) :
  wf_dict d = true ->
  nodup_keys (map hyphens_to_underscores (map fst d)) = true ->
  dict_get k d = Some v ->
  exists d' v',
    conv_key (PDict d) = Ok (PDict d')
    /\ conv_key v = Ok v'
    /\ dict_get (hyphens_to_underscores k) d' = Some v'.
Proof.
  intros Hwf Hnames. apply conv_key_lookup_shared; [ exact Hwf | ].
  now apply nodup_keys_NoDup.
Qed.

Lemma conv_key_lookup_witness :
  exists d' v',
    conv_key (PDict [("user-agent", PStr "curl"); ("time", PStr "t")]) = Ok (PDict d')
    /\ conv_key (PStr "curl") = Ok v'
    /\ dict_get (hyphens_to_underscores "user-agent") d' = Some v'.
Proof.
  apply (conv_key_lookup [("user-agent", PStr "curl"); ("time", PStr "t")]
           "user-agent" (PStr "curl")).
  - reflexivity.
  - reflexivity.
  - reflexivity.
Defined.

(** ** The parsed entry *)

Lemma dict_of_pairs_fresh pairs :
  NoDup (map fst pairs) ->
  forall acc, (forall k, In k (map fst pairs) -> ~ In k (map fst acc)) ->
    fold_left (fun d kv => dict_set (fst kv) (snd kv) d) pairs acc
    = acc ++ pairs.
Proof.
  induction pairs as [ | [k v] pairs IH ]; intros Hnd acc Hfresh.
  - now rewrite app_nil_r.
  - inversion Hnd as [ | ? ? Hk Hnd' ]; subst. cbn [fold_left fst snd].
    rewrite dict_set_new by (apply Hfresh; now left).
    rewrite IH; [ now rewrite <- app_assoc | assumption | ].
    intros x Hx. rewrite map_app, in_app_iff. simpl.
    intros [H | [<- | [] ] ]; [ | contradiction ].
    revert H. apply Hfresh. now right.
Qed.

Lemma dict_of_pairs_NoDup pairs :
  NoDup (map fst pairs) -> dict_of_pairs pairs = pairs.
Proof.
  intros Hnd. unfold dict_of_pairs. now rewrite dict_of_pairs_fresh.
Qed.

Lemma NoDup_map_inv' {A B} (f : A -> B) l : NoDup (map f l) -> NoDup l.
Proof.
  induction l as [ | x l IH ]; simpl; intros H; constructor;
    inversion H as [ | ? ? Hx Hl ]; subst; auto.
  intros Hin. apply Hx. now apply in_map.
Qed.

Lemma NoDup_firstn {A} n (l : list A) : NoDup l -> NoDup (firstn n l).
Proof.
  revert l. induction n as [ | n IH ]; intros [ | x l ] H; simpl; try constructor.
  - inversion H as [ | ? ? Hx Hl ]; subst. intros Hin. apply Hx.
    rewrite <- (firstn_skipn n l). apply in_or_app. now left.
  - inversion H; subst. now apply IH.
Qed.

Lemma map_fst_combine {A B} (l : list A) (l' : list B) :
  map fst (combine l l') = firstn (List.length l') l.
Proof.
  revert l'. induction l as [ | x l IH ]; intros [ | y l' ]; simpl; try reflexivity.
  - now rewrite IH.
Qed.

Lemma combine_nth_error {A B} (l : list A) (l' : list B) i x y :
  nth_error l i = Some x -> nth_error l' i = Some y -> In (x, y) (combine l l').
Proof.
  revert l l'. induction i as [ | i IH ]; intros [ | a l ] [ | b l' ]; simpl;
    try discriminate.
  - intros [= <-] [= <-]. now left.
  - intros H1 H2. right. now apply IH.
Qed.

(** X12.  A CSV row: when the names of the header, with each hyphen
    replaced by an underscore, are all different, [logdata_to_dict] returns
    a dictionary in which the value in column [i] of the row stands under
    the new name of column [i] of the header, as a string.  The row and
    the header are split at white space; the format is tested by
    [logformat in 'csv']. *)
Theorem logdata_to_dict_csv (msgformat logformat h row : string) (logtype : string)
    (log_pattern_prog : option (string * (string -> option dict)))
    (i : nat) (name value : string) :
  str_contains "kinesis" msgformat = false ->
  str_contains logformat "csv" = true ->
  nodup_keys (map hyphens_to_underscores (py_split h)) = true ->
  nth_error (py_split h) i = Some name ->
  nth_error (py_split row) i = Some value ->
  exists d,
    logdata_to_dict (PStr msgformat) (PStr row) (PStr logformat) (PStr h)
      logtype log_pattern_prog = Ok (PDict d)
    /\ dict_get (hyphens_to_underscores name) d = Some (PStr value).
Proof.
  intros Hk Hcsv Hnames Hname Hvalue. apply nodup_keys_NoDup in Hnames.
  unfold logdata_to_dict, is_extracted. cbn [py_in bind]. rewrite Hk.
  cbn [bind py_in_text]. rewrite Hcsv. cbn [bind py_split_method].
  set (pairs := combine (py_split h) (map PStr (py_split row))).
  assert (Hkeys : map fst pairs
                  = firstn (List.length (map PStr (py_split row))) (py_split h))
    by apply map_fst_combine.
  assert (Hnd : NoDup (map fst pairs)).
  { rewrite Hkeys. apply NoDup_firstn. now apply NoDup_map_inv' in Hnames. }
  rewrite (dict_of_pairs_NoDup pairs Hnd).
  assert (Hwf : wf_dict pairs = true).
  { apply wf_dict_intro; [ exact Hnd | ]. apply Forall_forall.
    intros [k v] Hin. apply in_combine_r in Hin.
    apply in_map_iff in Hin as (s & <- & _). reflexivity. }
  assert (Hin : In (name, PStr value) pairs).
  { apply (combine_nth_error _ _ i); [ exact Hname | ].
    rewrite nth_error_map, Hvalue. reflexivity. }
  destruct (conv_key_lookup_shared pairs name (PStr value)) as (d' & v' & H1 & H2 & H3).
  - exact Hwf.
  - rewrite Hkeys, <- firstn_map. now apply NoDup_firstn.
  - now apply dict_get_wf_in.
  - exists d'. split; [ exact H1 | ].
    unfold conv_key in H2. simpl in H2. injection H2 as <-. exact H3.
Qed.

Lemma logdata_to_dict_csv_witness :
  exists d,
    logdata_to_dict (PStr "s3") (PStr "2020-01-01 10.0.0.1 curl") (PStr "csv")
      (PStr "date c-ip user-agent") "cloudfront" None = Ok (PDict d)
    /\ dict_get (hyphens_to_underscores "c-ip") d = Some (PStr "10.0.0.1").
Proof.
  apply (logdata_to_dict_csv "s3" "csv" "date c-ip user-agent"
           "2020-01-01 10.0.0.1 curl" "cloudfront" None 1 "c-ip" "10.0.0.1").
  - reflexivity.
  - reflexivity.
  - vm_compute. reflexivity.
  - vm_compute. reflexivity.
  - vm_compute. reflexivity.
Defined.

Example logdata_to_dict_short_row :
  logdata_to_dict (PStr "s3") (PStr "2020-01-01 10.0.0.1") (PStr "")
    (PStr "date c-ip user-agent") "cloudfront" None
  = Ok (PDict [("date", PStr "2020-01-01"); ("c_ip", PStr "10.0.0.1")]).
Proof. reflexivity. Qed.

(** ** A fragment merged into a document *)

Lemma py_eq_str_r av t : py_eq av (PStr t) = true -> av = PStr t.
Proof.
  destruct av; simpl; try discriminate.
  intros H. apply String.eqb_eq in H. now subst.
Qed.

Lemma merge_entry_text oa t : merge_entry oa (PStr t) = PStr t.
Proof.
  destruct oa as [ av | ]; [ | reflexivity ].
  destruct av; simpl; try reflexivity.
  destruct (String.eqb_spec s t); [ now subst | reflexivity ].
Qed.

Lemma merge_single doc k x :
  merge doc [(k, x)] = merge_step k x doc.
Proof. now rewrite merge_cons, merge_nil. Qed.

(** The value at the end of a chain of keys is read at that path after the
    chain is merged into any document. *)
Lemma walk_merge_nest ks :
  ks <> [] ->
  forallb (fun k => match py_int k with None => true | Some _ => false end) ks
  = true ->
  forall doc nd t, nest_val ks (PStr t) = PDict nd ->
    walk (PDict (merge doc nd)) ks = Ok (PStr t).
Proof.
  induction ks as [ | k ks IH ]; intros Hne Hint doc nd t Hnd; [ now destruct Hne | ].
  cbn [forallb] in Hint. apply andb_true_iff in Hint as [Hk Hks].
  cbn [nest_val] in Hnd. injection Hnd as <-.
  rewrite merge_single. cbn [walk]. unfold to_segment.
  destruct (py_int k); [ discriminate | ]. cbn [py_getitem].
  rewrite merge_step_get_same.
  destruct ks as [ | k2 ks ].
  - cbn [nest_val]. rewrite merge_entry_text. reflexivity.
  - assert (Hnest : exists nd', nest_val (k2 :: ks) (PStr t) = PDict nd')
      by (cbn [nest_val]; eexists; reflexivity).
    destruct Hnest as (nd' & Hnd'). rewrite Hnd'.
    assert (Hread : walk (PDict nd') (k2 :: ks) = Ok (PStr t)).
    { rewrite <- Hnd'. rewrite <- (app_nil_r (k2 :: ks)) at 2.
      now rewrite walk_nest. }
    unfold merge_entry.
    destruct (dict_get k doc) as [ av | ]; [ | exact Hread ].
    destruct av as [ | | | | | ad ]; try exact Hread.
    apply IH; [ discriminate | exact Hks | exact Hnd' ].
Qed.

Lemma nest_val_dict ks inner :
  ks <> [] -> exists nd, nest_val ks inner = PDict nd.
Proof. destruct ks; [ now intros [] | intros _; eexists; reflexivity ]. Qed.

Lemma plain_path_parts key_str :
  plain_path key_str = true ->
  py_split key_str = [key_str]
  /\ forallb plain_text (split_on "." key_str) = true
  /\ forallb (fun k => match py_int k with None => true | Some _ => false end)
       (split_on "." key_str) = true.
Proof.
  unfold plain_path. intros H. apply andb_true_iff in H as [Hs Hsegs].
  rewrite forallb_and in Hsegs. apply andb_true_iff in Hsegs as [Hp Hi].
  repeat split; auto.
  destruct (py_split key_str) as [ | k [ | ? ? ] ]; try discriminate.
  apply String.eqb_eq in Hs. now subst.
Qed.

Lemma merge_put_get_shared (doc : dict) (key_str : string) (v : pyval) :
  plain_path key_str = true ->
  (forall d, v <> PDict d) ->
  plain_text (py_str v) = true -> py_str v <> "" ->
  exists nd,
    put_value_into_dict key_str v = Ok (PDict nd)
    /\ nest_val (split_on "." key_str) (PStr (py_str v)) = PDict nd
    /\ get_value_from_dict (PDict (merge doc nd)) key_str = Ok (PStr (py_str v)).
Proof.
  intros Hpath Hnd Hplain Hne.
  destruct (put_then_get_str key_str v Hpath Hnd Hplain Hne) as [Hput _].
  destruct (plain_path_parts key_str Hpath) as (Hsplit & _ & Hint).
  destruct (nest_val_dict (split_on "." key_str) (PStr (py_str v)))
    as (nd & Hnest); [ apply split_on_go_nonempty | ].
  exists nd. rewrite Hput, Hnest. repeat split.
  unfold get_value_from_dict. rewrite Hsplit. cbn [get_candidates].
  rewrite (walk_merge_nest (split_on "." key_str)
             (split_on_go_nonempty _ _ _) Hint doc nd _ Hnest).
  cbn [bind py_truthy].
  destruct (String.eqb_spec (py_str v) ""); [ contradiction | reflexivity ].
Qed.

(** X13.  A value written with [put_value_into_dict] and merged into any
    document is what [get_value_from_dict] then reads at the same path,
    whatever the document held on that path: for a path of plain segments
    and a value that is no dictionary and whose string form is not empty
    and holds no double quote and no backslash, the value read is that
    string form. *)
Theorem merge_put_get (doc : dict) (key_str : string) (v : pyval) :
  plain_path key_str = true ->
  (forall d, v <> PDict d) ->
  plain_text (py_str v) = true -> py_str v <> "" ->
  exists nd,
    put_value_into_dict key_str v = Ok (PDict nd)
    /\ get_value_from_dict (PDict (merge doc nd)) key_str = Ok (PStr (py_str v)).
Proof.
  intros Hpath Hnd Hplain Hne.
  destruct (merge_put_get_shared doc key_str v Hpath Hnd Hplain Hne)
    as (nd & H1 & _ & H2).
  now exists nd.
Qed.

Lemma merge_put_get_witness :
  exists nd,
    put_value_into_dict "source.ip" (PStr "10.0.0.1") = Ok (PDict nd)
    /\ get_value_from_dict
         (PDict (merge [("source", PStr "x"); ("user", PStr "alice")] nd))
         "source.ip"
       = Ok (PStr "10.0.0.1").
Proof.
  apply (merge_put_get [("source", PStr "x"); ("user", PStr "alice")]
           "source.ip" (PStr "10.0.0.1")).
  - reflexivity.
  - discriminate.
  - reflexivity.
  - discriminate.
Defined.

(** ** Fields kept as text *)

Lemma dec_nonempty z : dec z <> "".
Proof.
  unfold dec. destruct z as [ | p | p ]; simpl; try discriminate.
  - unfold NilZero.string_of_uint. destruct (Pos.to_uint p); discriminate.
Qed.

Lemma multi_type_value_text v :
  py_truthy v = true ->
  exists value,
    multi_type_value v = Ok value
    /\ (forall d, value <> PDict d)
    /\ py_str value = multi_type_text v.
Proof.
  destruct v as [ | b | z | s | l | d ]; intros Ht; try discriminate.
  - exists (PBool b). repeat split. discriminate.
  - exists (PInt z). repeat split. discriminate.
  - unfold multi_type_value, multi_type_text. cbn [py_in bind].
    destruct (str_contains "{" s); eexists; repeat split; discriminate.
  - unfold multi_type_value, multi_type_text. cbn [py_in bind].
    destruct (existsb _ l); eexists; repeat split; discriminate.
  - unfold multi_type_value, multi_type_text. cbn [py_in bind].
    destruct (dict_mem "{" d); eexists; repeat split; discriminate.
Qed.

(** X14.  A field named by [json_to_text] is text afterwards: when the
    setting names one path of plain segments and the document holds a
    true value there, [clean_multi_type_field] leaves a document in which
    that path reads as a string, the decimal form of a number, [repr] of a
    string that holds a brace and of a list or a dictionary, and the string
    itself otherwise; provided that text holds no double quote and no
    backslash. *)
Theorem clean_multi_type_field_text (logconfig : config) (doc : dict)
    (key : string) (v : pyval) :
  logconfig "json_to_text" = Some key ->
  plain_path key = true ->
  get_value_from_dict (PDict doc) key = Ok v ->
  py_truthy v = true ->
  plain_text (multi_type_text v) = true ->
  exists doc',
    clean_multi_type_field logconfig doc = Ok doc'
    /\ get_value_from_dict (PDict doc') key = Ok (PStr (multi_type_text v)).
Proof.
  intros Hcfg Hpath Hget Htruthy Hplain.
  destruct (multi_type_value_text v Htruthy) as (value & Hvalue & Hnd & Htext).
  assert (Hne : py_str value <> "").
  { rewrite Htext. destruct v as [ | [ | ] | z | s | l | d ]; try discriminate.
    - apply dec_nonempty.
    - unfold multi_type_text. simpl in Htruthy.
      destruct (str_contains "{" s).
      + unfold repr_str. discriminate.
      + intros ->. discriminate. }
  rewrite <- Htext in Hplain.
  destruct (merge_put_get_shared doc key value Hpath Hnd Hplain Hne)
    as (nd & Hput & Hnest & Hread).
  destruct (plain_path_parts key Hpath) as (Hsplit & _ & _).
  exists (merge doc nd). rewrite <- Htext. split; [ | exact Hread ].
  unfold clean_multi_type_field, config_item. rewrite Hcfg. cbn [bind].
  rewrite Hsplit. cbn [clean_multi_type_loop]. unfold clean_multi_type_step.
  rewrite Hget. cbn [bind]. rewrite Htruthy, Hvalue. cbn [bind].
  rewrite Hput. cbn [bind].
  assert (Hm : merge [] nd = nd).
  { destruct (split_on "." key) as [ | k ks ] eqn:Es;
      [ now apply split_on_go_nonempty in Es | ].
    cbn [nest_val] in Hnest. injection Hnest as <-. reflexivity. }
  now rewrite Hm.
Qed.

Lemma clean_multi_type_field_text_witness :
  exists doc',
    clean_multi_type_field
      (fun k => if String.eqb k "json_to_text" then Some "request.size" else None)
      [("request", PDict [("size", PInt 512); ("id", PStr "r1")])] = Ok doc'
    /\ get_value_from_dict (PDict doc') "request.size"
       = Ok (PStr (multi_type_text (PInt 512))).
Proof.
  apply (clean_multi_type_field_text
           (fun k => if String.eqb k "json_to_text" then Some "request.size" else None)
           [("request", PDict [("size", PInt 512); ("id", PStr "r1")])]
           "request.size" (PInt 512)); reflexivity.
Defined.

Example clean_multi_type_field_brace :
  clean_multi_type_field
    (fun k => if String.eqb k "json_to_text" then Some "a" else None)
    [("a", PStr "{x}"); ("b", PInt 1)]
  = Ok [("a", PStr "'{x}'"); ("b", PInt 1)].
Proof. vm_compute. reflexivity. Qed.

(** ** PathCodec: edges of the lookup and of the fragment builder *)

(** X15.  A segment that [int] reads never selects an entry of a
    dictionary: the keys of a document are strings, and the segment is
    turned into a number before it is used.  So a candidate path whose
    first segment is a number resolves to nothing in every document, even
    in one that has a key spelled like the segment. *)
Theorem get_value_from_dict_number_key (d : dict) (xkeys k : string)
    (rest : list string) (i : Z) :
  py_split xkeys = [xkeys] ->
  split_on "." xkeys = k :: rest ->
  py_int k = Some i ->
  get_value_from_dict (PDict d) xkeys = Ok PNone.
Proof.
  intros Hsplit Hsegs Hint. unfold get_value_from_dict.
  rewrite Hsplit. cbn [get_candidates]. rewrite Hsegs. cbn [walk].
  unfold to_segment. rewrite Hint. reflexivity.
Qed.

Lemma get_value_from_dict_number_key_witness :
  get_value_from_dict (PDict [("2020", PStr "x"); ("a", PStr "y")]) "2020"
  = Ok PNone.
Proof.
  apply (get_value_from_dict_number_key
           [("2020", PStr "x"); ("a", PStr "y")] "2020" "2020" [] 2020);
    reflexivity.
Defined.

(** The innermost object does not decode when the text between the quotes
    holds a double quote that is followed by something other than white
    space, a comma or a closing brace. *)
Lemma scan_once_quoted_fails k a c b tail f :
  plain_text k = true -> plain_text a = true ->
  json_ws c = false -> Ascii.eqb c "}" = false -> Ascii.eqb c "," = false ->
  scan_once (S (S (S f)))
    (fmt_quoted k (a ++ String dquote (String c b)) ++ tail)
  = DecodeError.
Proof.
  intros Hk Ha Hws Hb Hc. unfold fmt_quoted.
  cbn [append scan_once Ascii.eqb dquote]. simpl skip_ws.
  cbn [members Ascii.eqb dquote].
  rewrite !append_assoc. simpl append.
  rewrite (scanstring_plain k Hk). simpl.
  rewrite !append_assoc. simpl append.
  rewrite (scanstring_plain a Ha). cbn [skip_ws]. rewrite Hws, Hb, Hc.
  reflexivity.
Qed.

(** An object with one key around a value that does not decode. *)
Lemma scan_once_raw_fails k body tail f :
  plain_text k = true ->
  skip_ws (body ++ " }" ++ tail) = (body ++ " }" ++ tail)%string ->
  scan_once f (body ++ " }" ++ tail) = DecodeError ->
  scan_once (S (S f)) (fmt_raw k body ++ tail) = DecodeError.
Proof.
  intros Hk Hws Hbody. unfold fmt_raw.
  cbn [append scan_once Ascii.eqb dquote]. simpl skip_ws.
  cbn [members Ascii.eqb dquote].
  rewrite !append_assoc. simpl append.
  rewrite (scanstring_plain k Hk). simpl.
  rewrite !append_assoc. simpl append in *.
  rewrite Hws, Hbody. reflexivity.
Qed.

Lemma scan_once_nest_fails ks k a c b :
  forallb plain_text ks = true -> plain_text k = true -> plain_text a = true ->
  json_ws c = false -> Ascii.eqb c "}" = false -> Ascii.eqb c "," = false ->
  forall tail f,
    scan_once (2 * List.length ks + 3 + f)
      (nest_text ks (fmt_quoted k (a ++ String dquote (String c b))) ++ tail)
    = DecodeError.
Proof.
  intros Hks Hk Ha Hws Hb Hc. induction ks as [ | k0 ks IH ]; intros tail f.
  - now apply scan_once_quoted_fails.
  - simpl in Hks. apply andb_true_iff in Hks as [Hk0 Hks].
    replace (2 * List.length (k0 :: ks) + 3 + f)%nat
      with (S (S (2 * List.length ks + 3 + f)))%nat by (simpl; lia).
    simpl nest_text.
    apply scan_once_raw_fails; auto.
    destruct (nest_text_head ks k (a ++ String dquote (String c b))) as [s ->].
    reflexivity.
Qed.

Lemma json_loads_nest_fails ks k a c b :
  forallb plain_text ks = true -> plain_text k = true -> plain_text a = true ->
  json_ws c = false -> Ascii.eqb c "}" = false -> Ascii.eqb c "," = false ->
  json_loads (nest_text ks (fmt_quoted k (a ++ String dquote (String c b))))
  = Raise JSONDecodeError.
Proof.
  intros Hks Hk Ha Hws Hb Hc. unfold json_loads.
  set (text := (a ++ String dquote (String c b))%string).
  pose proof (nest_text_length ks (fmt_quoted k text)) as Hlen.
  assert (Hq : (1 <= String.length (fmt_quoted k text))%nat)
    by (unfold fmt_quoted; simpl; lia).
  destruct (nest_text_head ks k text) as [s Hs].
  replace (skip_ws (nest_text ks (fmt_quoted k text)))
    with (nest_text ks (fmt_quoted k text) ++ "")%string
    by (rewrite append_nil_r, Hs; reflexivity).
  set (n := String.length (nest_text ks (fmt_quoted k text))) in *.
  replace (2 * n + 2)%nat
    with (2 * List.length ks + 3 + (2 * n - 2 * List.length ks - 1))%nat by lia.
  unfold text. rewrite scan_once_nest_fails by assumption. reflexivity.
Qed.

(** X17.  A string with a double quote in it is dropped: on a path of plain
    segments, for a string value in which the first double quote is
    followed by a character other than white space, a comma or a closing
    brace (a 2, a double quote and a 3, say), the text built for the value
    does not decode and
    [put_value_into_dict] returns the nested dictionary with the value
    ['DROPPED'] at the path. *)
Theorem put_value_into_dict_dropped (key_str a b : string) (c : ascii) :
  forallb plain_text (split_on "." key_str) = true ->
  plain_text a = true ->
  json_ws c = false -> Ascii.eqb c "}" = false -> Ascii.eqb c "," = false ->
  put_value_into_dict key_str (PStr (a ++ String dquote (String c b)))
  = Ok (nest_val (split_on "." key_str) (PStr "DROPPED")).
Proof.
  intros Hpl Ha Hws Hb Hc.
  assert (Hsegs : split_on "." key_str
                  = removelast (split_on "." key_str)
                    ++ [last (split_on "." key_str) ""]).
  { apply app_removelast_last. apply split_on_go_nonempty. }
  rewrite Hsegs in Hpl. rewrite forallb_app in Hpl.
  apply andb_true_iff in Hpl as [Hinit Hlast]. simpl in Hlast.
  rewrite andb_true_r in Hlast.
  unfold put_value_into_dict. rewrite !put_json_data_nest.
  cbn [py_str]. rewrite json_loads_nest_fails by assumption.
  rewrite json_loads_nest by auto.
  rewrite Hsegs at 3. now rewrite nest_val_snoc.
Qed.

Lemma put_value_into_dict_dropped_witness :
  put_value_into_dict "a.b.c" (PStr ("2" ++ String dquote (String "3" "")))
  = Ok (nest_val (split_on "." "a.b.c") (PStr "DROPPED")).
Proof.
  apply (put_value_into_dict_dropped "a.b.c" "2" "" "3"); reflexivity.
Defined.

(** A string can carry a sibling key into the dictionary: the text after
    its double quote is read as JSON. *)
Example put_value_into_dict_injects :
  put_value_into_dict "a"
    (PStr ("x" ++ String dquote ", " ++ String dquote "b" ++ String dquote ": "
           ++ String dquote "y"))
  = Ok (PDict [("a", PStr "x"); ("b", PStr "y")]).
Proof. vm_compute. reflexivity. Qed.

(** ** TimestampResolver: what every branch keeps *)

Lemma get_timestamp_syslog_tzinfo now tz timestr dt :
  get_timestamp_syslog now tz timestr = Ok dt -> tzinfo dt = Some tz.
Proof.
  unfold get_timestamp_syslog.
  destruct timestr as [ | | | text | | ]; try discriminate.
  destruct (syslog_parse text) as [ f | | ]; try discriminate. cbn [bind].
  assert (Hcand : forall cand,
            match syslog_datetime f (year now) tz with
            | Raise ValueError => syslog_datetime f (year now - 1) tz
            | r => r
            end = Ok cand -> tzinfo cand = Some tz).
  { intros cand.
    destruct (syslog_datetime f (year now) tz) as [ d | [] | ] eqn:E1;
      try discriminate.
    - intros [= <-]. now apply syslog_datetime_fields in E1.
    - intros E2. now apply syslog_datetime_fields in E2. }
  destruct (match syslog_datetime f (year now) tz with
            | Raise ValueError => syslog_datetime f (year now - 1) tz
            | r => r
            end) as [ cand | | ]; try discriminate.
  specialize (Hcand cand eq_refl). cbn [bind].
  destruct (datetime_gt cand now) as [ [ | ] | | ]; try discriminate; cbn [bind].
  - intros H. apply replace_year_tzinfo in H. congruence.
  - now intros [= <-].
Qed.

Lemma with_default_zone_aware tz dt : tzinfo (with_default_zone tz dt) <> None.
Proof.
  unfold with_default_zone. destruct (tzinfo dt) eqn:E.
  - congruence.
  - discriminate.
Qed.

(** X18.  Every timestamp that [get_timestamp] returns is aware of its
    zone, whatever the format: the epoch and syslog branches attach the
    default zone, the ISO 8601 and [strptime] branches attach it to a value
    that was read without an offset, and the fallback is the clock of UTC
    (which is aware). *)
Theorem get_timestamp_aware (fromisoformat : string -> res datetime)
    (strptime : string -> string -> res datetime) (utcnow : datetime)
    (logconfig : config) (timestamp_tz : Z) (logdata_dict : dict)
    (dt : datetime) :
  tzinfo utcnow <> None ->
  get_timestamp fromisoformat strptime utcnow logconfig timestamp_tz logdata_dict
  = Ok dt ->
  tzinfo dt <> None.
Proof.
  intros Hnow. unfold get_timestamp.
  destruct (timestamp_settings logconfig) as [ [key fmt] | | ]; try discriminate.
  cbn [bind]. destruct (String.eqb key ""); [ now intros [= <-] | ].
  unfold timezone.
  destruct ((- hours 24 <? timestamp_tz) && (timestamp_tz <? hours 24));
    [ | discriminate ].
  cbn [bind].
  destruct (match dict_get key logdata_dict with
            | Some (PStr s) => Ok (PStr (replace_Z s))
            | Some v => Ok v
            | None => Raise KeyError
            end) as [ timestr | | ]; try discriminate.
  cbn [bind].
  destruct (str_contains "epoch" fmt).
  { unfold get_timestamp_epoch.
    destruct (py_float timestr) as [ epoch | | ]; try discriminate. cbn [bind].
    intros H.
    assert (tzinfo dt = Some timestamp_tz)
      by (destruct (PrimFloat.ltb _ epoch); now apply fromtimestamp_tzinfo in H).
    congruence. }
  destruct (str_contains "syslog" fmt).
  { destruct (syslog_reference utcnow) as [ now | | ]; try discriminate.
    cbn [bind]. intros H. apply get_timestamp_syslog_tzinfo in H. congruence. }
  destruct (str_contains "iso8601" fmt).
  { destruct (as_text timestr) as [ text | | ]; try discriminate. cbn [bind].
    destruct (fromisoformat text) as [ d | | ]; try discriminate. cbn [bind].
    intros [= <-]. apply with_default_zone_aware. }
  destruct (negb (String.eqb fmt "")); [ | discriminate ].
  destruct (as_text timestr) as [ text | | ]; try discriminate. cbn [bind].
  destruct (strptime text fmt) as [ d | | ]; try discriminate. cbn [bind].
  intros [= <-]. apply with_default_zone_aware.
Qed.

Lemma get_timestamp_aware_witness :
  tzinfo (mk_datetime 2023 11 14 22 13 20 0 (Some 0)) <> None.
Proof.
  apply (get_timestamp_aware fromisoformat_sample (fun _ _ => Raise ValueError)
           syslog_sample_utcnow (timestamp_sample_config "epoch") 0
           [("time", PInt 1700000000)]).
  - discriminate.
  - vm_compute. reflexivity.
Defined.

Lemma replace_Z_idem s : replace_Z (replace_Z s) = replace_Z s.
Proof.
  induction s as [ | c s IH ]; [ reflexivity | ].
  cbn [replace_Z]. destruct (Ascii.eqb c "Z") eqn:E.
  - cbn [append replace_Z Ascii.eqb Bool.eqb]. now rewrite IH.
  - cbn [replace_Z]. now rewrite E, IH.
Qed.

(** X19.  The letter [Z] stands for [+00:00]: a document whose timestamp field
    is written with [Z] and the same document with [+00:00] in place of
    each [Z] of that field resolve alike, to the same timestamp or to
    the same exception. *)
Theorem get_timestamp_Z (fromisoformat : string -> res datetime)
    (strptime : string -> string -> res datetime) (utcnow : datetime)
    (logconfig : config) (timestamp_tz : Z) (logdata_dict : dict)
    (key fmt s : string) :
  timestamp_settings logconfig = Ok (key, fmt) ->
  dict_get key logdata_dict = Some (PStr s) ->
  get_timestamp fromisoformat strptime utcnow logconfig timestamp_tz logdata_dict
  = get_timestamp fromisoformat strptime utcnow logconfig timestamp_tz
      (dict_set key (PStr (replace_Z s)) logdata_dict).
Proof.
  intros Hsettings Hget. unfold get_timestamp. rewrite Hsettings. cbn [bind].
  destruct (String.eqb key ""); [ reflexivity | ].
  destruct (timezone timestamp_tz) as [ tz | | ]; try reflexivity. cbn [bind].
  now rewrite Hget, dict_get_set_same, replace_Z_idem.
Qed.

Lemma get_timestamp_Z_witness :
  get_timestamp fromisoformat_sample (fun _ _ => Raise ValueError)
    syslog_sample_utcnow (timestamp_sample_config "iso8601") 0
    [("time", PStr "2020-01-01T00:00:00Z")]
  = get_timestamp fromisoformat_sample (fun _ _ => Raise ValueError)
      syslog_sample_utcnow (timestamp_sample_config "iso8601") 0
      (dict_set "time" (PStr (replace_Z "2020-01-01T00:00:00Z"))
         [("time", PStr "2020-01-01T00:00:00Z")]).
Proof.
  apply (get_timestamp_Z fromisoformat_sample (fun _ _ => Raise ValueError)
           syslog_sample_utcnow (timestamp_sample_config "iso8601") 0
           [("time", PStr "2020-01-01T00:00:00Z")] "time" "iso8601"
           "2020-01-01T00:00:00Z"); reflexivity.
Defined.

Example get_timestamp_Z_sample :
  get_timestamp fromisoformat_sample (fun _ _ => Raise ValueError)
    syslog_sample_utcnow (timestamp_sample_config "iso8601") 0
    [("time", PStr "2020-01-01T00:00:00Z")]
  = Ok (mk_datetime 2020 1 1 0 0 0 0 (Some 0)).
Proof. vm_compute. reflexivity. Qed.

(** X20.  How the syslog branch fails: a text that the pattern does not
    match raises [AttributeError], a match whose three letters are not one
    of the twelve month names raises [KeyError], and the only other
    exception that can leave the branch is the [ValueError] of a date or
    time that does not exist. *)
Theorem get_timestamp_syslog_errors (now : datetime) (tz : Z) (text : string) :
  tzinfo now <> None ->
  (syslog_match text = None ->
   get_timestamp_syslog now tz (PStr text) = Raise AttributeError)
  /\ (forall g, syslog_match text = Some g -> MONTH_TO_INT (g_month g) = None ->
        get_timestamp_syslog now tz (PStr text) = Raise KeyError)
  /\ (forall e, get_timestamp_syslog now tz (PStr text) = Raise e ->
        (e = AttributeError /\ syslog_match text = None)
        \/ (e = KeyError
            /\ exists g, syslog_match text = Some g
                         /\ MONTH_TO_INT (g_month g) = None)
        \/ e = ValueError).
Proof.
  intros Hnow. unfold get_timestamp_syslog, syslog_parse.
  split; [ | split ].
  - now intros ->.
  - intros g -> ->. reflexivity.
  - intros e. destruct (syslog_match text) as [ g | ] eqn:Em.
    + destruct (MONTH_TO_INT (g_month g)) as [ m | ] eqn:Emonth.
      * cbn [bind]. set (f := mk_fields _ _ _ _ _ _).
        assert (Hnew : forall y r, syslog_datetime f y tz = Raise r -> r = ValueError).
        { intros y r. unfold syslog_datetime, datetime_new.
          destruct (valid_fields _ _ _ _ _ _ _); [ discriminate | now intros [= <-] ]. }
        destruct (syslog_datetime f (year now) tz) as [ cand | r | ] eqn:E1.
        -- cbn [bind]. apply syslog_datetime_fields in E1 as [_ Hz].
           unfold datetime_gt. rewrite Hz.
           destruct (tzinfo now); [ | now destruct Hnow ]. cbn [bind].
           destruct (instant now <? instant cand); [ | discriminate ].
           unfold replace_year, datetime_new.
           destruct (valid_fields _ _ _ _ _ _ _); [ discriminate | ].
           intros [= <-]. now right; right.
        -- rewrite (Hnew _ _ E1).
           destruct (syslog_datetime f (year now - 1) tz) as [ cand | r' | ] eqn:E2.
           ++ cbn [bind]. apply syslog_datetime_fields in E2 as [_ Hz].
              unfold datetime_gt. rewrite Hz.
              destruct (tzinfo now); [ | now destruct Hnow ]. cbn [bind].
              destruct (instant now <? instant cand); [ | discriminate ].
              unfold replace_year, datetime_new.
              destruct (valid_fields _ _ _ _ _ _ _); [ discriminate | ].
              intros [= <-]. now right; right.
           ++ cbn [bind]. intros [= <-]. rewrite (Hnew _ _ E2). now right; right.
           ++ discriminate.
        -- discriminate.
      * cbn [bind]. intros [= <-]. right. left. split; [ reflexivity | ].
        now exists g.
    + cbn [bind]. intros [= <-]. now left.
Qed.

Lemma get_timestamp_syslog_errors_witness :
  get_timestamp_syslog syslog_sample_now 0 (PStr "2020-01-01 10:00:00")
  = Raise AttributeError
  /\ get_timestamp_syslog syslog_sample_now 0 (PStr "Foo 12 10:00:00")
     = Raise KeyError.
Proof.
  split.
  - destruct (get_timestamp_syslog_errors syslog_sample_now 0 "2020-01-01 10:00:00")
      as (H & _); [ discriminate | ].
    apply H. reflexivity.
  - destruct (get_timestamp_syslog_errors syslog_sample_now 0 "Foo 12 10:00:00")
      as (_ & H & _); [ discriminate | ].
    apply (H (mk_groups "Foo" "12" "10" "00" "00" None)); reflexivity.
Defined.

(** ** SourceAdapter: the log type and the entries of an object *)

Section LogS3Facts.

Variable re_search_key : string -> string -> res bool.
Variable sections : list (string * config).
Variable s3key : string.
Variable read_object : res bytes.
Variable zip_first_name : bytes -> res string.
Variable read_text : body -> res string.
Variable json_decode : string -> res pyval.

Lemma s3_logtype_from_first secs name :
  s3_logtype_from re_search_key s3key secs = Ok name ->
  (name = "unknown" /\ Forall (s3_no_match re_search_key s3key) secs)
  \/ (exists pre c post p,
        secs = pre ++ (name, c) :: post
        /\ c "s3_key" = Some p /\ re_search_key p s3key = Ok true
        /\ Forall (s3_no_match re_search_key s3key) pre).
Proof.
  induction secs as [ | [section c] secs IH ]; cbn [s3_logtype_from].
  - intros [= <-]. left. split; [ reflexivity | constructor ].
  - unfold config_item. destruct (c "s3_key") as [ p | ] eqn:Ep; [ | discriminate ].
    cbn [bind]. destruct (re_search_key p s3key) as [ [ | ] | | ] eqn:Es;
      try discriminate; cbn [bind].
    + intros [= <-]. right. exists [], c, secs, p. repeat split; auto.
    + intros H. assert (Hno : s3_no_match re_search_key s3key (section, c)) by (now exists p).
      destruct (IH H) as [ [-> Hall] | (pre & c' & post & p' & -> & H1 & H2 & H3) ].
      * left. split; [ reflexivity | now constructor ].
      * right. exists ((section, c) :: pre), c', post, p'.
        repeat split; auto.
Qed.

(** X21.  [LogS3.logtype] is the first section, in the order of the
    configuration, whose [s3_key] pattern is found in the key of the
    object: the patterns of all the sections before it are not found; and
    it is ['unknown'] when no pattern is found at all. *)
Theorem s3_logtype_first_match (name : string) :
  s3_logtype re_search_key sections s3key = Ok name ->
  (name = "unknown" /\ Forall (s3_no_match re_search_key s3key) sections)
  \/ (exists pre c post p,
        sections = pre ++ (name, c) :: post
        /\ c "s3_key" = Some p /\ re_search_key p s3key = Ok true
        /\ Forall (s3_no_match re_search_key s3key) pre).
Proof. intros H. apply s3_logtype_from_first. exact H. Qed.

End LogS3Facts.

Lemma s3_logtype_first_match_witness :
  ("vpcflowlogs" = "unknown"
   /\ Forall (s3_no_match s3_sample_search "AWSLogs/1/vpcflowlogs/x.log.gz")
        s3_sample_sections)
  \/ (exists pre c post p,
        s3_sample_sections = pre ++ ("vpcflowlogs", c) :: post
        /\ c "s3_key" = Some p
        /\ s3_sample_search p "AWSLogs/1/vpcflowlogs/x.log.gz" = Ok true
        /\ Forall (s3_no_match s3_sample_search "AWSLogs/1/vpcflowlogs/x.log.gz")
             pre).
Proof.
  apply (s3_logtype_first_match s3_sample_search s3_sample_sections
           "AWSLogs/1/vpcflowlogs/x.log.gz" "vpcflowlogs").
  reflexivity.
Defined.

Lemma one_line_cons c s :
  one_line (String c s) = negb (Ascii.eqb c "010") && one_line s.
Proof.
  unfold one_line. cbn [str_contains String.prefix].
  destruct (ascii_dec "010" c) as [<- | Hne].
  - now destruct s.
  - destruct (Ascii.eqb_spec c "010") as [-> | _]; [ now destruct Hne | reflexivity ].
Qed.

Lemma one_line_app a b : one_line (a ++ b) = one_line a && one_line b.
Proof.
  induction a as [ | c a IH ]; [ reflexivity | ].
  simpl append. rewrite !one_line_cons, IH. apply andb_assoc.
Qed.

Lemma py_rstrip_snoc_space s c :
  py_isspace c = true -> py_rstrip (s ++ String c "") = py_rstrip s.
Proof.
  intros Hc. induction s as [ | a s IH ].
  - simpl. now rewrite Hc.
  - simpl append. cbn [py_rstrip]. now rewrite IH.
Qed.

Lemma py_lstrip_snoc_space s c :
  py_isspace c = true ->
  py_lstrip (s ++ String c "")
  = match py_lstrip s with
    | EmptyString => EmptyString
    | t => (t ++ String c "")%string
    end.
Proof.
  intros Hc. induction s as [ | a s IH ].
  - simpl. now rewrite Hc.
  - simpl append. cbn [py_lstrip]. destruct (py_isspace a); [ exact IH | reflexivity ].
Qed.

Lemma py_strip_line_feed s : py_strip (s ++ String "010" "") = py_strip s.
Proof.
  unfold py_strip. rewrite py_lstrip_snoc_space by reflexivity.
  destruct (py_lstrip s) as [ | a t ]; [ reflexivity | ].
  now apply py_rstrip_snoc_space.
Qed.

Lemma py_lstrip_one_line s : one_line s = true -> one_line (py_lstrip s) = true.
Proof.
  induction s as [ | c s IH ]; [ trivial | ].
  cbn [py_lstrip]. destruct (py_isspace c); [ | trivial ].
  rewrite one_line_cons. intros H. apply andb_true_iff in H as [_ H]. now apply IH.
Qed.

Lemma py_rstrip_one_line s : one_line s = true -> one_line (py_rstrip s) = true.
Proof.
  induction s as [ | c s IH ]; [ trivial | ].
  rewrite one_line_cons. intros H. apply andb_true_iff in H as [Hc Hs].
  specialize (IH Hs). cbn [py_rstrip].
  destruct (py_rstrip s) as [ | a r ].
  - destruct (py_isspace c); [ reflexivity | ].
    now rewrite one_line_cons, Hc.
  - now rewrite one_line_cons, Hc, IH.
Qed.

Lemma py_rstrip_idem s : py_rstrip (py_rstrip s) = py_rstrip s.
Proof.
  induction s as [ | c s IH ]; [ reflexivity | ].
  cbn [py_rstrip]. destruct (py_rstrip s) as [ | a r ] eqn:E.
  - destruct (py_isspace c) eqn:Ec; [ reflexivity | ].
    cbn [py_rstrip]. now rewrite Ec.
  - cbn [py_rstrip] in *. now rewrite IH.
Qed.

Lemma py_lstrip_head s :
  match py_lstrip s with
  | EmptyString => True
  | String c _ => py_isspace c = false
  end.
Proof.
  induction s as [ | c s IH ]; [ exact I | ].
  cbn [py_lstrip]. destruct (py_isspace c) eqn:E; [ exact IH | exact E ].
Qed.

Lemma py_strip_idem s : py_strip (py_strip s) = py_strip s.
Proof.
  unfold py_strip. pose proof (py_lstrip_head s) as Hhead.
  destruct (py_lstrip s) as [ | c u ]; [ reflexivity | ].
  assert (Hl : py_lstrip (py_rstrip (String c u)) = py_rstrip (String c u)).
  { cbn [py_rstrip]. destruct (py_rstrip u).
    - rewrite Hhead. cbn [py_lstrip]. now rewrite Hhead.
    - cbn [py_lstrip]. now rewrite Hhead. }
  rewrite Hl. apply py_rstrip_idem.
Qed.

(** A line of [readlines] holds no line feed but at its end. *)
Lemma readlines_go_lines s :
  forall acc line, one_line acc = true -> In line (readlines_go s acc) ->
    exists b, one_line b = true
              /\ (line = b \/ line = (b ++ String "010" "")%string).
Proof.
  induction s as [ | c s IH ]; intros acc line Hacc; cbn [readlines_go].
  - destruct (String.eqb acc ""); [ intros [] | ].
    intros [<- | []]. exists acc. auto.
  - destruct (Ascii.eqb_spec c "010") as [-> | Hc].
    + intros [<- | Hin].
      * exists acc. split; [ exact Hacc | now right ].
      * now apply (IH "" line).
    + apply IH. unfold snoc. rewrite one_line_app, Hacc, one_line_cons.
      destruct (Ascii.eqb_spec c "010"); [ contradiction | reflexivity ].
Qed.

Lemma stripped_of_line line :
  (exists b, one_line b = true
             /\ (line = b \/ line = (b ++ String "010" "")%string)) ->
  py_strip (py_strip line) = py_strip line /\ one_line (py_strip line) = true.
Proof.
  intros (b & Hb & Hline). split; [ apply py_strip_idem | ].
  assert (E : py_strip line = py_strip b)
    by (destruct Hline as [-> | ->]; [ reflexivity | apply py_strip_line_feed ]).
  rewrite E. unfold py_strip. now apply py_rstrip_one_line, py_lstrip_one_line.
Qed.

Lemma In_py_slice_from {A} (l : list A) n x : In x (py_slice_from l n) -> In x l.
Proof.
  unfold py_slice_from.
  set (k := Z.to_nat _). intros H. rewrite <- (firstn_skipn k l).
  apply in_or_app. right. exact H.
Qed.

Lemma stripped_entries lines n entry :
  (forall line, In line lines ->
     exists b, one_line b = true
               /\ (line = b \/ line = (b ++ String "010" "")%string)) ->
  In entry (map (fun logdata => PStr (py_strip logdata)) (py_slice_from lines n)) ->
  exists s, entry = PStr s /\ py_strip s = s /\ one_line s = true.
Proof.
  intros Hlines Hin. apply in_map_iff in Hin as (line & <- & Hin).
  apply In_py_slice_from in Hin.
  destruct (stripped_of_line line (Hlines line Hin)) as [H1 H2].
  now exists (py_strip line).
Qed.

(** X22.  Every entry that [LogS3.logdata_list] yields for a text or CSV
    object is one line of the object without its line end: a string that
    holds no line feed and has no white space at either end (an empty
    string for a blank line). *)
Theorem s3_logdata_list_lines (re_search_key : string -> string -> res bool)
    (sections : list (string * config)) (s3key : string)
    (read_object : res bytes) (zip_first_name : bytes -> res string)
    (read_text : body -> res string) (json_decode : string -> res pyval)
    (file_format : string) (entry : pyval) :
  s3_file_format re_search_key sections s3key = Ok file_format ->
  str_contains "text" file_format || str_contains "csv" file_format = true ->
  In entry (fst (s3_logdata_list re_search_key sections s3key read_object
                   zip_first_name read_text json_decode)) ->
  exists s, entry = PStr s /\ py_strip s = s /\ one_line s = true.
Proof.
  intros Hff Hkind. unfold s3_logdata_list. rewrite Hff.
  assert (Hlines : forall lines,
            s3_readlines read_object zip_first_name read_text = Ok lines ->
            forall line, In line lines ->
              exists b, one_line b = true
                        /\ (line = b \/ line = (b ++ String "010" "")%string)).
  { unfold s3_readlines. intros lines.
    destruct read_object as [ object_bytes | | ]; try discriminate. cbn [bind].
    destruct (rawdata zip_first_name object_bytes) as [ stream | | ];
      try discriminate.
    cbn [bind]. destruct (read_text stream) as [ text | | ]; try discriminate.
    cbn [bind]. intros [= <-] line. now apply readlines_go_lines. }
  destruct (str_contains "text" file_format).
  - destruct (s3_config_item re_search_key sections s3key "text_header_line_number")
      as [ number | | ]; cbn [bind gen_raise fst]; try (now intros []).
    destruct (py_int number) as [ n | ]; cbn [bind gen_raise fst]; try (now intros []).
    destruct (s3_readlines read_object zip_first_name read_text) as [ lines | | ];
      cbn [bind gen_raise fst]; try (now intros []).
    apply stripped_entries. now apply Hlines.
  - cbn [orb] in Hkind. rewrite Hkind.
    destruct (s3_readlines read_object zip_first_name read_text) as [ lines | | ];
      cbn [bind gen_raise fst]; try (now intros []).
    apply stripped_entries. now apply Hlines.
Qed.

Lemma s3_logdata_list_lines_witness :
  exists s, PStr "2 eni-1 ACCEPT" = PStr s /\ py_strip s = s /\ one_line s = true.
Proof.
  apply (s3_logdata_list_lines s3_sample_search s3_sample_sections
           "AWSLogs/1/vpcflowlogs/x.log.gz" (Ok rawdata_sample)
           (fun _ => Raise (Exception "BadZipFile"))
           (fun _ => Ok s3_sample_text)
           (fun _ => Raise JSONDecodeError) "text").
  - reflexivity.
  - reflexivity.
  - vm_compute. left. reflexivity.
Defined.

Example s3_logdata_list_sample :
  s3_logdata_list s3_sample_search s3_sample_sections
    "AWSLogs/1/vpcflowlogs/x.log.gz" (Ok rawdata_sample)
    (fun _ => Raise (Exception "BadZipFile"))
    (fun _ => Ok s3_sample_text)
    (fun _ => Raise JSONDecodeError)
  = yields [PStr "2 eni-1 ACCEPT"; PStr ""; PStr "last"].
Proof. vm_compute. reflexivity. Qed.

(** ** SourceAdapter: the log type of a Kinesis record *)

Lemma kinesis_logtype_from_first rawdata_dict group head secs name :
  kinesis_meta rawdata_dict = Ok (PStr head) ->
  kinesis_logtype_from rawdata_dict (PStr group) secs = Ok name ->
  (name = "unknown" /\ Forall (kinesis_no_match (lower group) (lower head)) secs)
  \/ (exists pre c post setting,
        secs = pre ++ (name, c) :: post
        /\ c "loggroup" = Some setting
        /\ (str_contains setting (lower group) = true
            \/ str_contains setting (lower head) = true)
        /\ Forall (kinesis_no_match (lower group) (lower head)) pre).
Proof.
  intros Hmeta.
  induction secs as [ | [section c] secs IH ]; cbn [kinesis_logtype_from].
  - intros [= <-]. left. split; [ reflexivity | constructor ].
  - unfold config_item.
    destruct (c "loggroup") as [ setting | ] eqn:Ec; [ | discriminate ].
    cbn [bind py_lower].
    destruct (str_contains setting (lower group)) eqn:Eg.
    { intros [= <-]. right. exists [], c, secs, setting. repeat split; auto. }
    rewrite Hmeta. cbn [bind py_lower].
    destruct (str_contains setting (lower head)) eqn:Eh.
    { intros [= <-]. right. exists [], c, secs, setting. repeat split; auto. }
    intros H.
    assert (Hno : kinesis_no_match (lower group) (lower head) (section, c))
      by (now exists setting).
    destruct (IH H) as [ [-> Hall] | (pre & c' & post & s' & -> & H1 & H2 & H3) ].
    + left. split; [ reflexivity | now constructor ].
    + right. exists ((section, c) :: pre), c', post, s'. repeat split; auto.
Qed.

(** X23.  [LogKinesis.logtype], for a record whose log group is a string
    and whose first message starts with the text [head] (its first 150
    characters, or the empty text when the record has no events entry or
    the event no message): the result is the first section, in the order of
    the configuration, whose [loggroup] setting is part of the name of the
    log group in lower case or of [head] in lower case, and ['unknown']
    when the loop has found no such section. *)
Theorem kinesis_logtype_first_match (sections : list (string * config))
    (rawdata_dict : pyval) (group head name : string) :
  kinesis_meta rawdata_dict = Ok (PStr head) ->
  kinesis_logtype sections rawdata_dict (PStr group) = Ok name ->
  (name = "unknown"
   /\ Forall (kinesis_no_match (lower group) (lower head)) sections)
  \/ (exists pre c post setting,
        sections = pre ++ (name, c) :: post
        /\ c "loggroup" = Some setting
        /\ (str_contains setting (lower group) = true
            \/ str_contains setting (lower head) = true)
        /\ Forall (kinesis_no_match (lower group) (lower head)) pre).
Proof.
  intros Hmeta Hname.
  exact (kinesis_logtype_from_first rawdata_dict group head sections name Hmeta Hname).
Qed.

Lemma kinesis_logtype_first_match_witness :
  ("vpcflowlogs" = "unknown"
   /\ Forall (kinesis_no_match (lower "/aws/VPCFlowLogs") (lower "2 eni-1 ACCEPT"))
        kinesis_sample_sections)
  \/ (exists pre c post setting,
        kinesis_sample_sections = pre ++ ("vpcflowlogs", c) :: post
        /\ c "loggroup" = Some setting
        /\ (str_contains setting (lower "/aws/VPCFlowLogs") = true
            \/ str_contains setting (lower "2 eni-1 ACCEPT") = true)
        /\ Forall (kinesis_no_match (lower "/aws/VPCFlowLogs") (lower "2 eni-1 ACCEPT"))
             pre).
Proof.
  apply (kinesis_logtype_first_match kinesis_sample_sections kinesis_sample_record
           "/aws/VPCFlowLogs" "2 eni-1 ACCEPT" "vpcflowlogs"); reflexivity.
Defined.

(** The record of a log group that no section names, without events: the
    subscript [0] raises [IndexError], which the [except KeyError] does not
    take. *)
Example kinesis_logtype_no_events :
  kinesis_logtype kinesis_sample_sections
    (PDict [("logGroup", PStr "other"); ("logEvents", PList [])]) (PStr "other")
  = Raise IndexError.
Proof. reflexivity. Qed.

(** A section with an empty setting takes every record. *)
Example kinesis_logtype_empty_setting :
  kinesis_logtype [("any", fun k => Some "")] kinesis_sample_record
    (PStr "/aws/VPCFlowLogs")
  = Ok "any".
Proof. reflexivity. Qed.

(** ** The parser's other fields *)

Lemma ignored_by_rules logdata_dict rules :
  forall todo,
    (forall rule, In rule todo -> dict_get (fst rule) rules = Some (snd rule)) ->
    text_rules logdata_dict todo = true ->
    (ignored_by logdata_dict (PDict rules) (map (fun kv => PStr (fst kv)) todo)
     = Ok true
     /\ Exists (rule_applies logdata_dict) todo)
    \/ (ignored_by logdata_dict (PDict rules) (map (fun kv => PStr (fst kv)) todo)
        = Ok false
        /\ ~ Exists (rule_applies logdata_dict) todo).
Proof.
  induction todo as [ | [key p] todo IH ]; intros Hget Htext.
  - right. split; [ reflexivity | ]. intros H. inversion H.
  - unfold text_rules in Htext. cbn [forallb fst snd] in Htext.
    apply andb_true_iff in Htext as [Hrule Htext'].
    destruct p as [ | | | pattern | | ]; try discriminate.
    assert (Hv : forall v, dict_get key logdata_dict = Some v ->
              exists value, v = PStr value).
    { intros v Ev. rewrite Ev in Hrule.
      destruct v; try discriminate. now eexists. }
    clear Hrule.
    assert (Hget' : forall rule, In rule todo ->
              dict_get (fst rule) rules = Some (snd rule))
      by (intros rule Hin; apply Hget; now right).
    specialize (IH Hget' Htext').
    assert (Hskip : ~ rule_applies logdata_dict (key, PStr pattern) ->
              (ignored_by logdata_dict (PDict rules)
                 (map (fun kv => PStr (fst kv)) todo) = Ok true
               /\ Exists (rule_applies logdata_dict) ((key, PStr pattern) :: todo))
              \/ (ignored_by logdata_dict (PDict rules)
                    (map (fun kv => PStr (fst kv)) todo) = Ok false
                  /\ ~ Exists (rule_applies logdata_dict)
                         ((key, PStr pattern) :: todo))).
    { intros Hno. destruct IH as [ [H1 H2] | [H1 H2] ].
      - left. split; [ exact H1 | now right ].
      - right. split; [ exact H1 | ]. intros H. inversion H; subst; contradiction. }
    cbn [map fst ignored_by py_contains bind]. unfold dict_mem.
    destruct (dict_get key logdata_dict) as [ v | ] eqn:Ev.
    + destruct (Hv v eq_refl) as [value ->].
      cbn [py_subscript py_getitem bind]. rewrite Ev. cbn [bind py_truthy].
      destruct (String.eqb_spec value "") as [-> | Hne]; cbn [negb].
      * apply Hskip. intros (p' & v' & _ & Hd & Hn & _). simpl in Hd.
        rewrite Ev in Hd. injection Hd as <-. now destruct Hn.
      * specialize (Hget (key, PStr pattern) (or_introl eq_refl)). simpl in Hget.
        rewrite Hget. cbn [bind py_contains].
        destruct (str_contains pattern value) eqn:Ec.
        -- left. split; [ reflexivity | ]. left. now exists pattern, value.
        -- apply Hskip. intros (p' & v' & Hp' & Hd & _ & Hc). simpl in Hp', Hd.
           injection Hp' as <-. rewrite Ev in Hd. injection Hd as <-. congruence.
    + apply Hskip. intros (p' & v' & _ & Hd & _). simpl in Hd. congruence.
Qed.

(** X24.  [check_ignored_log] for rules that are texts, on fields that are
    texts: the entry is ignored exactly when some rule of its log type
    names a top-level field of the entry that is not empty and of which the
    rule's pattern is a part.  The key of a rule is looked up as it is
    spelled; it is not read as a dotted path. *)
Theorem check_ignored_log_rule (logtype : string) (logdata_dict ignore_list rules : dict) :
  dict_get logtype ignore_list = Some (PDict rules) ->
  wf_dict rules = true ->
  text_rules logdata_dict rules = true ->
  (check_ignored_log logtype logdata_dict (PDict ignore_list) = Ok true
   /\ Exists (rule_applies logdata_dict) rules)
  \/ (check_ignored_log logtype logdata_dict (PDict ignore_list) = Ok false
      /\ ~ Exists (rule_applies logdata_dict) rules).
Proof.
  intros Hrules Hwf Htext. unfold check_ignored_log.
  cbn [py_in bind]. unfold dict_mem. rewrite Hrules.
  cbn [py_getitem]. rewrite Hrules. cbn [bind py_iter].
  apply ignored_by_rules; [ | exact Htext ].
  intros [k v] Hin. now apply dict_get_wf_in.
Qed.

Lemma check_ignored_log_rule_witness :
  (check_ignored_log "vpcflowlogs"
     [("action", PStr "ACCEPT"); ("flow", PDict [("action", PStr "REJECT")])]
     (PDict [("vpcflowlogs", PDict [("action", PStr "ACC"); ("flow.action", PStr "REJ")])])
   = Ok true
   /\ Exists (rule_applies
                [("action", PStr "ACCEPT"); ("flow", PDict [("action", PStr "REJECT")])])
        [("action", PStr "ACC"); ("flow.action", PStr "REJ")])
  \/ (check_ignored_log "vpcflowlogs"
        [("action", PStr "ACCEPT"); ("flow", PDict [("action", PStr "REJECT")])]
        (PDict [("vpcflowlogs", PDict [("action", PStr "ACC"); ("flow.action", PStr "REJ")])])
      = Ok false
      /\ ~ Exists (rule_applies
                     [("action", PStr "ACCEPT"); ("flow", PDict [("action", PStr "REJECT")])])
             [("action", PStr "ACC"); ("flow.action", PStr "REJ")]).
Proof.
  apply (check_ignored_log_rule "vpcflowlogs"
           [("action", PStr "ACCEPT"); ("flow", PDict [("action", PStr "REJECT")])]
           [("vpcflowlogs", PDict [("action", PStr "ACC"); ("flow.action", PStr "REJ")])]
           [("action", PStr "ACC"); ("flow.action", PStr "REJ")]).
  - reflexivity.
  - reflexivity.
  - reflexivity.
Defined.

(** A rule on a nested field never applies: its key is no top-level key. *)
Example check_ignored_log_dotted :
  check_ignored_log "vpcflowlogs"
    [("flow", PDict [("action", PStr "REJECT")])]
    (PDict [("vpcflowlogs", PDict [("flow.action", PStr "REJ")])])
  = Ok false.
Proof. reflexivity. Qed.

(** X25.  [index_id] with a suffix configured is the text of [@id], an
    underscore and the text of the first suffix candidate that resolves to
    a true value; when no candidate does, the suffix is the text [None]. *)
Theorem index_id_suffix (logconfig : config) (logdata_dict : dict)
    (doc_id_suffix : string) (id : pyval) :
  logconfig "doc_id_suffix" = Some doc_id_suffix ->
  doc_id_suffix <> "" ->
  dict_get "@id" logdata_dict = Some id ->
  index_id logconfig logdata_dict
  = Ok (PStr (py_str id ++ "_"
              ++ py_str (first_truthy (PDict logdata_dict) (py_split doc_id_suffix))))
  /\ (forallb (fun c => negb (resolves_truthy (resolve_path (PDict logdata_dict) c)))
        (py_split doc_id_suffix) = true ->
      index_id logconfig logdata_dict = Ok (PStr (py_str id ++ "_None"))).
Proof.
  intros Hcfg Hne Hid.
  assert (Hrun : index_id logconfig logdata_dict
                 = Ok (PStr (py_str id ++ "_"
                        ++ py_str (first_truthy (PDict logdata_dict)
                                     (py_split doc_id_suffix))))).
  { unfold index_id, config_item. rewrite Hcfg. cbn [bind py_truthy].
    destruct (String.eqb_spec doc_id_suffix ""); [ contradiction | ]. cbn [negb].
    unfold get_value_from_dict. rewrite get_candidates_first_truthy.
    cbn [bind py_getitem]. now rewrite Hid. }
  split; [ exact Hrun | ].
  intros Hnone. rewrite Hrun.
  assert (Hf : first_truthy (PDict logdata_dict) (py_split doc_id_suffix) = PNone).
  { revert Hnone. unfold first_truthy. clear.
    induction (py_split doc_id_suffix) as [ | c cands IH ]; [ reflexivity | ].
    simpl. intros H. apply andb_true_iff in H as [H1 H2].
    apply negb_true_iff in H1. rewrite H1. now apply IH. }
  now rewrite Hf.
Qed.

Lemma index_id_suffix_witness :
  index_id (fun k => if String.eqb k "doc_id_suffix" then Some "seq" else None)
    [("@id", PStr "abc"); ("seq", PInt 0)]
  = Ok (PStr "abc_None").
Proof.
  apply (index_id_suffix
           (fun k => if String.eqb k "doc_id_suffix" then Some "seq" else None)
           [("@id", PStr "abc"); ("seq", PInt 0)] "seq" (PStr "abc")).
  - reflexivity.
  - discriminate.
  - reflexivity.
  - reflexivity.
Defined.

(** ** The serialised entry *)

Lemma del_none_keys d k : In k (map fst (del_none d)) -> In k (map fst d).
Proof.
  induction d as [ | [k0 v0] d IH ]; [ trivial | ].
  rewrite del_none_cons. simpl.
  destruct v0 as [ | b | z | s | l | [ | e dx ] ]; simpl; try tauto.
  destruct (is_sentinel s); simpl; tauto.
Qed.

Lemma del_none_NoDup d : NoDup (map fst d) -> NoDup (map fst (del_none d)).
Proof.
  induction d as [ | [k0 v0] d IH ]; [ trivial | ].
  intros H. inversion H as [ | ? ? Hk Hd ]; subst. specialize (IH Hd).
  assert (Hk' : ~ In k0 (map fst (del_none d)))
    by (intros Hin; apply Hk; now apply del_none_keys).
  rewrite del_none_cons.
  destruct v0 as [ | b | z | s | l | [ | e dx ] ]; simpl;
    try (constructor; assumption); try assumption.
  destruct (is_sentinel s); simpl; [ assumption | now constructor ].
Qed.

Lemma del_none_wf_val :
  forall v d, v = PDict d -> wf_dict d = true -> wf_dict (del_none d) = true.
Proof.
  induction v as [ | | | | | d0 IH ] using pyval_nested_ind;
    intros d E; try discriminate.
  injection E as <-. intros Hwf.
  apply wf_dict_intro; [ apply del_none_NoDup; now apply wf_dict_NoDup | ].
  pose proof (wf_dict_Forall d0 Hwf) as Hall. clear Hwf.
  induction d0 as [ | [k x] d0 IHd ]; [ constructor | ].
  inversion IH as [ | ? ? Hx Hrest ]; subst.
  inversion Hall as [ | ? ? Hv Hall' ]; subst. specialize (IHd Hrest Hall').
  rewrite del_none_cons. simpl in Hv, Hx.
  destruct x as [ | b | z | s | l | [ | e dx ] ];
    try (constructor; [ exact Hv | exact IHd ]); try exact IHd.
  - destruct (is_sentinel s); [ exact IHd | constructor; [ exact Hv | exact IHd ] ].
  - constructor; [ | exact IHd ]. simpl. exact (Hx _ eq_refl Hv).
Qed.

Lemma json_cleanup_wf d : wf_dict d = true -> wf_dict (json_cleanup d) = true.
Proof.
  intros H. unfold json_cleanup.
  apply (del_none_wf_val (PDict (del_none d)) _ eq_refl).
  now apply (del_none_wf_val (PDict d) _ eq_refl).
Qed.

(** X26.  The text of the [json] property is a JSON text that decodes to
    the cleaned entry: for an entry in which no dictionary holds a key
    twice, [json.loads] of the text gives back the entry as the two passes
    of [del_none] left it, so nothing is lost or altered by the
    serialisation. *)
Theorem json_decodes (logdata_dict : dict) :
  wf_dict logdata_dict = true ->
  json_loads (json logdata_dict) = Ok (PDict (json_cleanup logdata_dict)).
Proof.
  intros Hwf. unfold json. apply json_loads_json_dumps.
  exact (json_cleanup_wf logdata_dict Hwf).
Qed.

Lemma json_decodes_witness :
  json_loads (json [("@id", PStr "x"); ("a", PDict [("b", PStr "-")]);
                    ("n", PInt (-3)); ("l", PList [PStr ""; PNone])])
  = Ok (PDict (json_cleanup
                 [("@id", PStr "x"); ("a", PDict [("b", PStr "-")]);
                  ("n", PInt (-3)); ("l", PList [PStr ""; PNone])])).
Proof.
  apply (json_decodes [("@id", PStr "x"); ("a", PDict [("b", PStr "-")]);
                       ("n", PInt (-3)); ("l", PList [PStr ""; PNone])]).
  reflexivity.
Defined.

Example json_sample :
  json [("@id", PStr "x"); ("a", PDict [("b", PStr "-")]);
        ("n", PInt (-3)); ("l", PList [PStr ""; PNone])]
  = ("{" ++ String dquote "@id" ++ String dquote ": " ++ String dquote "x"
     ++ String dquote ", " ++ String dquote "n" ++ String dquote ": -3, "
     ++ String dquote "l" ++ String dquote ": [" ++ String dquote ""
     ++ String dquote ", null]}")%string.
Proof. vm_compute. reflexivity. Qed.

(** ** Schema mapping: the fields of the entry are kept *)

Lemma dict_mem_set k key v a :
  dict_mem k (dict_set key v a) = dict_mem k a || String.eqb k key.
Proof.
  unfold dict_mem. destruct (String.eqb_spec k key) as [-> | Hne].
  - rewrite dict_get_set_same. now destruct (dict_get key a).
  - rewrite dict_get_set_other by assumption. now destruct (dict_get k a).
Qed.

Lemma dict_mem_merge_step k key bv a :
  dict_mem k (merge_step key bv a) = dict_mem k a || String.eqb k key.
Proof.
  unfold merge_step.
  destruct (dict_get key a) as [ av | ] eqn:Hget; [ | apply dict_mem_set ].
  assert (Hsame : dict_mem k a = dict_mem k a || String.eqb k key).
  { destruct (String.eqb_spec k key) as [-> | _]; [ | now rewrite orb_false_r ].
    unfold dict_mem. now rewrite Hget. }
  destruct av as [ | | | | | ad ], bv as [ | | | | | bd ];
    try (destruct (py_eq _ _); [ exact Hsame | apply dict_mem_set ]);
    apply dict_mem_set.
Qed.

Lemma dict_mem_merge k b :
  forall a, dict_mem k (merge a b) = dict_mem k a || dict_mem k (b : dict).
Proof.
  induction b as [ | [key bv] b IH ]; intros a.
  - rewrite merge_nil. now rewrite orb_false_r.
  - rewrite merge_cons, IH, dict_mem_merge_step.
    unfold dict_mem. cbn [dict_get].
    destruct (dict_get k a), (String.eqb k key), (dict_get k b); reflexivity.
Qed.

Section SchemaMappingKeeps.

Variable ip_address : pyval -> bool.
Variable logconfig : config.
Variable accountid region : pyval.
Variable logdata_dict : dict.

Lemma ecs_mapping_keeps k ecs_keys :
  forall ecs_dict ecs_dict',
    ecs_mapping ip_address logconfig logdata_dict ecs_dict ecs_keys = Ok ecs_dict' ->
    dict_mem k ecs_dict = true -> dict_mem k ecs_dict' = true.
Proof.
  induction ecs_keys as [ | ecs_key rest IH ]; intros ecs_dict ecs_dict';
    cbn [ecs_mapping].
  - now intros [= <-].
  - destruct (ecs_step ip_address logconfig logdata_dict ecs_dict ecs_key)
      as [ d1 | | ] eqn:Es; try discriminate.
    cbn [bind]. intros H Hk. apply (IH _ _ H).
    revert Es. unfold ecs_step.
    destruct (config_item logconfig ecs_key) as [ ok | | ]; try discriminate.
    cbn [bind].
    destruct (get_value_from_dict (PDict logdata_dict) ok) as [ v | | ];
      try discriminate.
    cbn [bind]. destruct (py_truthy v); [ | now intros [= <-] ].
    destruct (put_value_into_dict ecs_key v) as [ nd | | ]; try discriminate.
    + destruct (str_contains ".ip" ecs_key && negb (ip_address v));
        [ now intros [= <-] | ].
      destruct nd; try discriminate. intros [= <-].
      rewrite dict_mem_merge, Hk. reflexivity.
    + destruct (str_contains ".ip" ecs_key && negb (ip_address v));
        [ now intros [= <-] | discriminate ].
Qed.

Lemma static_mapping_keeps k static_ecs_keys :
  forall ecs_dict ecs_dict',
    static_mapping logconfig ecs_dict static_ecs_keys = Ok ecs_dict' ->
    dict_mem k ecs_dict = true -> dict_mem k ecs_dict' = true.
Proof.
  induction static_ecs_keys as [ | key rest IH ]; intros ecs_dict ecs_dict';
    cbn [static_mapping].
  - now intros [= <-].
  - destruct (config_item logconfig key) as [ value | | ]; try discriminate.
    cbn [bind].
    destruct (put_value_into_dict key (PStr value)) as [ nd | | ]; try discriminate.
    cbn [bind]. destruct nd; try discriminate.
    intros H Hk. apply (IH _ _ H). rewrite dict_mem_merge, Hk. reflexivity.
Qed.

Lemma cloud_defaults_keeps k ecs_dict ecs_dict' :
  cloud_defaults accountid region ecs_dict = Ok ecs_dict' ->
  dict_mem k ecs_dict = true -> dict_mem k ecs_dict' = true.
Proof.
  unfold cloud_defaults.
  destruct (dict_get "cloud" ecs_dict) as [ cloud | ]; [ | now intros [= <-] ].
  destruct (py_in "account" cloud) as [ has_account | | ]; try discriminate.
  cbn [bind].
  destruct (if has_account
            then account <- py_getitem cloud (KStr "account") ;; py_in "id" account
            else Ok false) as [ has_id | | ]; try discriminate.
  cbn [bind].
  destruct (if has_account && has_id then Ok cloud
            else if py_truthy accountid
                 then py_setitem cloud "account" (PDict [("id", accountid)])
                 else Ok cloud) as [ cloud1 | | ]; try discriminate.
  cbn [bind].
  destruct (py_in "region" cloud1) as [ has_region | | ]; try discriminate.
  cbn [bind].
  destruct (if has_region then Ok cloud1
            else if py_truthy region
                 then py_setitem cloud1 "region" region
                 else py_setitem cloud1 "region" (PStr "unknown"))
    as [ cloud2 | | ]; try discriminate.
  cbn [bind]. intros [= <-] Hk. now rewrite dict_mem_set, Hk.
Qed.

(** X27.  [transform_to_ecs] drops no field of the entry and always adds
    the [ecs] field: every top-level key of the entry is a key of the
    document it returns, and so is ['ecs']. *)
Theorem transform_to_ecs_keeps_fields (doc : dict) :
  transform_to_ecs ip_address logconfig accountid region logdata_dict = Ok doc ->
  dict_mem "ecs" doc = true
  /\ forall k, dict_mem k logdata_dict = true -> dict_mem k doc = true.
Proof.
  unfold transform_to_ecs.
  destruct (config_item logconfig "ecs_version") as [ ecs_version | | ];
    try discriminate.
  cbn [bind].
  destruct (config_item logconfig "cloud_provider") as [ cloud_provider | | ];
    try discriminate.
  cbn [bind].
  destruct (config_item logconfig "ecs") as [ ecs | | ]; try discriminate.
  cbn [bind].
  set (ecs_dict1 := if py_truthy (PStr cloud_provider)
                    then dict_set "cloud" (PDict [("provider", PStr cloud_provider)])
                           [("ecs", PDict [("version", PStr ecs_version)])]
                    else [("ecs", PDict [("version", PStr ecs_version)])]).
  assert (H1 : dict_mem "ecs" ecs_dict1 = true)
    by (unfold ecs_dict1; destruct (py_truthy (PStr cloud_provider)); reflexivity).
  destruct (ecs_mapping ip_address logconfig logdata_dict ecs_dict1 (py_split ecs))
    as [ ecs_dict2 | | ] eqn:E2; try discriminate.
  cbn [bind]. pose proof (ecs_mapping_keeps "ecs" _ _ _ E2 H1) as H2.
  destruct (cloud_defaults accountid region ecs_dict2) as [ ecs_dict3 | | ] eqn:E3;
    try discriminate.
  cbn [bind]. pose proof (cloud_defaults_keeps "ecs" _ _ E3 H2) as H3.
  destruct (match logconfig "static_ecs" with
            | Some static_ecs_keys =>
                if py_truthy (PStr static_ecs_keys)
                then static_mapping logconfig ecs_dict3 (py_split static_ecs_keys)
                else Ok ecs_dict3
            | None => Ok ecs_dict3
            end) as [ ecs_dict4 | | ] eqn:E4; try discriminate.
  cbn [bind]. intros [= <-].
  assert (H4 : dict_mem "ecs" ecs_dict4 = true).
  { destruct (logconfig "static_ecs") as [ keys | ]; [ | now injection E4 as <- ].
    destruct (py_truthy (PStr keys)); [ | now injection E4 as <- ].
    exact (static_mapping_keeps "ecs" _ _ _ E4 H3). }
  split.
  - rewrite dict_mem_merge, H4. apply orb_true_r.
  - intros k Hk. rewrite dict_mem_merge, Hk. reflexivity.
Qed.

End SchemaMappingKeeps.

Lemma transform_to_ecs_keeps_fields_witness :
  dict_mem "ecs"
    [("src", PStr "not-an-ip"); ("user", PDict [("name", PStr "alice")]);
     ("ecs", PDict [("version", PStr "1.5.0")]);
     ("cloud", PDict [("provider", PStr "aws"); ("region", PStr "unknown")])]
  = true
  /\ forall k, dict_mem k ecs_sample_entry = true ->
       dict_mem k
         [("src", PStr "not-an-ip"); ("user", PDict [("name", PStr "alice")]);
          ("ecs", PDict [("version", PStr "1.5.0")]);
          ("cloud", PDict [("provider", PStr "aws"); ("region", PStr "unknown")])]
       = true.
Proof.
  apply (transform_to_ecs_keeps_fields dotted_quad ecs_sample_config PNone PNone
           ecs_sample_entry).
  vm_compute. reflexivity.
Defined.

(** ** Index naming: daily names and calendar dates *)

Lemma year_reads_back :
  forallb digits_read_back (seq 1 (Z.to_nat 9999)) = true.
Proof. vm_compute. reflexivity. Qed.

(** The year of [%Y], which has one to four digits, is recovered from its
    digits. *)
Lemma strftime_Y_year dt :
  1 <= year dt <= 9999 -> int_of_digits (strftime_Y dt) = year dt.
Proof.
  intros Hy. pose proof year_reads_back as Hall. rewrite forallb_forall in Hall.
  specialize (Hall (Z.to_nat (year dt))).
  assert (Hin : In (Z.to_nat (year dt)) (seq 1 (Z.to_nat 9999)))
    by (apply in_seq; lia).
  specialize (Hall Hin). unfold digits_read_back in Hall.
  rewrite Z2Nat.id in Hall by lia. now apply Z.eqb_eq in Hall.
Qed.

Lemma day_reads_back :
  forallb (field_reads_back 2) (seq 1 (Z.to_nat 31)) = true.
Proof. vm_compute. reflexivity. Qed.

Lemma field_reads_back_range width lo len z :
  forallb (field_reads_back width) (seq lo len) = true ->
  Z.of_nat lo <= z < Z.of_nat lo + Z.of_nat len ->
  String.length (pad_left width (dec z)) = width
  /\ int_of_digits (pad_left width (dec z)) = z.
Proof.
  intros Hall Hz. rewrite forallb_forall in Hall.
  specialize (Hall (Z.to_nat z)).
  assert (Hin : In (Z.to_nat z) (seq lo len)) by (apply in_seq; lia).
  specialize (Hall Hin). unfold field_reads_back in Hall.
  rewrite Z2Nat.id in Hall by lia.
  apply andb_true_iff in Hall as [H1 H2].
  apply Nat.eqb_eq in H1. apply Z.eqb_eq in H2. now split.
Qed.

Lemma append_cancel_l (a b c : string) : (a ++ b = a ++ c)%string -> b = c.
Proof.
  induction a as [ | x a IH ]; simpl; [ trivial | ].
  intros [= H]. now apply IH.
Qed.

Lemma append_split (a a' : string) :
  forall b b', String.length a = String.length a' ->
    (a ++ b = a' ++ b')%string -> a = a' /\ b = b'.
Proof.
  revert a'. induction a as [ | x a IH ]; intros [ | x' a' ] b b' Hl; simpl in *;
    try discriminate.
  - now intros ->.
  - intros [= -> H]. destruct (IH a' b b') as [-> ->]; [ lia | exact H | now split ].
Qed.

(** Two texts with tails of the same length are equal part by part. *)
Lemma append_split_r (a a' b b' : string) :
  String.length b = String.length b' ->
  (a ++ b = a' ++ b')%string -> a = a' /\ b = b'.
Proof.
  intros Hl H. apply append_split; [ | exact H ].
  apply (f_equal String.length) in H. rewrite !length_append in H. lia.
Qed.

Lemma days_in_month_le y m : 1 <= m <= 12 -> days_in_month y m <= 31.
Proof.
  intros Hm. unfold days_in_month.
  destruct (month_cases m Hm) as
    [-> | [-> | [-> | [-> | [-> | [-> | [-> | [-> | [-> | [-> | [-> | ->] ] ] ] ] ] ] ] ] ] ];
    cbn [Z.eqb Pos.eqb andb]; try (cbv; discriminate).
  destruct (is_leap y); cbv; discriminate.
Qed.

Lemma strftime_date_fields dt :
  valid_datetime dt = true ->
  int_of_digits (strftime_Y dt) = year dt
  /\ (String.length (strftime_m dt) = 2%nat /\ int_of_digits (strftime_m dt) = month dt)
  /\ (String.length (strftime_d dt) = 2%nat /\ int_of_digits (strftime_d dt) = day dt).
Proof.
  intros Hv. apply valid_fields_bounds in Hv as (Hy & Hm & Hd & _).
  pose proof (days_in_month_le (year dt) (month dt) Hm) as Hle.
  split; [ now apply strftime_Y_year | ].
  unfold strftime_m, strftime_d. repeat split.
  - apply (field_reads_back_range 2 1 (Z.to_nat 31)); [ exact day_reads_back | lia ].
  - apply (field_reads_back_range 2 1 (Z.to_nat 31)); [ exact day_reads_back | lia ].
  - apply (field_reads_back_range 2 1 (Z.to_nat 31)); [ exact day_reads_back | lia ].
  - apply (field_reads_back_range 2 1 (Z.to_nat 31)); [ exact day_reads_back | lia ].
Qed.



(** ** What the merge and the CSV reader never lose *)

(** X29.  [merge] never loses a key and invents none: the keys of
    [merge(a, b)] are the keys of [a] together with the keys of [b]. *)
Theorem merge_keys (a b : dict) (k : string) :
  dict_mem k (merge a b) = dict_mem k a || dict_mem k b.
Proof. exact (dict_mem_merge k b a). Qed.

Lemma py_slice_from_one {A} (x : A) (l : list A) :
  py_slice_from (x :: l) 1 = l /\ py_slice_from (@nil A) 1 = [].
Proof.
  unfold py_slice_from. cbn [Z.ltb Z.compare]. split; [ | reflexivity ].
  replace (Z.to_nat (Z.min 1 (Z.of_nat (List.length (x :: l))))) with 1%nat
    by (cbn [List.length]; lia).
  reflexivity.
Qed.

(** X30.  A CSV object is read whole: [LogS3.header] is the first line and
    [LogS3.logdata_list] yields each of the other lines, in order, each
    without the white space at its ends; for an object without a line the
    header raises [IndexError] and no entry is yielded. *)
Theorem s3_csv_lines (re_search_key : string -> string -> res bool)
    (sections : list (string * config)) (s3key : string)
    (read_object : res bytes) (zip_first_name : bytes -> res string)
    (read_text : body -> res string) (json_decode : string -> res pyval)
    (file_format : string) (lines : list string) :
  s3_file_format re_search_key sections s3key = Ok file_format ->
  str_contains "text" file_format = false ->
  str_contains "csv" file_format = true ->
  s3_readlines read_object zip_first_name read_text = Ok lines ->
  match lines with
  | [] =>
      s3_header re_search_key sections s3key read_object zip_first_name read_text
      = Raise IndexError
      /\ s3_logdata_list re_search_key sections s3key read_object zip_first_name
           read_text json_decode = yields []
  | first :: others =>
      s3_header re_search_key sections s3key read_object zip_first_name read_text
      = Ok (PStr (py_strip first))
      /\ s3_logdata_list re_search_key sections s3key read_object zip_first_name
           read_text json_decode
         = yields (map (fun logdata => PStr (py_strip logdata)) others)
  end.
Proof.
  intros Hff Htext Hcsv Hlines.
  unfold s3_header, s3_logdata_list. rewrite Hff. cbn [bind].
  rewrite Htext, Hcsv, Hlines. cbn [bind gen_raise].
  destruct lines as [ | first others ].
  - split; reflexivity.
  - destruct (py_slice_from_one first others) as [-> _]. split; reflexivity.
Qed.

Lemma s3_csv_lines_witness :
  s3_header s3_sample_search
    [("waf", fun k => if String.eqb k "s3_key" then Some "waf"
                      else if String.eqb k "file_format" then Some "csv" else None)]
    "waf/x.csv" (Ok rawdata_sample) (fun _ => Raise (Exception "BadZipFile"))
    (fun _ => Ok s3_sample_text)
  = Ok (PStr (py_strip (String.append "version interface action" (String "010" ""))))
  /\ s3_logdata_list s3_sample_search
       [("waf", fun k => if String.eqb k "s3_key" then Some "waf"
                         else if String.eqb k "file_format" then Some "csv" else None)]
       "waf/x.csv" (Ok rawdata_sample) (fun _ => Raise (Exception "BadZipFile"))
       (fun _ => Ok s3_sample_text) (fun _ => Raise JSONDecodeError)
     = yields (map (fun logdata => PStr (py_strip logdata))
                 [String.append " 2 eni-1 ACCEPT " (String "010" "");
                  String "010" ""; "last"]).
Proof.
  apply (s3_csv_lines s3_sample_search
           [("waf", fun k => if String.eqb k "s3_key" then Some "waf"
                             else if String.eqb k "file_format" then Some "csv" else None)]
           "waf/x.csv" (Ok rawdata_sample) (fun _ => Raise (Exception "BadZipFile"))
           (fun _ => Ok s3_sample_text) (fun _ => Raise JSONDecodeError) "csv"
           [String.append "version interface action" (String "010" "");
            String.append " 2 eni-1 ACCEPT " (String "010" "");
            String "010" ""; "last"]).
  - reflexivity.
  - reflexivity.
  - reflexivity.
  - vm_compute. reflexivity.
Defined.
